(** * react-openai-streaming-hooks: the chat stream handler

    A shallow embedding of [src/chat-stream-handler.ts]: the request shaper
    [getOpenAiRequestOptions] and the stream decoder
    [openAiStreamingDataHandler], together with the parts of the JavaScript
    platform the two functions call (strings of UTF-16 code units, regular
    expressions, [String.prototype.split/replace/trim], [TextDecoder],
    [JSON.parse], property reads and string concatenation).

    The handler is asynchronous and effectful. Its model takes the world
    it runs in (the clock and the answer to the request, whose body is the
    sequence of chunks the reader yields) and returns the effects of the
    session in order, the calls of the two callbacks among them, with
    either the message returned or the exception thrown. Two platform
    functions whose results depend on floating point are parameters:
    printing a Number and [JSON.stringify]. *)

From Stdlib Require Import String Ascii List NArith ZArith Bool Arith Lia.
From Stdlib.Strings Require Import Byte.
Import ListNotations.

Set Implicit Arguments.

(* ================================================================== *)
(** ** JavaScript strings *)
(* ================================================================== *)

(** A JavaScript string is a sequence of 16-bit code units. *)
Abbreviation jsstring := (list N) (only parsing).

(** String literals of the source, written as Rocq strings (ASCII only). *)
Definition lit (s : string) : jsstring :=
  map N_of_ascii (list_ascii_of_string s).

(** Wire text for examples: [~] stands for a line feed and ['] for the
    double quote, every other character for itself. *)
Definition wire_unit (a : ascii) : N :=
  let n := N_of_ascii a in
  if (n =? 126)%N then 10%N else if (n =? 39)%N then 34%N else n.

Definition wire (s : string) : jsstring :=
  map wire_unit (list_ascii_of_string s).

Definition utf8_wire (s : string) : list byte :=
  map (fun a => match Byte.of_N (wire_unit a) with Some b => b | None => x00 end)
      (list_ascii_of_string s).

Fixpoint jsstring_eqb (a b : jsstring) : bool :=
  match a, b with
  | [], [] => true
  | x :: a', y :: b' => (x =? y)%N && jsstring_eqb a' b'
  | _, _ => false
  end.

(** ECMAScript WhiteSpace and LineTerminator code units: the class [\s] of
    regular expressions and the set stripped by [String.prototype.trim]. *)
Definition isWhiteSpace (c : N) : bool :=
  ((9 <=? c) && (c <=? 13) || (c =? 32) || (c =? 160) || (c =? 5760)
   || (8192 <=? c) && (c <=? 8202) || (c =? 8232) || (c =? 8233)
   || (c =? 8239) || (c =? 8287) || (c =? 12288) || (c =? 65279))%N.

Fixpoint drop_ws (s : jsstring) : jsstring :=
  match s with
  | c :: t => if isWhiteSpace c then drop_ws t else s
  | [] => []
  end.

(** [String.prototype.trim]. *)
Definition String_trim (s : jsstring) : jsstring :=
  rev (drop_ws (rev (drop_ws s))).

(* ================================================================== *)
(** ** Regular expressions (backtracking matcher of ECMAScript) *)
(* ================================================================== *)

(** The constructs used by the three patterns of the source. None of the
    patterns carries a flag, so [^] asserts the start of the input. *)
Inductive regex : Type :=
| RChar (c : N)
| RClass (p : N -> bool)
| RBol
| RSeq (r1 r2 : regex)
| RGroup (i : nat) (r : regex)
| ROpt (r : regex)
| RStar (r : regex)
| RRep (n : nat) (r : regex).

(** Matcher state: the index reached, the input from there on, and the
    captures ([None] is [undefined]; capture group [n] of the pattern is
    entry [n - 1] of the list). *)
Record mstate : Type := MState {
  pos : nat;
  rest : jsstring;
  caps : list (option jsstring)
}.

Fixpoint set_nth (A : Type) (i : nat) (x : A) (l : list A) : list A :=
  match l, i with
  | [], _ => []
  | _ :: t, O => x :: t
  | y :: t, S i' => y :: set_nth i' x t
  end.

Definition step_unit (p : N -> bool) (k : mstate -> option mstate)
  (st : mstate) : option mstate :=
  match rest st with
  | x :: t => if p x then k (MState (S (pos st)) t (caps st)) else None
  | [] => None
  end.

Definition or_else (A : Type) (a b : option A) : option A :=
  match a with Some x => Some x | None => b end.

(** The loop of a greedy [r*] whose body matches through [m]: one more
    iteration first, rejected when it consumes nothing, then the
    continuation. [n] exceeds the number of units left, and every
    iteration that is kept consumes one at least. *)
Fixpoint star_loop (m : (mstate -> option mstate) -> mstate -> option mstate)
  (k : mstate -> option mstate) (n : nat) (st : mstate) : option mstate :=
  match n with
  | O => k st
  | S n' =>
      or_else
        (m (fun st' =>
              if Nat.ltb (pos st) (pos st') then star_loop m k n' st' else None)
           st)
        (k st)
  end.

(** [r{n}] *)
Fixpoint rep_loop (m : (mstate -> option mstate) -> mstate -> option mstate)
  (k : mstate -> option mstate) (n : nat) : mstate -> option mstate :=
  match n with
  | O => k
  | S n' => m (rep_loop m k n')
  end.

(** Continuation-passing matcher: [rmatch r k st] tries [r] at [st] and
    hands every way of matching it, in priority order, to [k]. *)
Fixpoint rmatch (r : regex) (k : mstate -> option mstate) (st : mstate)
  {struct r} : option mstate :=
  match r with
  | RChar c => step_unit (N.eqb c) k st
  | RClass p => step_unit p k st
  | RBol => if Nat.eqb (pos st) 0 then k st else None
  | RSeq r1 r2 => rmatch r1 (rmatch r2 k) st
  | RGroup i r0 =>
      rmatch r0
        (fun st' =>
           k (MState (pos st') (rest st')
                (set_nth i (Some (firstn (pos st' - pos st) (rest st)))
                   (caps st'))))
        st
  | ROpt r0 =>
      or_else
        (rmatch r0
           (fun st' => if Nat.ltb (pos st) (pos st') then k st' else None) st)
        (k st)
  | RStar r0 => star_loop (rmatch r0) k (S (List.length (rest st))) st
  | RRep n r0 => rep_loop (rmatch r0) k n st
  end.

(** A match attempt anchored at index [q] of the input. *)
Definition match_at (r : regex) (ncaps : nat) (q : nat) (s : jsstring)
  : option mstate :=
  rmatch r (fun st => Some st) (MState q s (repeat None ncaps)).

(** [RegExpBuiltinExec] without the [g] and [y] flags: the first index,
    from 0 upwards, at which the pattern matches. *)
Fixpoint exec_from (r : regex) (ncaps : nat) (q : nat) (s : jsstring)
  : option (nat * mstate) :=
  match match_at r ncaps q s with
  | Some st => Some (q, st)
  | None =>
      match s with
      | [] => None
      | _ :: t => exec_from r ncaps (S q) t
      end
  end.

(** [String.prototype.replace] with a non-global pattern and a replacement
    string free of [$] patterns: the first match is replaced. *)
Definition String_replace (r : regex) (ncaps : nat) (s repl : jsstring)
  : jsstring :=
  match exec_from r ncaps 0 s with
  | Some (i, st) => firstn i s ++ repl ++ rest st
  | None => s
  end.

(** [RegExp.prototype[Symbol.split]] without a limit. [cur] is the text
    between the end [p] of the previous separator and the index [q];
    [skip] counts the units of a separator still to be stepped over. The
    result is the array of the source: substrings with the captures of
    each separator spliced in between. *)
Fixpoint split_loop (r : regex) (ncaps : nat) (q : nat) (s : jsstring)
  (skip : nat) (cur : jsstring) : list (option jsstring) :=
  match s with
  | [] => [Some cur]
  | c :: t =>
      match skip with
      | S n => split_loop r ncaps (S q) t n cur
      | O =>
          match match_at r ncaps q s with
          | None => split_loop r ncaps (S q) t 0 (cur ++ [c])
          | Some st =>
              if Nat.eqb (pos st) q then
                match cur with
                | [] => split_loop r ncaps (S q) t 0 [c]
                | _ => Some cur :: caps st ++ split_loop r ncaps (S q) t 0 [c]
                end
              else
                Some cur :: caps st
                  ++ split_loop r ncaps (S q) t (pos st - q - 1) []
          end
      end
  end.

Definition String_split (r : regex) (ncaps : nat) (s : jsstring)
  : list (option jsstring) :=
  match s with
  | [] => match match_at r ncaps 0 [] with Some _ => [] | None => [Some []] end
  | _ => split_loop r ncaps 0 s 0 []
  end.

(** [RLit s r]: the literal code units of [s], then [r]. *)
Fixpoint RLit (s : jsstring) (r : regex) : regex :=
  match s with
  | [] => r
  | c :: t => RSeq (RChar c) (RLit t r)
  end.

Definition LF : N := 10%N.

(** [/(\n){2}/] *)
Definition re_event_boundary : regex := RRep 2 (RGroup 0 (RChar LF)).

(** [/(\n)?^data:\s*/] *)
Definition re_data_field : regex :=
  RSeq (ROpt (RGroup 0 (RChar LF)))
    (RSeq RBol (RLit (lit "data:") (RStar (RClass isWhiteSpace)))).

(** [/^`\s*/] *)
Definition re_backtick : regex :=
  RSeq RBol (RSeq (RChar 96%N) (RStar (RClass isWhiteSpace))).

(* ================================================================== *)
(** ** [TextDecoder]: the UTF-8 decoder of the Encoding Standard *)
(* ================================================================== *)

Record utf8_state : Type := Utf8State {
  code_point : N;
  bytes_seen : N;
  bytes_needed : N;
  lower_boundary : N;
  upper_boundary : N
}.

Definition utf8_initial : utf8_state := Utf8State 0 0 0 128 191.

Inductive utf8_result : Type :=
| Continue (st : utf8_state)
| CodePoint (cp : N)
| DecodeError
| DecodeErrorRestore.

Definition in_range (lo hi b : N) : bool := ((lo <=? b) && (b <=? hi))%N.

(** The handler of the UTF-8 decoder for one byte. After [CodePoint] and
    the two errors the decoder is back in [utf8_initial]; on
    [DecodeErrorRestore] the byte is put back and handled again. *)
Definition utf8_handler (st : utf8_state) (b : N) : utf8_result :=
  if (bytes_needed st =? 0)%N then
    if in_range 0 127 b then CodePoint b
    else if in_range 194 223 b then
      Continue (Utf8State (N.land b 31) 0 1 128 191)
    else if in_range 224 239 b then
      Continue (Utf8State (N.land b 15) 0 2
                  (if (b =? 224)%N then 160 else 128)
                  (if (b =? 237)%N then 159 else 191))
    else if in_range 240 244 b then
      Continue (Utf8State (N.land b 7) 0 3
                  (if (b =? 240)%N then 144 else 128)
                  (if (b =? 244)%N then 143 else 191))
    else DecodeError
  else if negb (in_range (lower_boundary st) (upper_boundary st) b) then
    DecodeErrorRestore
  else
    let cp := N.lor (N.shiftl (code_point st) 6) (N.land b 63) in
    let seen := (bytes_seen st + 1)%N in
    if (seen =? bytes_needed st)%N then CodePoint cp
    else Continue (Utf8State cp seen (bytes_needed st) 128 191).

Definition REPLACEMENT : N := 65533%N.

(** Running the decoder over a byte sequence with error mode
    "replacement"; the end of the input inside a sequence is an error. *)
Fixpoint utf8_decode (st : utf8_state) (bs : list byte) : list N :=
  match bs with
  | [] => if (bytes_needed st =? 0)%N then [] else [REPLACEMENT]
  | b :: t =>
      match utf8_handler st (Byte.to_N b) with
      | Continue st' => utf8_decode st' t
      | CodePoint cp => cp :: utf8_decode utf8_initial t
      | DecodeError => REPLACEMENT :: utf8_decode utf8_initial t
      | DecodeErrorRestore =>
          REPLACEMENT ::
          match utf8_handler utf8_initial (Byte.to_N b) with
          | Continue st' => utf8_decode st' t
          | CodePoint cp => cp :: utf8_decode utf8_initial t
          | _ => REPLACEMENT :: utf8_decode utf8_initial t
          end
      end
  end.

(** With [ignoreBOM] false, a byte order mark at the head is dropped. *)
Definition strip_BOM (cps : list N) : list N :=
  match cps with
  | cp :: t => if (cp =? 65279)%N then t else cps
  | [] => []
  end.

(** Code points to UTF-16 code units. *)
Definition utf16_units (cp : N) : jsstring :=
  if (cp <? 65536)%N then [cp]
  else
    let v := (cp - 65536)%N in
    [(55296 + N.shiftr v 10)%N; (56320 + N.land v 1023)%N].

(** [new TextDecoder().decode(value)]: a decoder created for the call,
    label "utf-8", not fatal, no [stream] option, so that the call begins
    in the initial state and flushes at the end of [value]. *)
Definition TextDecoder_decode (value : list byte) : jsstring :=
  flat_map utf16_units (strip_BOM (utf8_decode utf8_initial value)).

(* ================================================================== *)
(** ** JSON values and [JSON.parse] *)
(* ================================================================== *)

(** A value produced by [JSON.parse]. A number keeps the text of its
    literal; an object lists its own properties. *)
#[warnings="-register-all"]
Inductive JSON : Type :=
| JNull
| JBool (b : bool)
| JNumber (literal : jsstring)
| JString (s : jsstring)
| JArray (elements : list JSON)
| JObject (members : list (jsstring * JSON)).

(** An object is the list of its own properties in creation order, one
    entry per key. Reading an own property: *)
Fixpoint obj_get (m : list (jsstring * JSON)) (k : jsstring) : option JSON :=
  match m with
  | [] => None
  | (k', v) :: t => if jsstring_eqb k' k then Some v else obj_get t k
  end.

(** Defining a property ([CreateDataProperty]), as [JSON.parse], an object
    literal and a spread do for each member in turn: an existing key keeps
    its place and takes the new value, a new key goes last. *)
Fixpoint obj_set (m : list (jsstring * JSON)) (k : jsstring) (v : JSON)
  : list (jsstring * JSON) :=
  match m with
  | [] => [(k, v)]
  | (k', v') :: t =>
      if jsstring_eqb k' k then (k', v) :: t else (k', v') :: obj_set t k v
  end.

Inductive parse_result (A : Type) : Type :=
| Parsed (a : A) (remaining : jsstring)
| Invalid
| OutOfFuel.

Arguments Invalid {A}.
Arguments OutOfFuel {A}.

Definition map_parsed (A B : Type) (f : A -> B) (r : parse_result A)
  : parse_result B :=
  match r with
  | Parsed a t => Parsed (f a) t
  | Invalid => Invalid
  | OutOfFuel => OutOfFuel
  end.

Definition is_json_ws (c : N) : bool :=
  ((c =? 32) || (c =? 9) || (c =? 10) || (c =? 13))%N.

Fixpoint skip_json_ws (s : jsstring) : jsstring :=
  match s with
  | c :: t => if is_json_ws c then skip_json_ws t else s
  | [] => []
  end.

Definition is_digit (c : N) : bool := ((48 <=? c) && (c <=? 57))%N.

Definition hex_value (c : N) : option N :=
  if is_digit c then Some (c - 48)%N
  else if ((97 <=? c) && (c <=? 102))%N then Some (c - 87)%N
  else if ((65 <=? c) && (c <=? 70))%N then Some (c - 55)%N
  else None.

Definition hex4 (a b c d : N) : option N :=
  match hex_value a, hex_value b, hex_value c, hex_value d with
  | Some x, Some y, Some z, Some w => Some (((x * 16 + y) * 16 + z) * 16 + w)%N
  | _, _, _, _ => None
  end.

(** The unit denoted by a single-character escape. *)
Definition simple_escape (c : N) : option N :=
  if (c =? 34)%N then Some 34%N
  else if (c =? 92)%N then Some 92%N
  else if (c =? 47)%N then Some 47%N
  else if (c =? 98)%N then Some 8%N
  else if (c =? 102)%N then Some 12%N
  else if (c =? 110)%N then Some 10%N
  else if (c =? 114)%N then Some 13%N
  else if (c =? 116)%N then Some 9%N
  else None.

(** The characters of a string literal, after its opening quote. *)
Fixpoint parse_string_chars (s : jsstring) : parse_result jsstring :=
  match s with
  | [] => Invalid
  | c :: t =>
      if (c =? 34)%N then Parsed [] t
      else if (c =? 92)%N then
        match t with
        | [] => Invalid
        | e :: t1 =>
            if (e =? 117)%N then
              match t1 with
              | h1 :: h2 :: h3 :: h4 :: t2 =>
                  match hex4 h1 h2 h3 h4 with
                  | Some u => map_parsed (cons u) (parse_string_chars t2)
                  | None => Invalid
                  end
              | _ => Invalid
              end
            else
              match simple_escape e with
              | Some u => map_parsed (cons u) (parse_string_chars t1)
              | None => Invalid
              end
        end
      else if (c <? 32)%N then Invalid
      else map_parsed (cons c) (parse_string_chars t)
  end.

Fixpoint take_digits (s : jsstring) : jsstring * jsstring :=
  match s with
  | c :: t =>
      if is_digit c then let (d, r) := take_digits t in (c :: d, r)
      else ([], s)
  | [] => ([], [])
  end.

(** One or more digits. *)
Definition parse_digits1 (s : jsstring) : option (jsstring * jsstring) :=
  match take_digits s with
  | ([], _) => None
  | (d, r) => Some (d, r)
  end.

(** The integer part of a number: an optional minus sign, then either
    a single 0 or a non-zero digit followed by digits. *)
Definition parse_int_part (s : jsstring) : option (jsstring * jsstring) :=
  let (sign, s1) :=
    match s with
    | c :: t => if (c =? 45)%N then ([c], t) else ([], s)
    | [] => ([], [])
    end in
  match s1 with
  | c :: t =>
      if (c =? 48)%N then Some (sign ++ [c], t)
      else if is_digit c then
        let (d, r) := take_digits t in Some (sign ++ c :: d, r)
      else None
  | [] => None
  end.

(** The optional fraction: a dot and one or more digits. *)
Definition parse_frac_part (s : jsstring) : option (jsstring * jsstring) :=
  match s with
  | c :: t =>
      if (c =? 46)%N then
        match parse_digits1 t with
        | Some (d, r) => Some (c :: d, r)
        | None => None
        end
      else Some ([], s)
  | [] => Some ([], [])
  end.

(** The optional exponent: e or E, an optional sign, one or more digits. *)
Definition parse_exp_part (s : jsstring) : option (jsstring * jsstring) :=
  match s with
  | c :: t =>
      if ((c =? 101) || (c =? 69))%N then
        let (sign, t1) :=
          match t with
          | g :: t' => if ((g =? 43) || (g =? 45))%N then ([g], t') else ([], t)
          | [] => ([], [])
          end in
        match parse_digits1 t1 with
        | Some (d, r) => Some (c :: sign ++ d, r)
        | None => None
        end
      else Some ([], s)
  | [] => Some ([], [])
  end.

Definition parse_number (s : jsstring) : parse_result JSON :=
  match parse_int_part s with
  | None => Invalid
  | Some (i, s1) =>
      match parse_frac_part s1 with
      | None => Invalid
      | Some (f, s2) =>
          match parse_exp_part s2 with
          | None => Invalid
          | Some (e, s3) => Parsed (JNumber (i ++ f ++ e)) s3
          end
      end
  end.

(** [strip_prefix p s] is what follows [p] in [s]. *)
Fixpoint strip_prefix (p s : jsstring) : option jsstring :=
  match p, s with
  | [], _ => Some s
  | x :: p', y :: s' => if (x =? y)%N then strip_prefix p' s' else None
  | _ :: _, [] => None
  end.

Definition parse_keyword (kw : string) (v : JSON) (s : jsstring)
  : parse_result JSON :=
  match strip_prefix (lit kw) s with
  | Some t => Parsed v t
  | None => Invalid
  end.

(** Recursive descent over the JSON grammar. Every call spends one unit
    of fuel; [JSON_parse] below supplies enough for any text. *)
Fixpoint parse_value (fuel : nat) (s : jsstring) {struct fuel}
  : parse_result JSON :=
  match fuel with
  | O => OutOfFuel
  | S f =>
      match skip_json_ws s with
      | [] => Invalid
      | c :: t =>
          if (c =? 123)%N then
            match skip_json_ws t with
            | d :: t' =>
                if (d =? 125)%N then Parsed (JObject []) t'
                else parse_members f t []
            | [] => Invalid
            end
          else if (c =? 91)%N then
            match skip_json_ws t with
            | d :: t' =>
                if (d =? 93)%N then Parsed (JArray []) t'
                else parse_elements f t []
            | [] => Invalid
            end
          else if (c =? 34)%N then map_parsed JString (parse_string_chars t)
          else if (c =? 116)%N then parse_keyword "true" (JBool true) (c :: t)
          else if (c =? 102)%N then parse_keyword "false" (JBool false) (c :: t)
          else if (c =? 110)%N then parse_keyword "null" JNull (c :: t)
          else parse_number (c :: t)
      end
  end

with parse_elements (fuel : nat) (s : jsstring) (acc : list JSON)
  {struct fuel} : parse_result JSON :=
  match fuel with
  | O => OutOfFuel
  | S f =>
      match parse_value f s with
      | Parsed v r =>
          match skip_json_ws r with
          | c :: t =>
              if (c =? 44)%N then parse_elements f t (v :: acc)
              else if (c =? 93)%N then Parsed (JArray (rev (v :: acc))) t
              else Invalid
          | [] => Invalid
          end
      | Invalid => Invalid
      | OutOfFuel => OutOfFuel
      end
  end

with parse_members (fuel : nat) (s : jsstring) (acc : list (jsstring * JSON))
  {struct fuel} : parse_result JSON :=
  match fuel with
  | O => OutOfFuel
  | S f =>
      match skip_json_ws s with
      | q :: t =>
          if (q =? 34)%N then
            match parse_string_chars t with
            | Parsed key r =>
                match skip_json_ws r with
                | c :: t1 =>
                    if (c =? 58)%N then
                      match parse_value f t1 with
                      | Parsed v r1 =>
                          match skip_json_ws r1 with
                          | d :: t2 =>
                              if (d =? 44)%N then
                                parse_members f t2 (obj_set acc key v)
                              else if (d =? 125)%N then
                                Parsed (JObject (obj_set acc key v)) t2
                              else Invalid
                          | [] => Invalid
                          end
                      | Invalid => Invalid
                      | OutOfFuel => OutOfFuel
                      end
                    else Invalid
                | [] => Invalid
                end
            | _ => Invalid
            end
          else Invalid
      | [] => Invalid
      end
  end.

Definition json_fuel (s : jsstring) : nat := 2 * List.length s + 3.

(** [JSON.parse(text)] without a reviver: [None] is the [SyntaxError]. *)
Definition JSON_parse (text : jsstring) : option JSON :=
  match parse_value (json_fuel text) text with
  | Parsed v r =>
      match skip_json_ws r with
      | [] => Some v
      | _ :: _ => None
      end
  | _ => None
  end.

(* ================================================================== *)
(** ** Property reads, errors and string conversion *)
(* ================================================================== *)

Inductive JSError : Type :=
| SyntaxError
| TypeError
| Error (message : jsstring).

(** The property names the handler reads. None of them is defined on a
    built-in prototype, so a read that finds no own property yields
    [undefined]. *)
Inductive prop : Type := P_choices | P_0 | P_delta | P_content | P_role.

Definition prop_key (p : prop) : jsstring :=
  match p with
  | P_choices => lit "choices"
  | P_0 => lit "0"
  | P_delta => lit "delta"
  | P_content => lit "content"
  | P_role => lit "role"
  end.

(** [v.p] and [v[0]], for [v] a JSON value or [undefined] ([None]).
    Reading a property of [undefined] or [null] throws a [TypeError]. *)
Definition Get (v : option JSON) (p : prop) : JSError + option JSON :=
  match v with
  | None => inl TypeError
  | Some JNull => inl TypeError
  | Some (JBool _) => inr None
  | Some (JNumber _) => inr None
  | Some (JString s) =>
      match p, s with
      | P_0, c :: _ => inr (Some (JString [c]))
      | _, _ => inr None
      end
  | Some (JArray l) =>
      match p, l with
      | P_0, x :: _ => inr (Some x)
      | _, _ => inr None
      end
  | Some (JObject m) => inr (obj_get m (prop_key p))
  end.

(** [a ?? b] with [b] a string literal. *)
Definition nullish_or (v : option JSON) (d : jsstring) : JSON :=
  match v with
  | None => JString d
  | Some JNull => JString d
  | Some x => x
  end.

Definition N_digit (d : N) : N := (48 + d)%N.

Fixpoint uint_units (u : Decimal.uint) : jsstring :=
  match u with
  | Decimal.Nil => []
  | Decimal.D0 u' => N_digit 0 :: uint_units u'
  | Decimal.D1 u' => N_digit 1 :: uint_units u'
  | Decimal.D2 u' => N_digit 2 :: uint_units u'
  | Decimal.D3 u' => N_digit 3 :: uint_units u'
  | Decimal.D4 u' => N_digit 4 :: uint_units u'
  | Decimal.D5 u' => N_digit 5 :: uint_units u'
  | Decimal.D6 u' => N_digit 6 :: uint_units u'
  | Decimal.D7 u' => N_digit 7 :: uint_units u'
  | Decimal.D8 u' => N_digit 8 :: uint_units u'
  | Decimal.D9 u' => N_digit 9 :: uint_units u'
  end.

(** [ToString] of a Number that is a non-negative integer below 10^21. *)
Definition integer_ToString (n : N) : jsstring := uint_units (N.to_uint n).

Section ToString.

(** [ToString] of the Number denoted by a JSON number literal. Rounding
    the literal to a double and printing the shortest decimal that
    reads back as that double are left to the platform. *)
Variable Number_toString : jsstring -> jsstring.

Definition has_own (m : list (jsstring * JSON)) (k : string) : bool :=
  match obj_get m (lit k) with Some _ => true | None => false end.

(** [ToString(ToPrimitive(v))] as string concatenation applies it. An
    array goes through [Array.prototype.join], where [null] elements
    print as the empty string. An object prints through
    [Object.prototype.toString], unless an own data property named
    [toString] shadows it: such a property is not callable and no
    primitive is found. *)
Fixpoint ToString (v : JSON) : JSError + jsstring :=
  match v with
  | JNull => inr (lit "null")
  | JBool true => inr (lit "true")
  | JBool false => inr (lit "false")
  | JNumber l => inr (Number_toString l)
  | JString s => inr s
  | JArray l =>
      (fix join (l : list JSON) : JSError + jsstring :=
         match l with
         | [] => inr []
         | x :: t =>
             match (match x with JNull => inr [] | _ => ToString x end) with
             | inl e => inl e
             | inr sx =>
                 match t with
                 | [] => inr sx
                 | _ :: _ =>
                     match join t with
                     | inl e => inl e
                     | inr st => inr (sx ++ lit "," ++ st)
                     end
                 end
             end
         end) l
  | JObject m =>
      if has_own m "toString" then inl TypeError
      else inr (lit "[object Object]")
  end.

End ToString.

(* ================================================================== *)
(** ** The request shaper, [getOpenAiRequestOptions] *)
(* ================================================================== *)

(** An [AbortSignal] is an opaque object; only its identity matters. *)
Inductive AbortSignal : Type := AbortSignalRef (id : N).

Record Headers : Type := {
  Content_Type : jsstring;
  Authorization : jsstring
}.

Record FetchRequestOptions : Type := {
  headers : Headers;
  method : jsstring;
  body : jsstring;
  signal : option AbortSignal
}.

(** The options object: [apiKey], [model] and its other own properties in
    property order. *)
Record OpenAIStreamingParams : Type := {
  apiKey : jsstring;
  model : jsstring;
  otherParams : list (jsstring * JSON)
}.

(** The spread [...o] inside an object literal. *)
Definition obj_spread (m o : list (jsstring * JSON))
  : list (jsstring * JSON) :=
  fold_left (fun acc kv => obj_set acc (fst kv) (snd kv)) o m.

(** The rest element of the destructuring pattern
    [{ apiKey, model, ...restOfApiParams }]: a new object with every own
    property except the two named ones. *)
Definition restOfApiParams (p : OpenAIStreamingParams)
  : list (jsstring * JSON) :=
  obj_spread []
    (filter (fun kv => negb (jsstring_eqb (fst kv) (lit "apiKey")
                             || jsstring_eqb (fst kv) (lit "model")))
            (otherParams p)).

(** The object literal [{ model, ...restOfApiParams, messages, stream: true }]. *)
Definition request_body (p : OpenAIStreamingParams) (messages : list JSON)
  : list (jsstring * JSON) :=
  obj_set
    (obj_set
       (obj_spread (obj_set [] (lit "model") (JString (model p)))
          (restOfApiParams p))
       (lit "messages") (JArray messages))
    (lit "stream") (JBool true).

Section RequestShaper.

(** [JSON.stringify] on JSON values, left to the platform. *)
Variable JSON_stringify : JSON -> jsstring.


End RequestShaper.

(* ================================================================== *)
(** ** The stream decoder, [openAiStreamingDataHandler] *)
(* ================================================================== *)

Definition CHAT_COMPLETIONS_URL : jsstring :=
  lit "https://api.openai.com/v1/chat/completions".

(** The body of a response: the chunks its reader yields, in order, and
    how the reads end: with [{ value: undefined, done: true }] when
    [failure] is [None], with a rejected read otherwise. *)
Record ReadableStream : Type := {
  chunks : list (list byte);
  failure : option JSError
}.

Record Response : Type := {
  status : N;
  statusText : jsstring;
  response_body : option ReadableStream
}.

(** [response.ok]: the status is in the range 200 to 299. *)
Definition ok (r : Response) : bool :=
  ((200 <=? status r) && (status r <=? 299))%N.

(** What the handler observes of its environment: the clock and the
    outcome of the request. *)
Record World : Type := {
  Date_now : Z;
  fetch : jsstring -> FetchRequestOptions -> JSError + Response
}.

(** The effects of a session, in the order they happen. The two
    callbacks are recorded with their arguments and return normally. *)
Inductive event : Type :=
| EvDateNow (t : Z)
| EvFetch (url : jsstring) (opts : FetchRequestOptions)
| EvRead (value : option (list byte))
| EvIncomingChunk (contentChunk : jsstring) (roleChunk : JSON)
| EvCloseStream (beforeTimestamp : Z).

Record OpenAIChatMessage : Type := ChatMessage {
  message_content : jsstring;
  message_role : jsstring
}.

Inductive outcome : Type :=
| Returned (m : OpenAIChatMessage)
| Threw (e : JSError).

(** The local variables that live across iterations of the read loop;
    [decodedData] is [None] when it holds [undefined]. *)
Record locals : Type := Locals {
  content : jsstring;
  role : jsstring;
  decodedData : option jsstring
}.

(** [decodedData += chunk] *)
Definition append_chunk (d : option jsstring) (chunk : jsstring) : jsstring :=
  match d with
  | Some s => s ++ chunk
  | None => lit "undefined" ++ chunk
  end.

(** [lines[i].replace(/(\n)?^data:\s*/, '').trim()] *)
Definition trimmedLine (line : jsstring) : jsstring :=
  String_trim (String_replace re_data_field 1 line []).

Definition DONE : jsstring := lit "[DONE]".

(** [chunk.choices[0].delta] *)
Definition chunk_delta (chunk : JSON) : JSError + option JSON :=
  match Get (Some chunk) P_choices with
  | inl e => inl e
  | inr choices =>
      match Get choices P_0 with
      | inl e => inl e
      | inr first => Get first P_delta
      end
  end.

(** [(chunk.choices[0].delta.content ?? '').replace(/^`\s*/, '`')]: only
    a string has a [replace] method to call. *)
Definition contentChunk_of (chunk : JSON) : JSError + jsstring :=
  match chunk_delta chunk with
  | inl e => inl e
  | inr delta =>
      match Get delta P_content with
      | inl e => inl e
      | inr c =>
          match nullish_or c [] with
          | JString s => inr (String_replace re_backtick 0 s (lit "`"))
          | _ => inl TypeError
          end
      end
  end.

(** [chunk.choices[0].delta.role ?? ''] *)
Definition roleChunk_of (chunk : JSON) : JSError + JSON :=
  match chunk_delta chunk with
  | inl e => inl e
  | inr delta =>
      match Get delta P_role with
      | inl e => inl e
      | inr r => inr (nullish_or r [])
      end
  end.

Section Decoder.

Variable Number_toString : jsstring -> jsstring.

(** One iteration of the [for] loop, on [lines[i]] ([None] is
    [undefined]): the events it causes and either the exception thrown
    or the new values of [content] and [role]. *)
Definition process_line (line : option jsstring) (acc : jsstring * jsstring)
  : list event * (JSError + jsstring * jsstring) :=
  match line with
  | None => ([], inl TypeError)
  | Some l =>
      let t := trimmedLine l in
      if negb (jsstring_eqb t []) && negb (jsstring_eqb t DONE) then
        match JSON_parse t with
        | None => ([], inl SyntaxError)
        | Some chunk =>
            match contentChunk_of chunk with
            | inl e => ([], inl e)
            | inr contentChunk =>
                match roleChunk_of chunk with
                | inl e => ([], inl e)
                | inr roleChunk =>
                    match ToString Number_toString roleChunk with
                    | inl e => ([], inl e)
                    | inr roleText =>
                        ([EvIncomingChunk contentChunk roleChunk],
                         inr (fst acc ++ contentChunk, snd acc ++ roleText))
                    end
                end
            end
        end
      else ([], inr acc)
  end.

(** The [for] loop over [lines[0 .. numLines - 2]]. *)
Fixpoint process_lines (lines : list (option jsstring))
  (acc : jsstring * jsstring)
  : list event * (JSError + jsstring * jsstring) :=
  match lines with
  | [] => ([], inr acc)
  | line :: more =>
      match process_line line acc with
      | (evs, inl e) => (evs, inl e)
      | (evs, inr acc') =>
          let (evs', r) := process_lines more acc' in (evs ++ evs', r)
      end
  end.

(** [lines[numLines - 1]] *)
Definition last_line (lines : list (option jsstring)) : option jsstring :=
  match nth_error lines (List.length lines - 1) with
  | Some (Some s) => Some s
  | _ => None
  end.

(** The [while (!done)] loop: one iteration per read. *)
Fixpoint read_loop (values : list (list byte)) (failure : option JSError)
  (st : locals) : list event * (JSError + locals) :=
  match values with
  | [] =>
      match failure with
      | Some e => ([], inl e)
      | None => ([EvRead None], inr st)
      end
  | value :: more =>
      let chunk := TextDecoder_decode value in
      let decoded := append_chunk (decodedData st) chunk in
      let lines := String_split re_event_boundary 1 decoded in
      let numLines := List.length lines in
      match process_lines (firstn (numLines - 1) lines) (content st, role st) with
      | (evs, inl e) => (EvRead (Some value) :: evs, inl e)
      | (evs, inr (content', role')) =>
          let (evs', r) :=
            read_loop more failure (Locals content' role' (last_line lines)) in
          (EvRead (Some value) :: evs ++ evs', r)
      end
  end.

Definition not_ok_message (response : Response) : jsstring :=
  lit "Network response was not ok: " ++ integer_ToString (status response)
    ++ lit " - " ++ statusText response.

Definition openAiStreamingDataHandler (w : World)
  (requestOpts : FetchRequestOptions) : list event * outcome :=
  let beforeTimestamp := Date_now w in
  let started := [EvDateNow beforeTimestamp;
                  EvFetch CHAT_COMPLETIONS_URL requestOpts] in
  match fetch w CHAT_COMPLETIONS_URL requestOpts with
  | inl e => (started, Threw e)
  | inr response =>
      if negb (ok response) then
        (started, Threw (Error (not_ok_message response)))
      else
        match response_body response with
        | None =>
            (started,
             Threw (Error (lit "No body included in POST response object")))
        | Some stream =>
            match read_loop (chunks stream) (failure stream)
                    (Locals [] [] (Some [])) with
            | (evs, inl e) => (started ++ evs, Threw e)
            | (evs, inr st) =>
                (started ++ evs ++ [EvCloseStream beforeTimestamp],
                 Returned (ChatMessage (content st) (role st)))
            end
        end
  end.

End Decoder.

(* ================================================================== *)
(** ** The [lines] array, computed directly *)
(* ================================================================== *)

(** What the split on [/(\n){2}/] produces, as proved below: the entries
    of [lines] before the last one (each complete segment followed by the
    captured line feed of its boundary) and the last entry, the text
    after the last boundary. [cur] is the segment read so far. *)
Fixpoint event_lines (s cur : jsstring) : list jsstring * jsstring :=
  match s with
  | [] => ([], cur)
  | c :: t =>
      match t with
      | d :: t' =>
          if ((c =? LF) && (d =? LF))%N then
            let (ls, r) := event_lines t' [] in (cur :: [LF] :: ls, r)
          else event_lines t (cur ++ [c])
      | [] => ([], cur ++ [c])
      end
  end.

(** The text the handler has decoded when the source is exhausted: each
    chunk goes through a decoder of its own. *)
Definition decoded_text (values : list (list byte)) : jsstring :=
  concat (map TextDecoder_decode values).

(** The complete entries of [lines] over a whole session. *)
Definition stream_lines (values : list (list byte)) : list jsstring :=
  fst (event_lines (decoded_text values) []).

(** The calls of the two callbacks among the effects of a session. *)
Definition is_callback (e : event) : bool :=
  match e with
  | EvIncomingChunk _ _ => true
  | EvCloseStream _ => true
  | _ => false
  end.

Definition callbacks (log : list event) : list event := filter is_callback log.

Definition is_close (e : event) : bool :=
  match e with EvCloseStream _ => true | _ => false end.

Definition is_read (e : event) : bool :=
  match e with EvRead _ => true | _ => false end.

(** Whether [chunk.choices[0].delta] evaluates to a value whose
    properties can be read. *)
Definition exposes_delta (chunk : JSON) : bool :=
  match chunk_delta chunk with
  | inr (Some JNull) => false
  | inr (Some _) => true
  | _ => false
  end.

(** The transform of the content delta in the words of the
    specification: when the delta starts with a backtick immediately
    followed by white space, that white space is dropped; any other delta
    is left as it is. *)
Definition collapse_after_backtick (c : jsstring) : jsstring :=
  match c with
  | b :: w :: t =>
      if ((b =? 96)%N && isWhiteSpace w)%bool then b :: drop_ws t else c
  | _ => c
  end.

(* ================================================================== *)
(** ** Example sessions *)
(* ================================================================== *)

Definition example_opts : FetchRequestOptions :=
  {| headers := {| Content_Type := lit "application/json";
                   Authorization := lit "Bearer sk-test" |};
     method := lit "POST";
     body := wire "{'model':'gpt-4','messages':[],'stream':true}";
     signal := None |}.

(** A world whose clock reads [now] and whose request is answered by
    [response]. *)
Definition world_of (now : Z) (response : Response) : World :=
  {| Date_now := now; fetch := fun _ _ => inr response |}.

(** A 200 response whose body yields [values] and then ends. *)
Definition streaming_response (values : list (list byte)) : Response :=
  {| status := 200; statusText := lit "OK";
     response_body := Some {| chunks := values; failure := None |} |}.

Definition example_now : Z := 1700000000000%Z.

(** Number literals printed as they were written; good enough for the
    example sessions, none of which has a numeric role delta. *)
Definition literal_toString (literal : jsstring) : jsstring := literal.

(** One well-formed frame whose content delta is the letter e with an
    acute accent (bytes C3 A9), followed by the terminal marker, cut into
    two chunks between the two bytes of that letter. *)
Definition accent_first : list byte :=
  utf8_wire "data: {'choices':[{'delta':{'content':'" ++ [xc3].

Definition accent_second : list byte :=
  [xa9] ++ utf8_wire "'}}]}~~data: [DONE]~~".

Definition accent_frame : jsstring :=
  wire "data: {'choices':[{'delta':{'content':'" ++ [233%N] ++ wire "'}}]}".

(** The same with the euro sign (bytes E2 82 AC), cut after its first
    byte. *)
Definition euro_first : list byte :=
  utf8_wire "data: {'choices':[{'delta':{'content':'" ++ [xe2].

Definition euro_second : list byte :=
  [x82; xac] ++ utf8_wire "'}}]}~~data: [DONE]~~".

(** A frame segment holds no event boundary and cannot complete one
    with the line feeds that follow it: no two line feeds in a row, and
    no line feed at its end. *)
Fixpoint no_boundary_within (s : jsstring) : bool :=
  match s with
  | [] => true
  | c :: t =>
      match t with
      | [] => negb (c =? LF)%N
      | d :: _ => negb ((c =? LF) && (d =? LF))%N && no_boundary_within t
      end
  end.

(** A well-formed frame: a segment whose trimmed payload parses and
    delivers the content delta [c] and the string role delta [r]. *)
Definition frame_delivers (seg c r : jsstring) : Prop :=
  no_boundary_within seg = true
  /\ trimmedLine seg <> []
  /\ trimmedLine seg <> DONE
  /\ exists chunk,
       JSON_parse (trimmedLine seg) = Some chunk
       /\ contentChunk_of chunk = inr c
       /\ roleChunk_of chunk = inr (JString r).

(** The chunk callback of a frame given with its two deltas. *)
Definition frame_event (f : jsstring * (jsstring * jsstring)) : event :=
  EvIncomingChunk (fst (snd f)) (JString (snd (snd f))).

(** The wire text of frames: each segment followed by a blank line. *)
Definition frames_text (segs : list jsstring) : jsstring :=
  concat (map (fun seg => seg ++ [LF; LF]) segs).

Definition is_ascii (b : byte) : bool := (Byte.to_N b <? 128)%N.



Definition keys (m : list (jsstring * JSON)) : list jsstring := map fst m.

Definition response_500 : Response :=
  {| status := 500; statusText := lit "Internal Server Error";
     response_body := None |}.

Definition response_without_body : Response :=
  {| status := 200; statusText := lit "OK"; response_body := None |}.

Definition hi_frame : jsstring :=
  wire "data: {'choices':[{'delta':{'content':'Hi'}}]}".

(** A stream whose second frame is not JSON. *)
Definition malformed_stream : list (list byte) :=
  [utf8_wire "data: {'choices':[{'delta':{'content':'Hi'}}]}~~"
   ++ utf8_wire "data: {oops~~data: [DONE]~~"].

(** A stream whose second frame has an empty [choices] array. *)
Definition no_delta_stream : list (list byte) :=
  [utf8_wire "data: {'choices':[{'delta':{'content':'Hi'}}]}~~"
   ++ utf8_wire "data: {'choices':[]}~~data: [DONE]~~"].

Definition backtick_line : jsstring :=
  wire "data: {'choices':[{'delta':{'content':'`  js','role':'assistant'}}]}".

Definition backtick_delta : JSON :=
  JObject [(lit "content", JString (wire "`  js"));
           (lit "role", JString (lit "assistant"))].

Definition backtick_chunk : JSON :=
  JObject [(lit "choices", JArray [JObject [(lit "delta", backtick_delta)]])].

(** The session of the example in the specification: a role frame, a
    content frame and the terminal marker, one chunk each. *)
Definition spec_example_stream : list (list byte) :=
  [utf8_wire "data: {'choices':[{'delta':{'role':'assistant'}}]}~~";
   utf8_wire "data: {'choices':[{'delta':{'content':'Hi'}}]}~~";
   utf8_wire "data: [DONE]~~"].

(** Two frames separated by three line feeds instead of two. *)
Definition three_line_feeds_stream : list (list byte) :=
  [utf8_wire "data: {'choices':[{'delta':{'role':'assistant'}}]}~~~"
   ++ utf8_wire "data: {'choices':[{'delta':{'content':'Hi'}}]}~~"
   ++ utf8_wire "data: [DONE]~~"].

(** The state of the decoder after a byte sequence, the pending bytes
    not flushed. *)
Fixpoint utf8_state_after (st : utf8_state) (bs : list byte) : utf8_state :=
  match bs with
  | [] => st
  | b :: t =>
      match utf8_handler st (Byte.to_N b) with
      | Continue st' => utf8_state_after st' t
      | CodePoint _ => utf8_state_after utf8_initial t
      | DecodeError => utf8_state_after utf8_initial t
      | DecodeErrorRestore =>
          match utf8_handler utf8_initial (Byte.to_N b) with
          | Continue st' => utf8_state_after st' t
          | _ => utf8_state_after utf8_initial t
          end
      end
  end.

(** A chunk ends at a character boundary when it leaves no byte pending
    in the decoder. *)
Definition ends_at_boundary (value : list byte) : Prop :=
  utf8_state_after utf8_initial value = utf8_initial.

(** A chunk whose first character is not a byte order mark. *)
Definition no_leading_BOM (value : list byte) : Prop :=
  strip_BOM (utf8_decode utf8_initial value) = utf8_decode utf8_initial value.

(* ================================================================== *)
(** ** Vocabulary for further properties of the handler *)
(* ================================================================== *)

Definition is_incoming (e : event) : bool :=
  match e with EvIncomingChunk _ _ => true | _ => false end.

Definition is_fetch (e : event) : bool :=
  match e with EvFetch _ _ => true | _ => false end.

Definition is_clock (e : event) : bool :=
  match e with EvDateNow _ => true | _ => false end.

(** The content the chunk callback has received over a session: the
    first arguments of its calls, concatenated in order. *)
Definition delivered_content (log : list event) : jsstring :=
  flat_map (fun e => match e with EvIncomingChunk c _ => c | _ => [] end) log.

(** A line that carries a payload: its trimmed text is neither empty nor
    the terminal marker. *)
Definition payload_bearing (line : jsstring) : bool :=
  negb (jsstring_eqb (trimmedLine line) [])
  && negb (jsstring_eqb (trimmedLine line) DONE).

(** Text without a blank line: no two line feeds in a row. *)
Fixpoint no_blank_line (s : jsstring) : bool :=
  match s with
  | [] => true
  | c :: t =>
      match t with
      | [] => true
      | d :: _ => negb ((c =? LF) && (d =? LF))%N && no_blank_line t
      end
  end.

(** The code units a JSON value can start with. *)
Definition json_value_start (c : N) : bool :=
  ((c =? 123) || (c =? 91) || (c =? 34) || (c =? 116) || (c =? 102)
   || (c =? 110) || (c =? 45))%N || is_digit c.

(** A 200 response whose body yields [values] and whose reads then end
    as [ending] says. *)
Definition streaming_response_ending (values : list (list byte))
  (ending : option JSError) : Response :=
  {| status := 200; statusText := lit "OK";
     response_body := Some {| chunks := values; failure := ending |} |}.

Section RoleText.

Variable Number_toString : jsstring -> jsstring.

(** The role text the session has appended for the calls of the chunk
    callback: the string conversions of their second arguments. *)
Definition delivered_role (log : list event) : jsstring :=
  flat_map (fun e =>
              match e with
              | EvIncomingChunk _ r =>
                  match ToString Number_toString r with
                  | inr t => t
                  | inl _ => []
                  end
              | _ => []
              end) log.

End RoleText.

(** A stream whose first frame is the terminal marker, followed in a
    second chunk by a content frame. *)
Definition done_first_stream : list (list byte) :=
  [utf8_wire "data: [DONE]~~";
   utf8_wire "data: {'choices':[{'delta':{'content':'Hi'}}]}~~"].

(** ** Example data for the further properties *)

Definition hi_payload : jsstring :=
  wire "{'choices':[{'delta':{'content':'Hi'}}]}".

(** A stream with an SSE comment line between a frame and the terminal
    marker. *)
Definition comment_stream : list (list byte) :=
  [utf8_wire "data: {'choices':[{'delta':{'content':'Hi'}}]}~~"
   ++ utf8_wire ": ping~~data: [DONE]~~"].

(** The last frame of a completion: an empty delta and a finish reason. *)
Definition finish_line : jsstring :=
  wire "data: {'choices':[{'delta':{},'finish_reason':'stop'}]}".

Definition finish_chunk : JSON :=
  JObject [(lit "choices",
            JArray [JObject [(lit "delta", JObject []);
                             (lit "finish_reason", JString (lit "stop"))]])].

(** A frame whose content delta is a number. *)
Definition numeric_content_line : jsstring :=
  wire "data: {'choices':[{'delta':{'content':5}}]}".

Definition numeric_content_delta : JSON :=
  JObject [(lit "content", JNumber (lit "5"))].

Definition numeric_content_chunk : JSON :=
  JObject [(lit "choices",
            JArray [JObject [(lit "delta", numeric_content_delta)]])].

(** One complete frame, and the same followed by a frame that lacks its
    blank line. *)
Definition hi_stream : list (list byte) :=
  [utf8_wire "data: {'choices':[{'delta':{'content':'Hi'}}]}~~"].

Definition there_frame : jsstring :=
  wire "data: {'choices':[{'delta':{'content':' there'}}]}".

Definition hi_stream_with_tail : list (list byte) :=
  [utf8_wire "data: {'choices':[{'delta':{'content':'Hi'}}]}~~"
   ++ utf8_wire "data: {'choices':[{'delta':{'content':' there'}}]}"].

Definition there_stream : list (list byte) :=
  [utf8_wire "data: {'choices':[{'delta':{'content':' there'}}]}~~";
   utf8_wire "data: [DONE]~~"].

Definition aborted : JSError := Error (lit "The user aborted a request.").

(** The bytes of one frame and the terminal marker, whole and cut inside
    the field marker. *)
Definition hi_done_whole : list (list byte) :=
  [utf8_wire "data: {'choices':[{'delta':{'content':'Hi'}}]}~~data: [DONE]~~"].

Definition hi_done_cut : list (list byte) :=
  [utf8_wire "da";
   utf8_wire "ta: {'choices':[{'delta':{'content':'Hi'}}]}~~data: [DONE]~~"].

(** The frame with the accented letter, whole and cut before that
    letter. *)
Definition accent_whole : list (list byte) := [accent_first ++ accent_second].

Definition accent_cut_before_letter : list (list byte) :=
  [utf8_wire "data: {'choices':[{'delta':{'content':'";
   [xc3; xa9] ++ utf8_wire "'}}]}~~data: [DONE]~~"].

(* ================================================================== *)
(** * Properties *)
(* ================================================================== *)

Unset Implicit Arguments.

Lemma jsstring_eqb_eq (a b : jsstring) : jsstring_eqb a b = true <-> a = b.
Proof.
  revert b; induction a as [|x a IH]; intros [|y b]; simpl; split;
    try congruence; try reflexivity.
  - rewrite andb_true_iff, N.eqb_eq, IH. intros [-> ->]; reflexivity.
  - intros H; injection H as -> ->. rewrite N.eqb_refl.
    apply IH; reflexivity.
Qed.


Lemma jsstring_eqb_neq (a b : jsstring) : jsstring_eqb a b = false <-> a <> b.
Proof.
  rewrite <- jsstring_eqb_eq. destruct (jsstring_eqb a b); split; congruence.
Qed.

(** *** The three patterns *)

Lemma match_at_event_boundary (q : nat) (s : jsstring) :
  match_at re_event_boundary 1 q s =
  match s with
  | c :: d :: t =>
      if ((c =? LF) && (d =? LF))%N
      then Some (MState (S (S q)) t [Some [LF]]) else None
  | _ => None
  end.
Proof.
  unfold match_at, re_event_boundary.
  cbn [rmatch rep_loop repeat].
  destruct s as [|c [|d t]]; unfold step_unit; cbn [rest pos caps];
    try reflexivity.
  - destruct (LF =? c)%N; reflexivity.
  - rewrite (N.eqb_sym c LF), (N.eqb_sym d LF).
    destruct (LF =? c)%N eqn:Hc; cbn [andb]; [|reflexivity].
    destruct (LF =? d)%N eqn:Hd; [|reflexivity].
    apply N.eqb_eq in Hd; subst d.
    cbn [set_nth].
    replace (S (S q) - S q) with 1 by lia. reflexivity.
Qed.

Lemma event_lines_cur (s cur : jsstring) :
  event_lines s cur =
  match event_lines s [] with
  | ([], r) => ([], cur ++ r)
  | (h :: t, r) => ((cur ++ h) :: t, r)
  end.
Proof.
  revert cur. induction s as [|c t IH]; intros cur.
  - simpl. rewrite app_nil_r. reflexivity.
  - cbn [event_lines]. destruct t as [|d t'].
    + reflexivity.
    + destruct ((c =? LF) && (d =? LF))%N.
      * destruct (event_lines t' []) as [ls r]. rewrite app_nil_r. reflexivity.
      * rewrite (IH (cur ++ [c])), (IH ([] ++ [c])).
        destruct (event_lines (d :: t') []) as [[|h ls] r];
          rewrite <- ?app_assoc; reflexivity.
Qed.

Lemma split_loop_cons (r : regex) (ncaps q : nat) (c : N) (t cur : jsstring) :
  split_loop r ncaps q (c :: t) 0 cur =
  match match_at r ncaps q (c :: t) with
  | None => split_loop r ncaps (S q) t 0 (cur ++ [c])
  | Some st =>
      if Nat.eqb (pos st) q then
        match cur with
        | [] => split_loop r ncaps (S q) t 0 [c]
        | _ => Some cur :: caps st ++ split_loop r ncaps (S q) t 0 [c]
        end
      else
        Some cur :: caps st ++ split_loop r ncaps (S q) t (pos st - q - 1) []
  end.
Proof. reflexivity. Qed.

Lemma event_lines_cons2 (c d : N) (t cur : jsstring) :
  event_lines (c :: d :: t) cur =
  if ((c =? LF) && (d =? LF))%N then
    let (ls, r) := event_lines t [] in (cur :: [LF] :: ls, r)
  else event_lines (d :: t) (cur ++ [c]).
Proof. reflexivity. Qed.

Lemma split_loop_event_boundary (s : jsstring) :
  forall q cur,
    split_loop re_event_boundary 1 q s 0 cur =
    map Some (fst (event_lines s cur)) ++ [Some (snd (event_lines s cur))].
Proof.
  remember (List.length s) as n eqn:Hn.
  revert s Hn. induction n as [n IH] using lt_wf_ind. intros s Hn q cur.
  destruct s as [|c [|d t]].
  - reflexivity.
  - rewrite split_loop_cons, match_at_event_boundary. reflexivity.
  - rewrite split_loop_cons, match_at_event_boundary, event_lines_cons2.
    destruct ((c =? LF) && (d =? LF))%N eqn:Hcd.
    + cbn [pos caps]. replace (Nat.eqb (S (S q)) q) with false
        by (symmetry; apply Nat.eqb_neq; lia).
      replace (S (S q) - q - 1) with 1 by lia.
      cbn [split_loop].
      rewrite (IH (List.length t)) by (simpl in Hn; lia || reflexivity).
      destruct (event_lines t []) as [ls r]. reflexivity.
    + apply (IH (List.length (d :: t))); simpl in *; lia.
Qed.

Lemma String_split_event_boundary (s : jsstring) :
  String_split re_event_boundary 1 s =
  map Some (fst (event_lines s [])) ++ [Some (snd (event_lines s []))].
Proof.
  destruct s as [|c t].
  - reflexivity.
  - unfold String_split. apply split_loop_event_boundary.
Qed.

(** Text without a boundary is all remainder. *)
Lemma event_lines_no_boundary (s : jsstring) :
  forall cur r, event_lines s cur = ([], r) -> r = cur ++ s.
Proof.
  remember (List.length s) as n eqn:Hn.
  revert s Hn. induction n as [n IH] using lt_wf_ind. intros s Hn cur r H.
  destruct s as [|c [|d t]].
  - simpl in H. injection H as <-. rewrite app_nil_r. reflexivity.
  - simpl in H. injection H as <-. reflexivity.
  - rewrite event_lines_cons2 in H.
    destruct ((c =? LF) && (d =? LF))%N.
    + destruct (event_lines t []); discriminate.
    + apply (IH (List.length (d :: t))) in H; [|simpl in *; lia|reflexivity].
      rewrite H, <- app_assoc. reflexivity.
Qed.

(** Splitting after more text has arrived: the complete entries found
    before stay, and the scan resumes on the remainder. *)
Lemma event_lines_app (s c : jsstring) :
  event_lines (s ++ c) [] =
  let (ls, r) := event_lines s [] in
  let (ls', r') := event_lines (r ++ c) [] in
  (ls ++ ls', r').
Proof.
  remember (List.length s) as n eqn:Hn.
  revert s Hn. induction n as [n IH] using lt_wf_ind. intros s Hn.
  destruct s as [|x [|y t]].
  - cbn [app event_lines]. destruct (event_lines c []); reflexivity.
  - change (event_lines [x] []) with (@nil jsstring, [x]).
    cbn [app]. destruct (event_lines (x :: c) []); reflexivity.
  - change ((x :: y :: t) ++ c) with (x :: y :: (t ++ c)).
    rewrite !event_lines_cons2.
    destruct ((x =? LF) && (y =? LF))%N eqn:Hxy.
    + rewrite (IH (List.length t)) by (simpl in Hn; lia || reflexivity).
      destruct (event_lines t []) as [ls r].
      destruct (event_lines (r ++ c) []) as [ls' r']. reflexivity.
    + rewrite (event_lines_cur (y :: t ++ c)), (event_lines_cur (y :: t)).
      change (y :: t ++ c) with ((y :: t) ++ c).
      rewrite (IH (List.length (y :: t))) by (simpl in *; lia || reflexivity).
      destruct (event_lines (y :: t) []) as [[|h ls] r] eqn:Hyt.
      * (* no boundary so far: the remainder is the whole text *)
        apply event_lines_no_boundary in Hyt. cbn [app] in Hyt. subst r.
        change (([] ++ [x]) ++ y :: t) with (x :: y :: t).
        change ((x :: y :: t) ++ c) with (x :: y :: (t ++ c)).
        rewrite event_lines_cons2, Hxy.
        change (y :: t ++ c) with ((y :: t) ++ c).
        rewrite (event_lines_cur ((y :: t) ++ c) ([] ++ [x])).
        destruct (event_lines ((y :: t) ++ c) []) as [[|h' ls'] r'];
          reflexivity.
      * destruct (event_lines (r ++ c) []) as [ls' r']. reflexivity.
Qed.

Lemma drop_ws_length (s : jsstring) : List.length (drop_ws s) <= List.length s.
Proof.
  induction s as [|c t IH]; simpl; [lia|].
  destruct (isWhiteSpace c); simpl; lia.
Qed.

(** A trailing [\s*] takes all the white space there is. *)
Lemma star_white_space (n : nat) :
  forall st, List.length (rest st) < n ->
    exists st',
      star_loop (step_unit isWhiteSpace) (fun x => Some x) n st = Some st'
      /\ rest st' = drop_ws (rest st).
Proof.
  induction n as [|n IH]; intros [p r c] Hlen; [simpl in Hlen; lia|].
  cbn [star_loop]. unfold step_unit at 1. cbn [rest pos caps] in *.
  destruct r as [|x t].
  - eexists; split; reflexivity.
  - cbn [drop_ws]. destruct (isWhiteSpace x).
    + replace (Nat.ltb p (S p)) with true
        by (symmetry; apply Nat.ltb_lt; lia).
      destruct (IH (MState (S p) t c)) as [st' [H1 H2]];
        [simpl in *; lia|].
      rewrite H1. exists st'. split; [reflexivity|exact H2].
    + eexists; split; reflexivity.
Qed.

Lemma rmatch_RLit (p : jsstring) (r : regex) (k : mstate -> option mstate) :
  forall st,
    rmatch (RLit p r) k st =
    match strip_prefix p (rest st) with
    | Some t => rmatch r k (MState (pos st + List.length p) t (caps st))
    | None => None
    end.
Proof.
  induction p as [|c p IH]; intros [q s cs]; cbn [RLit strip_prefix rest pos caps].
  - rewrite Nat.add_0_r. reflexivity.
  - cbn [rmatch]. unfold step_unit. cbn [rest pos caps].
    destruct s as [|y s']; [reflexivity|].
    destruct (c =? y)%N; [|reflexivity].
    rewrite IH. cbn [rest pos caps].
    replace (S q + List.length p) with (q + List.length (c :: p))
      by (simpl; lia).
    reflexivity.
Qed.

Lemma match_at_data_field (q : nat) (s : jsstring) :
  match_at re_data_field 1 q s =
  if Nat.eqb q 0 then
    match strip_prefix (lit "data:") s with
    | Some t =>
        star_loop (step_unit isWhiteSpace) (fun x => Some x)
          (S (List.length t)) (MState (q + 5) t [None])
    | None => None
    end
  else None.
Proof.
  unfold match_at, re_data_field.
  cbn [rmatch repeat]. unfold step_unit at 1. cbn [rest pos caps].
  assert (H1 : or_else
                 match s with
                 | [] => None
                 | x :: t =>
                     if (LF =? x)%N
                     then
                       if Nat.ltb q (S q)
                       then
                         if Nat.eqb (S q) 0
                         then rmatch (RLit (lit "data:") (RStar (RClass isWhiteSpace)))
                                (fun st => Some st)
                                (MState (S q) t
                                   (set_nth 0 (Some (firstn (S q - q) (x :: t))) [None]))
                         else None
                       else None
                     else None
                 end
                 (if Nat.eqb q 0
                  then rmatch (RLit (lit "data:") (RStar (RClass isWhiteSpace)))
                         (fun st => Some st) (MState q s [None])
                  else None)
               = if Nat.eqb q 0
                 then rmatch (RLit (lit "data:") (RStar (RClass isWhiteSpace)))
                         (fun st => Some st) (MState q s [None])
                 else None).
  { destruct s as [|x t]; [reflexivity|].
    destruct (LF =? x)%N; [|reflexivity].
    destruct (Nat.ltb q (S q)); reflexivity. }
  etransitivity; [exact H1|].
  destruct (Nat.eqb q 0); [|reflexivity].
  rewrite rmatch_RLit. cbn [rest pos caps].
  destruct (strip_prefix (lit "data:") s); reflexivity.
Qed.

Lemma exec_from_data_field_later (s : jsstring) :
  forall q, 0 < q -> exec_from re_data_field 1 q s = None.
Proof.
  induction s as [|c t IH]; intros q Hq; cbn [exec_from];
    rewrite match_at_data_field;
    replace (Nat.eqb q 0) with false by (symmetry; apply Nat.eqb_neq; lia).
  - reflexivity.
  - apply IH. lia.
Qed.

(** [line.replace(/(\n)?^data:\s*/, '')] removes a [data:] marker that
    opens the line, with the white space after it, and nothing else. *)
Lemma String_replace_data_field (s : jsstring) :
  String_replace re_data_field 1 s [] =
  match strip_prefix (lit "data:") s with
  | Some t => drop_ws t
  | None => s
  end.
Proof.
  unfold String_replace.
  destruct s as [|c t]; cbn [exec_from]; rewrite match_at_data_field;
    cbn [Nat.eqb].
  - reflexivity.
  - destruct (strip_prefix (lit "data:") (c :: t)) as [u|] eqn:Hp.
    + destruct (star_white_space (S (List.length u))
                  (MState (0 + 5) u [None])) as [st' [H1 H2]];
        [simpl; lia|].
      rewrite H1. cbn [firstn app]. exact H2.
    + rewrite exec_from_data_field_later by lia. reflexivity.
Qed.

Lemma match_at_backtick (q : nat) (s : jsstring) :
  match_at re_backtick 0 q s =
  if Nat.eqb q 0 then
    match s with
    | c :: t =>
        if (96 =? c)%N then
          star_loop (step_unit isWhiteSpace) (fun x => Some x)
            (S (List.length t)) (MState (S q) t [])
        else None
    | [] => None
    end
  else None.
Proof.
  unfold match_at, re_backtick. cbn [rmatch repeat pos].
  destruct (Nat.eqb q 0); [|reflexivity].
  unfold step_unit at 1. cbn [rest pos caps].
  destruct s as [|c t]; [reflexivity|].
  destruct (96 =? c)%N; reflexivity.
Qed.

Lemma exec_from_backtick_later (s : jsstring) :
  forall q, 0 < q -> exec_from re_backtick 0 q s = None.
Proof.
  induction s as [|c t IH]; intros q Hq; cbn [exec_from];
    rewrite match_at_backtick;
    replace (Nat.eqb q 0) with false by (symmetry; apply Nat.eqb_neq; lia).
  - reflexivity.
  - apply IH. lia.
Qed.

(** [s.replace(/^`\s*/, '`')] removes the white space that follows a
    backtick opening the string. *)
Lemma String_replace_backtick (s : jsstring) :
  String_replace re_backtick 0 s (lit "`") =
  match s with
  | c :: t => if (96 =? c)%N then 96%N :: drop_ws t else s
  | [] => []
  end.
Proof.
  unfold String_replace.
  destruct s as [|c t]; cbn [exec_from]; rewrite match_at_backtick;
    cbn [Nat.eqb].
  - reflexivity.
  - destruct (96 =? c)%N eqn:Hc.
    + destruct (star_white_space (S (List.length t))
                  (MState 1 t [])) as [st' [H1 H2]]; [simpl; lia|].
      rewrite H1. cbn [firstn app]. rewrite H2. reflexivity.
    + rewrite exec_from_backtick_later by lia. reflexivity.
Qed.

(** The entries of [lines] the [for] loop visits when the whole decoded
    text of a session is split at once. *)
Lemma stream_lines_are_the_split (values : list (list byte)) :
  String_split re_event_boundary 1 (decoded_text values) =
  map Some (stream_lines values)
  ++ [Some (snd (event_lines (decoded_text values) []))].
Proof. apply String_split_event_boundary. Qed.

(** *** The loop over [lines] *)

Section DecoderProperties.

Variable Number_toString : jsstring -> jsstring.

Lemma process_lines_app (l1 l2 : list (option jsstring)) :
  forall acc,
    process_lines Number_toString (l1 ++ l2) acc =
    match process_lines Number_toString l1 acc with
    | (evs, inl e) => (evs, inl e)
    | (evs, inr acc') =>
        let (evs', r) := process_lines Number_toString l2 acc' in
        (evs ++ evs', r)
    end.
Proof.
  induction l1 as [|line l1 IH]; intros acc.
  - cbn [app process_lines]. destruct (process_lines Number_toString l2 acc).
    reflexivity.
  - cbn [app process_lines].
    destruct (process_line Number_toString line acc) as [evs [e|acc']].
    + reflexivity.
    + rewrite IH.
      destruct (process_lines Number_toString l1 acc') as [evs1 [e|acc'']].
      * reflexivity.
      * destruct (process_lines Number_toString l2 acc'') as [evs2 r].
        rewrite app_assoc. reflexivity.
Qed.

Lemma process_line_callbacks (line : option jsstring) (acc : jsstring * jsstring) :
  callbacks (fst (process_line Number_toString line acc)) =
  fst (process_line Number_toString line acc).
Proof.
  unfold process_line. destruct line as [l|]; [|reflexivity].
  destruct (negb (jsstring_eqb (trimmedLine l) [])
            && negb (jsstring_eqb (trimmedLine l) DONE)); [|reflexivity].
  destruct (JSON_parse (trimmedLine l)) as [chunk|]; [|reflexivity].
  destruct (contentChunk_of chunk); [reflexivity|].
  destruct (roleChunk_of chunk) as [|rc]; [reflexivity|].
  destruct (ToString Number_toString rc); reflexivity.
Qed.

Lemma callbacks_app (a b : list event) :
  callbacks (a ++ b) = callbacks a ++ callbacks b.
Proof. apply filter_app. Qed.

Lemma process_lines_callbacks (lines : list (option jsstring)) :
  forall acc,
    callbacks (fst (process_lines Number_toString lines acc)) =
    fst (process_lines Number_toString lines acc).
Proof.
  induction lines as [|line more IH]; intros acc; [reflexivity|].
  cbn [process_lines].
  pose proof (process_line_callbacks line acc) as H.
  destruct (process_line Number_toString line acc) as [evs [e|acc']];
    cbn [fst] in *; [exact H|].
  specialize (IH acc').
  destruct (process_lines Number_toString more acc') as [evs' r].
  cbn [fst] in *. rewrite callbacks_app, H, IH. reflexivity.
Qed.

(** *** The read loop *)

Lemma lines_before_last (ls : list jsstring) (r : jsstring) :
  firstn (List.length (map Some ls ++ [Some r]) - 1) (map Some ls ++ [Some r])
  = map Some ls.
Proof.
  rewrite length_app. cbn [List.length].
  replace (List.length (map Some ls) + 1 - 1) with
    (List.length (map Some ls) + 0) by lia.
  rewrite firstn_app_2. cbn [firstn]. apply app_nil_r.
Qed.

Lemma last_line_lines (ls : list jsstring) (r : jsstring) :
  last_line (map Some ls ++ [Some r]) = Some r.
Proof.
  unfold last_line. rewrite length_app. cbn [List.length].
  replace (List.length (map Some ls) + 1 - 1) with
    (List.length (map Some ls)) by lia.
  rewrite nth_error_app2 by lia. rewrite Nat.sub_diag. reflexivity.
Qed.

(** The remainder kept in [decodedData] holds no boundary. *)
Lemma event_lines_remainder (s : jsstring) :
  event_lines (snd (event_lines s [])) [] = ([], snd (event_lines s [])).
Proof.
  remember (List.length s) as n eqn:Hn.
  revert s Hn. induction n as [n IH] using lt_wf_ind. intros s Hn.
  destruct s as [|c [|d t]].
  - reflexivity.
  - reflexivity.
  - destruct ((c =? LF) && (d =? LF))%N eqn:Hcd.
    + rewrite event_lines_cons2, Hcd.
      assert (Ht : event_lines (snd (event_lines t [])) [] =
                   ([], snd (event_lines t []))).
      { apply (IH (List.length t)); [simpl in Hn; lia|reflexivity]. }
      destruct (event_lines t []) as [ls r]. exact Ht.
    + destruct (event_lines (d :: t) []) as [[|h ls] r] eqn:Hdt.
      * assert (Hs : event_lines (c :: d :: t) [] = ([], c :: d :: t)).
        { rewrite event_lines_cons2, Hcd, event_lines_cur, Hdt.
          apply event_lines_no_boundary in Hdt. subst r. reflexivity. }
        rewrite Hs. cbn [snd]. exact Hs.
      * assert (Ht : event_lines (snd (event_lines (d :: t) [])) [] =
                     ([], snd (event_lines (d :: t) []))).
        { apply (IH (List.length (d :: t))); [simpl in *; lia|reflexivity]. }
        assert (Hs : snd (event_lines (c :: d :: t) []) = r).
        { rewrite event_lines_cons2, Hcd, (event_lines_cur (d :: t)), Hdt.
          reflexivity. }
        rewrite Hs. rewrite Hdt in Ht. exact Ht.
Qed.

Lemma callbacks_read (v : option (list byte)) (evs : list event) :
  callbacks (EvRead v :: evs) = callbacks evs.
Proof. reflexivity. Qed.

(** One pass of the read loop over the source amounts to one pass of the
    [for] loop over the complete entries of the whole decoded text. *)
Lemma read_loop_lines (values : list (list byte)) (failure : option JSError) :
  forall c r buf,
    event_lines buf [] = ([], buf) ->
    let all := event_lines (buf ++ decoded_text values) [] in
    let whole := process_lines Number_toString (map Some (fst all)) (c, r) in
    let run := read_loop Number_toString values failure (Locals c r (Some buf)) in
    callbacks (fst run) = fst whole /\
    snd run =
    match snd whole with
    | inl e => inl e
    | inr (c', r') =>
        match failure with
        | Some e => inl e
        | None => inr (Locals c' r' (Some (snd all)))
        end
    end.
Proof.
  induction values as [|value more IH]; intros c r buf Hbuf; cbv zeta.
  - unfold decoded_text. cbn [map concat]. rewrite app_nil_r, Hbuf.
    cbn [fst snd map process_lines read_loop].
    destruct failure; split; reflexivity.
  - unfold decoded_text. cbn [map concat]. fold (decoded_text more).
    rewrite app_assoc, event_lines_app.
    cbn [read_loop append_chunk decodedData content role].
    rewrite String_split_event_boundary, lines_before_last, last_line_lines.
    pose proof (event_lines_remainder (buf ++ TextDecoder_decode value)) as Hrem.
    destruct (event_lines (buf ++ TextDecoder_decode value) []) as [ls1 r1].
    cbn [fst snd] in *.
    pose proof (process_lines_callbacks (map Some ls1) (c, r)) as Hcb.
    destruct (event_lines (r1 ++ decoded_text more) []) as [ls2 r2] eqn:H2.
    cbn [fst snd]. rewrite map_app, process_lines_app.
    destruct (process_lines Number_toString (map Some ls1) (c, r))
      as [evs1 [e|[c1 rl1]]]; cbn [fst snd] in *.
    + split; [rewrite callbacks_read; exact Hcb|reflexivity].
    + specialize (IH c1 rl1 r1 Hrem). cbv zeta in IH. rewrite H2 in IH.
      cbn [fst snd] in IH.
      destruct (read_loop Number_toString more failure
                  (Locals c1 rl1 (Some r1))) as [evs' res'].
      destruct (process_lines Number_toString (map Some ls2) (c1, rl1))
        as [evs2 res2].
      cbn [fst snd] in *. destruct IH as [IH1 IH2].
      split.
      * rewrite callbacks_read, callbacks_app, Hcb, IH1. reflexivity.
      * exact IH2.
Qed.

(** *** A whole session *)

(** Once the response is accepted, the callbacks and the outcome of a
    session are those of one pass of the [for] loop over the complete
    entries of the decoded stream. *)
Lemma handler_streaming (w : World) (opts : FetchRequestOptions)
  (response : Response) (stream : ReadableStream) :
  fetch w CHAT_COMPLETIONS_URL opts = inr response ->
  ok response = true ->
  response_body response = Some stream ->
  let whole := process_lines Number_toString
                 (map Some (stream_lines (chunks stream))) ([], []) in
  let run := openAiStreamingDataHandler Number_toString w opts in
  callbacks (fst run) =
    fst whole ++
    match snd run with
    | Returned _ => [EvCloseStream (Date_now w)]
    | Threw _ => []
    end
  /\ snd run =
     match snd whole with
     | inl e => Threw e
     | inr (c, r) =>
         match failure stream with
         | Some e => Threw e
         | None => Returned (ChatMessage c r)
         end
     end.
Proof.
  intros Hfetch Hok Hbody whole run.
  pose (rl := read_loop Number_toString (chunks stream) (failure stream)
                (Locals [] [] (Some []))).
  assert (H : callbacks (fst rl) = fst whole /\
              snd rl =
              match snd whole with
              | inl e => inl e
              | inr (c', r') =>
                  match failure stream with
                  | Some e => inl e
                  | None =>
                      inr (Locals c' r'
                             (Some (snd (event_lines
                                           ([] ++ decoded_text (chunks stream))
                                           []))))
                  end
              end).
  { exact (@read_loop_lines (chunks stream) (failure stream) [] [] []
             eq_refl). }
  assert (Hrun : run =
                 match rl with
                 | (evs, inl e) =>
                     ([EvDateNow (Date_now w);
                       EvFetch CHAT_COMPLETIONS_URL opts] ++ evs, Threw e)
                 | (evs, inr st) =>
                     ([EvDateNow (Date_now w);
                       EvFetch CHAT_COMPLETIONS_URL opts]
                        ++ evs ++ [EvCloseStream (Date_now w)],
                      Returned (ChatMessage (content st) (role st)))
                 end).
  { subst run rl. unfold openAiStreamingDataHandler.
    rewrite Hfetch, Hok, Hbody. reflexivity. }
  rewrite Hrun. clear Hrun run. clearbody whole rl.
  destruct rl as [evs res]. destruct whole as [evs0 res0].
  cbn [fst snd] in *. destruct H as [H1 H2]. subst res.
  destruct res0 as [e|[c r]].
  - cbn [fst snd]. split; [|reflexivity].
    change (callbacks ([EvDateNow (Date_now w);
                        EvFetch CHAT_COMPLETIONS_URL opts] ++ evs))
      with (callbacks evs).
    rewrite H1, app_nil_r. reflexivity.
  - destruct (failure stream) as [e|]; cbn [fst snd]; (split; [|reflexivity]).
    + change (callbacks ([EvDateNow (Date_now w);
                          EvFetch CHAT_COMPLETIONS_URL opts] ++ evs))
        with (callbacks evs).
      rewrite H1, app_nil_r. reflexivity.
    + change (callbacks ([EvDateNow (Date_now w);
                          EvFetch CHAT_COMPLETIONS_URL opts]
                         ++ evs ++ [EvCloseStream (Date_now w)]))
        with (callbacks (evs ++ [EvCloseStream (Date_now w)])).
      rewrite callbacks_app, H1. reflexivity.
Qed.

(** *** Reads and the close callback *)

Lemma process_line_no_close (line : option jsstring) (acc : jsstring * jsstring) :
  filter is_close (fst (process_line Number_toString line acc)) = [].
Proof.
  unfold process_line. destruct line as [l|]; [|reflexivity].
  destruct (negb (jsstring_eqb (trimmedLine l) [])
            && negb (jsstring_eqb (trimmedLine l) DONE)); [|reflexivity].
  destruct (JSON_parse (trimmedLine l)) as [chunk|]; [|reflexivity].
  destruct (contentChunk_of chunk); [reflexivity|].
  destruct (roleChunk_of chunk) as [|rc]; [reflexivity|].
  destruct (ToString Number_toString rc); reflexivity.
Qed.

Lemma process_lines_no_close (lines : list (option jsstring)) :
  forall acc, filter is_close (fst (process_lines Number_toString lines acc)) = [].
Proof.
  induction lines as [|line more IH]; intros acc; [reflexivity|].
  cbn [process_lines].
  pose proof (process_line_no_close line acc) as H.
  destruct (process_line Number_toString line acc) as [evs [e|acc']];
    cbn [fst] in *; [exact H|].
  specialize (IH acc').
  destruct (process_lines Number_toString more acc') as [evs' r].
  cbn [fst] in *. rewrite filter_app, H, IH. reflexivity.
Qed.

(** The read loop never calls the close callback, and it ends normally
    only on the read that reports the source exhausted. *)
Lemma read_loop_events (values : list (list byte)) (failure : option JSError) :
  forall st,
    filter is_close (fst (read_loop Number_toString values failure st)) = []
    /\ forall st',
         snd (read_loop Number_toString values failure st) = inr st' ->
         failure = None /\
         exists evs,
           fst (read_loop Number_toString values failure st)
           = evs ++ [EvRead None]
           /\ filter is_read (fst (read_loop Number_toString values failure st))
              = map (fun v => EvRead (Some v)) values ++ [EvRead None].
Proof.
  induction values as [|value more IH]; intros st.
  - cbn [read_loop]. destruct failure as [e|]; cbn [fst snd].
    + split; [reflexivity|]. intros st' H; discriminate.
    + split; [reflexivity|]. intros st' _. split; [reflexivity|].
      exists []. split; reflexivity.
  - cbn [read_loop].
    pose proof (process_lines_no_close
                  (firstn (List.length (String_split re_event_boundary 1
                      (append_chunk (decodedData st) (TextDecoder_decode value))) - 1)
                     (String_split re_event_boundary 1
                      (append_chunk (decodedData st) (TextDecoder_decode value))))
                  (content st, role st)) as Hnc.
    pose proof (process_lines_callbacks
                  (firstn (List.length (String_split re_event_boundary 1
                      (append_chunk (decodedData st) (TextDecoder_decode value))) - 1)
                     (String_split re_event_boundary 1
                      (append_chunk (decodedData st) (TextDecoder_decode value))))
                  (content st, role st)) as Hcb.
    destruct (process_lines Number_toString _ (content st, role st))
      as [evs [e|[c r]]]; cbn [fst snd] in *.
    + split; [exact Hnc|]. intros st' H; discriminate.
    + specialize (IH (Locals c r (last_line (String_split re_event_boundary 1
                      (append_chunk (decodedData st) (TextDecoder_decode value)))))).
      destruct (read_loop Number_toString more failure _) as [evs' res'].
      cbn [fst snd] in *. destruct IH as [IH1 IH2]. split.
      * cbn [filter is_close]. rewrite filter_app, Hnc, IH1. reflexivity.
      * intros st' Hres. destruct (IH2 st' Hres) as [Hf [pre [Hpre Hreads]]].
        split; [exact Hf|].
        exists (EvRead (Some value) :: evs ++ pre). split.
        -- rewrite Hpre. cbn [app]. rewrite app_assoc. reflexivity.
        -- cbn [filter is_read map app]. rewrite filter_app, Hreads.
           assert (Hnr : filter is_read evs = []).
           { clear - Hcb. unfold callbacks in Hcb.
             induction evs as [|x evs IHe]; [reflexivity|].
             cbn [filter] in Hcb. destruct (is_callback x) eqn:Hx.
             - injection Hcb as Hcb. cbn [filter].
               destruct x; try discriminate; cbn [is_read]; apply IHe, Hcb.
             - exfalso.
               assert (Hl : List.length (filter is_callback evs)
                            <= List.length evs) by apply filter_length_le.
               rewrite Hcb in Hl. simpl in Hl. lia. }
           rewrite Hnr. reflexivity.
Qed.

(** A session that throws has not called the close callback. *)
Lemma handler_throw_no_close (w : World) (opts : FetchRequestOptions)
  (e : JSError) :
  snd (openAiStreamingDataHandler Number_toString w opts) = Threw e ->
  filter is_close (fst (openAiStreamingDataHandler Number_toString w opts))
  = [].
Proof.
  unfold openAiStreamingDataHandler.
  destruct (fetch w CHAT_COMPLETIONS_URL opts) as [e0|response];
    [reflexivity|].
  destruct (ok response); cbn [negb]; [|reflexivity].
  destruct (response_body response) as [stream|]; [|reflexivity].
  destruct (read_loop_events (chunks stream) (failure stream)
              (Locals [] [] (Some []))) as [Hnc _].
  destruct (read_loop Number_toString (chunks stream) (failure stream)
              (Locals [] [] (Some []))) as [evs [e1|st]]; cbn [fst snd] in *.
  - intros _. cbn [app filter is_close]. exact Hnc.
  - intros H; discriminate H.
Qed.

(** C5. A session returns exactly when the request resolves with an
    accepted response that has a body, every complete line of the stream
    is processed without throwing, and the reads end by reporting the
    source exhausted; every other session throws. In a session that
    returns the close callback is called exactly once: it is the last
    effect, it directly follows the read that reported the source
    exhausted, which itself follows the reads of all the chunks, and its
    argument is the value [Date.now()] gave as the first effect of the
    session, directly before the request was issued. In a session that
    throws the close callback is never called. *)
Theorem C5_close_once_after_exhaustion (w : World) (opts : FetchRequestOptions) :
  let run := openAiStreamingDataHandler Number_toString w opts in
  (exists effects,
     fst run = EvDateNow (Date_now w) :: EvFetch CHAT_COMPLETIONS_URL opts
               :: effects
     /\ match snd run with
        | Returned _ =>
            exists evs,
              effects = evs ++ [EvRead None; EvCloseStream (Date_now w)]
              /\ filter is_close evs = []
              /\ List.length (filter is_close (fst run)) = 1
        | Threw _ => filter is_close (fst run) = []
        end)
  /\ (forall response stream c r,
        fetch w CHAT_COMPLETIONS_URL opts = inr response ->
        ok response = true ->
        response_body response = Some stream ->
        failure stream = None ->
        snd (process_lines Number_toString
               (map Some (stream_lines (chunks stream))) ([], []))
        = inr (c, r) ->
        snd run = Returned (ChatMessage c r)
        /\ filter is_close (fst run) = [EvCloseStream (Date_now w)]
        /\ filter is_read (fst run)
           = map (fun v => EvRead (Some v)) (chunks stream) ++ [EvRead None])
  /\ (forall m,
        snd run = Returned m ->
        exists response stream,
          fetch w CHAT_COMPLETIONS_URL opts = inr response
          /\ ok response = true
          /\ response_body response = Some stream
          /\ failure stream = None
          /\ snd (process_lines Number_toString
                    (map Some (stream_lines (chunks stream))) ([], []))
             = inr (message_content m, message_role m)).
Proof.
  cbv zeta. split; [|split].
  - unfold openAiStreamingDataHandler.
    destruct (fetch w CHAT_COMPLETIONS_URL opts) as [e|response].
    { exists []. split; reflexivity. }
    destruct (ok response); cbn [negb].
    2: { exists []. split; reflexivity. }
    destruct (response_body response) as [stream|].
    2: { exists []. split; reflexivity. }
    destruct (read_loop_events (chunks stream) (failure stream)
                (Locals [] [] (Some []))) as [Hnc Hend].
    destruct (read_loop Number_toString (chunks stream) (failure stream)
                (Locals [] [] (Some []))) as [evs [e|st]]; cbn [fst snd] in *.
    + exists evs. split; [reflexivity|]. cbn [app filter is_close]. exact Hnc.
    + destruct (Hend st eq_refl) as [_ [pre [Hpre _]]]. subst evs.
      exists ((pre ++ [EvRead None]) ++ [EvCloseStream (Date_now w)]).
      split; [reflexivity|].
      rewrite filter_app in Hnc. apply app_eq_nil in Hnc.
      destruct Hnc as [Hp _].
      exists pre. split; [rewrite <- app_assoc; reflexivity|].
      split; [exact Hp|].
      cbn [app filter is_close]. rewrite !filter_app, Hp. reflexivity.
  - intros response stream c r Hfetch Hok Hbody Hfail Hwhole.
    destruct (handler_streaming w opts response stream Hfetch Hok Hbody)
      as [_ H2].
    rewrite Hwhole, Hfail in H2.
    split; [exact H2|]. revert H2. clear Hwhole.
    unfold openAiStreamingDataHandler. rewrite Hfetch, Hok, Hbody.
    cbn [negb].
    destruct (read_loop_events (chunks stream) (failure stream)
                (Locals [] [] (Some []))) as [Hnc Hend].
    destruct (read_loop Number_toString (chunks stream) (failure stream)
                (Locals [] [] (Some []))) as [evs [e|st]]; cbn [fst snd] in *.
    + intros H; discriminate H.
    + intros _. destruct (Hend st eq_refl) as [_ [pre [_ Hreads]]].
      split.
      * cbn [app filter is_close]. rewrite filter_app, Hnc. reflexivity.
      * cbn [app filter is_read]. rewrite filter_app, Hreads.
        cbn [filter is_read]. rewrite app_nil_r. reflexivity.
  - intros m Hret.
    assert (Hacc : exists response stream,
               fetch w CHAT_COMPLETIONS_URL opts = inr response
               /\ ok response = true
               /\ response_body response = Some stream).
    { revert Hret. unfold openAiStreamingDataHandler.
      destruct (fetch w CHAT_COMPLETIONS_URL opts) as [e|response];
        [intros H; discriminate H|].
      destruct (ok response) eqn:Hok; cbn [negb]; [|intros H; discriminate H].
      destruct (response_body response) as [stream|] eqn:Hbody;
        [|intros H; discriminate H].
      intros _. exists response, stream.
      split; [reflexivity|split; [exact Hok|exact Hbody]]. }
    destruct Hacc as [response [stream [Hfetch [Hok Hbody]]]].
    destruct (handler_streaming w opts response stream Hfetch Hok Hbody)
      as [_ H2].
    rewrite Hret in H2.
    exists response, stream.
    split; [exact Hfetch|]. split; [exact Hok|]. split; [exact Hbody|].
    destruct (snd (process_lines Number_toString
                     (map Some (stream_lines (chunks stream))) ([], [])))
      as [e|[c r]]; [discriminate H2|].
    destruct (failure stream) as [e|]; [discriminate H2|].
    injection H2 as ->. split; reflexivity.
Qed.

(** C6. A response whose status lies outside 200..299 makes the handler
    throw an error whose message carries the status code and the status
    text, and a response in that range without a body makes it throw the
    "no body" error; in both cases the only effects are reading the clock
    and issuing the request, so no read of the body ever happens. *)
Theorem C6_rejected_response_is_never_read (w : World)
  (opts : FetchRequestOptions) (response : Response) :
  fetch w CHAT_COMPLETIONS_URL opts = inr response ->
  ((status response < 200 \/ 299 < status response)%N ->
   openAiStreamingDataHandler Number_toString w opts =
   ([EvDateNow (Date_now w); EvFetch CHAT_COMPLETIONS_URL opts],
    Threw (Error (lit "Network response was not ok: "
                    ++ integer_ToString (status response)
                    ++ lit " - " ++ statusText response))))
  /\ ((200 <= status response <= 299)%N ->
      response_body response = None ->
      openAiStreamingDataHandler Number_toString w opts =
      ([EvDateNow (Date_now w); EvFetch CHAT_COMPLETIONS_URL opts],
       Threw (Error (lit "No body included in POST response object")))).
Proof.
  intros Hfetch. unfold openAiStreamingDataHandler. rewrite Hfetch. split.
  - intros Hstatus.
    assert (Hok : ok response = false).
    { unfold ok. apply andb_false_iff.
      destruct Hstatus as [H|H]; [left|right]; apply N.leb_gt; exact H. }
    rewrite Hok. reflexivity.
  - intros [Hlo Hhi] Hbody.
    assert (Hok : ok response = true).
    { unfold ok. apply andb_true_iff. split; apply N.leb_le; assumption. }
    rewrite Hok, Hbody. reflexivity.
Qed.

(** A session returns only after every chunk has been read and the
    source has reported exhaustion. *)
Lemma handler_reads_to_exhaustion (w : World) (opts : FetchRequestOptions)
  (response : Response) (stream : ReadableStream) (m : OpenAIChatMessage) :
  fetch w CHAT_COMPLETIONS_URL opts = inr response ->
  response_body response = Some stream ->
  snd (openAiStreamingDataHandler Number_toString w opts) = Returned m ->
  failure stream = None /\
  filter is_read (fst (openAiStreamingDataHandler Number_toString w opts))
  = map (fun v => EvRead (Some v)) (chunks stream) ++ [EvRead None].
Proof.
  intros Hfetch Hbody. unfold openAiStreamingDataHandler.
  rewrite Hfetch, Hbody.
  destruct (ok response); cbn [negb]; [|intros H; discriminate].
  destruct (read_loop_events (chunks stream) (failure stream)
              (Locals [] [] (Some []))) as [_ Hend].
  destruct (read_loop Number_toString (chunks stream) (failure stream)
              (Locals [] [] (Some []))) as [evs [e|st]]; cbn [fst snd] in *.
  - intros H; discriminate.
  - intros _. destruct (Hend st eq_refl) as [Hf [_ [_ Hreads]]].
    split; [exact Hf|].
    cbn [app filter is_read]. rewrite filter_app, Hreads.
    cbn [filter is_read]. rewrite app_nil_r. reflexivity.
Qed.

(** *** Lines that are skipped and lines that fail *)

Lemma process_line_skipped (line : jsstring) (acc : jsstring * jsstring) :
  trimmedLine line = [] \/ trimmedLine line = DONE ->
  process_line Number_toString (Some line) acc = ([], inr acc).
Proof.
  intros H. unfold process_line.
  destruct H as [-> | ->]; reflexivity.
Qed.

Lemma process_lines_skipped (line : jsstring) (pre post : list (option jsstring)) :
  trimmedLine line = [] \/ trimmedLine line = DONE ->
  forall acc,
    process_lines Number_toString (pre ++ Some line :: post) acc =
    process_lines Number_toString (pre ++ post) acc.
Proof.
  intros H acc. rewrite !process_lines_app.
  destruct (process_lines Number_toString pre acc) as [evs [e|acc']];
    [reflexivity|].
  cbn [process_lines]. rewrite (@process_line_skipped line acc' H).
  destruct (process_lines Number_toString post acc') as [evs' r].
  reflexivity.
Qed.

Lemma process_lines_failing_line (line : option jsstring) (err : JSError)
  (pre post : list (option jsstring)) :
  (forall acc, process_line Number_toString line acc = ([], inl err)) ->
  forall acc,
    process_lines Number_toString (pre ++ line :: post) acc =
    match process_lines Number_toString pre acc with
    | (evs, inl e) => (evs, inl e)
    | (evs, inr _) => (evs, inl err)
    end.
Proof.
  intros H acc. rewrite process_lines_app.
  destruct (process_lines Number_toString pre acc) as [evs [e|acc']];
    [reflexivity|].
  cbn [process_lines]. rewrite H, app_nil_r. reflexivity.
Qed.

(** A complete line whose processing throws ends the session there: the
    callbacks are those of the lines before it, and the handler throws. *)
Lemma session_fails_at (w : World) (opts : FetchRequestOptions)
  (response : Response) (stream : ReadableStream)
  (pre post : list jsstring) (line : jsstring) (err : JSError) :
  fetch w CHAT_COMPLETIONS_URL opts = inr response ->
  ok response = true ->
  response_body response = Some stream ->
  stream_lines (chunks stream) = pre ++ line :: post ->
  (forall acc, process_line Number_toString (Some line) acc = ([], inl err)) ->
  let before := process_lines Number_toString (map Some pre) ([], []) in
  let run := openAiStreamingDataHandler Number_toString w opts in
  snd run = Threw (match snd before with inl e => e | inr _ => err end)
  /\ callbacks (fst run) = fst before
  /\ filter is_close (fst run) = [].
Proof.
  intros Hfetch Hok Hbody Hlines Hline before run.
  destruct (handler_streaming w opts response stream Hfetch Hok Hbody)
    as [H1 H2].
  fold run in H1, H2.
  rewrite Hlines, map_app in H1, H2. cbn [map] in H1, H2.
  rewrite (process_lines_failing_line (Some line) err (map Some pre)
             (map Some post) Hline) in H1, H2.
  fold before in H1, H2.
  assert (Hsnd : snd run =
                 Threw (match snd before with inl e => e | inr _ => err end)).
  { rewrite H2. destruct before as [evs [e|a]]; reflexivity. }
  split; [exact Hsnd|].
  rewrite Hsnd in H1.
  assert (Hcb : callbacks (fst run) = fst before).
  { rewrite H1, app_nil_r. destruct before as [evs [e|a]]; reflexivity. }
  split; [exact Hcb|].
  exact (handler_throw_no_close w opts _ Hsnd).
Qed.

Lemma process_line_malformed (line : jsstring) :
  trimmedLine line <> [] -> trimmedLine line <> DONE ->
  JSON_parse (trimmedLine line) = None ->
  forall acc, process_line Number_toString (Some line) acc = ([], inl SyntaxError).
Proof.
  intros H1 H2 Hp acc. unfold process_line.
  apply jsstring_eqb_neq in H1, H2. rewrite H1, H2, Hp. reflexivity.
Qed.

Lemma Get_throws_TypeError (v : option JSON) (p : prop) (e : JSError) :
  Get v p = inl e -> e = TypeError.
Proof.
  destruct v as [[| | |s|l|m]|]; cbn [Get]; try congruence.
  - destruct p, s; congruence.
  - destruct p, l; congruence.
Qed.

Lemma chunk_delta_throws_TypeError (chunk : JSON) (e : JSError) :
  chunk_delta chunk = inl e -> e = TypeError.
Proof.
  unfold chunk_delta.
  destruct (Get (Some chunk) P_choices) as [e1|choices] eqn:H1.
  - intros H; injection H as <-. exact (@Get_throws_TypeError _ _ _ H1).
  - destruct (Get choices P_0) as [e2|first] eqn:H2.
    + intros H; injection H as <-. exact (@Get_throws_TypeError _ _ _ H2).
    + apply Get_throws_TypeError.
Qed.

Lemma contentChunk_without_delta (chunk : JSON) :
  exposes_delta chunk = false -> contentChunk_of chunk = inl TypeError.
Proof.
  unfold exposes_delta, contentChunk_of.
  destruct (chunk_delta chunk) as [e|[d|]] eqn:Hd.
  - intros _. rewrite (@chunk_delta_throws_TypeError chunk e Hd). reflexivity.
  - destruct d; try discriminate. reflexivity.
  - reflexivity.
Qed.

Lemma process_line_without_delta (line : jsstring) (chunk : JSON) :
  trimmedLine line <> [] -> trimmedLine line <> DONE ->
  JSON_parse (trimmedLine line) = Some chunk ->
  exposes_delta chunk = false ->
  forall acc, process_line Number_toString (Some line) acc = ([], inl TypeError).
Proof.
  intros H1 H2 Hp Hd acc. unfold process_line.
  apply jsstring_eqb_neq in H1, H2.
  rewrite H1, H2, Hp, (@contentChunk_without_delta chunk Hd). reflexivity.
Qed.

(** C3. When a complete line of the stream carries a payload that
    [JSON.parse] rejects, the handler throws: the [SyntaxError] of that
    line, unless an earlier line already threw. The callbacks of the
    session are exactly those of the lines before the failing one, so no
    chunk callback follows it, the close callback is never called, and no
    message is returned. *)
Theorem C3_malformed_payload_fails_session (w : World)
  (opts : FetchRequestOptions) (response : Response) (stream : ReadableStream)
  (pre post : list jsstring) (line : jsstring) :
  fetch w CHAT_COMPLETIONS_URL opts = inr response ->
  ok response = true ->
  response_body response = Some stream ->
  stream_lines (chunks stream) = pre ++ line :: post ->
  trimmedLine line <> [] ->
  trimmedLine line <> DONE ->
  JSON_parse (trimmedLine line) = None ->
  let before := process_lines Number_toString (map Some pre) ([], []) in
  let run := openAiStreamingDataHandler Number_toString w opts in
  snd run = Threw (match snd before with inl e => e | inr _ => SyntaxError end)
  /\ callbacks (fst run) = fst before
  /\ filter is_close (fst run) = [].
Proof.
  intros Hfetch Hok Hbody Hlines H1 H2 Hp.
  apply (@session_fails_at w opts response stream pre post line SyntaxError
           Hfetch Hok Hbody Hlines).
  apply process_line_malformed; assumption.
Qed.

(** C9. When the payload of a complete line parses but
    [chunk.choices[0].delta] throws or yields [undefined] or [null], the
    read of the content delta throws a [TypeError] and no chunk callback
    is made for the line; the handler throws (that [TypeError], unless an
    earlier line already threw), the close callback is never called and
    no message is returned. *)
Theorem C9_payload_without_delta_fails_session (w : World)
  (opts : FetchRequestOptions) (response : Response) (stream : ReadableStream)
  (pre post : list jsstring) (line : jsstring) (chunk : JSON) :
  fetch w CHAT_COMPLETIONS_URL opts = inr response ->
  ok response = true ->
  response_body response = Some stream ->
  stream_lines (chunks stream) = pre ++ line :: post ->
  trimmedLine line <> [] ->
  trimmedLine line <> DONE ->
  JSON_parse (trimmedLine line) = Some chunk ->
  exposes_delta chunk = false ->
  let before := process_lines Number_toString (map Some pre) ([], []) in
  let run := openAiStreamingDataHandler Number_toString w opts in
  (forall acc,
     process_line Number_toString (Some line) acc = ([], inl TypeError))
  /\ snd run = Threw (match snd before with inl e => e | inr _ => TypeError end)
  /\ callbacks (fst run) = fst before
  /\ filter is_close (fst run) = [].
Proof.
  intros Hfetch Hok Hbody Hlines H1 H2 Hp Hd before run.
  assert (Hline : forall acc,
             process_line Number_toString (Some line) acc = ([], inl TypeError)).
  { apply process_line_without_delta with (chunk := chunk); assumption. }
  split; [exact Hline|].
  exact (@session_fails_at w opts response stream pre post line TypeError
           Hfetch Hok Hbody Hlines Hline).
Qed.

(** C4. A line whose trimmed payload is the terminal marker causes no
    callback and leaves the accumulated message as it was, and it does
    not end the session: a session whose stream holds such a line among
    its complete lines makes the callbacks of the other lines, those
    after the marker included, and ends as they and the source decide,
    exactly as if the line were absent. When none of the other lines
    throws and the reads end by reporting the source exhausted, the
    session reads every chunk of the source and then the exhaustion, and
    returns. *)
Theorem C4_terminal_marker_is_skipped (line : jsstring) :
  trimmedLine line = DONE ->
  (forall acc, process_line Number_toString (Some line) acc = ([], inr acc))
  /\ (forall pre post acc,
        process_lines Number_toString (pre ++ Some line :: post) acc =
        process_lines Number_toString (pre ++ post) acc)
  /\ (forall w opts response stream pre post,
        fetch w CHAT_COMPLETIONS_URL opts = inr response ->
        ok response = true ->
        response_body response = Some stream ->
        stream_lines (chunks stream) = pre ++ line :: post ->
        let others := process_lines Number_toString
                        (map Some (pre ++ post)) ([], []) in
        let run := openAiStreamingDataHandler Number_toString w opts in
        callbacks (fst run) =
          fst others ++
          match snd run with
          | Returned _ => [EvCloseStream (Date_now w)]
          | Threw _ => []
          end
        /\ snd run =
           match snd others with
           | inl e => Threw e
           | inr (c, r) =>
               match failure stream with
               | Some e => Threw e
               | None => Returned (ChatMessage c r)
               end
           end
        /\ (forall c r,
              snd others = inr (c, r) ->
              failure stream = None ->
              snd run = Returned (ChatMessage c r)
              /\ filter is_read (fst run)
                 = map (fun v => EvRead (Some v)) (chunks stream)
                   ++ [EvRead None]
              /\ filter is_close (fst run) = [EvCloseStream (Date_now w)])).
Proof.
  intros Hdone. split; [|split].
  - intros acc. apply process_line_skipped. right; exact Hdone.
  - intros pre post acc. apply process_lines_skipped. right; exact Hdone.
  - intros w opts response stream pre post Hfetch Hok Hbody Hlines others run.
    destruct (handler_streaming w opts response stream Hfetch Hok Hbody)
      as [H1 H2].
    fold run in H1, H2. rewrite Hlines, map_app in H1, H2.
    cbn [map] in H1, H2.
    rewrite (process_lines_skipped line (map Some pre) (map Some post)
               (or_intror Hdone)) in H1, H2.
    rewrite <- map_app in H1, H2. fold others in H1, H2.
    split; [exact H1|]. split; [exact H2|].
    intros c r Ho Hf. rewrite Ho, Hf in H2.
    split; [exact H2|].
    split.
    + exact (proj2 (handler_reads_to_exhaustion w opts response stream
                      (ChatMessage c r) Hfetch Hbody H2)).
    + assert (Hc : filter is_close (callbacks (fst run))
                   = [EvCloseStream (Date_now w)]).
      { rewrite H1, H2, filter_app.
        pose proof (process_lines_no_close (map Some (pre ++ post)) ([], []))
          as Hn.
        fold others in Hn. rewrite Hn. reflexivity. }
      rewrite <- Hc. generalize (fst run). intros log.
      induction log as [|e t IH]; [reflexivity|].
      destruct e; cbn [callbacks filter is_callback is_close];
        fold (callbacks t); rewrite ?IH; reflexivity.
Qed.

Lemma String_replace_backtick_collapse (c : jsstring) :
  String_replace re_backtick 0 c (lit "`") = collapse_after_backtick c.
Proof.
  rewrite String_replace_backtick. unfold collapse_after_backtick.
  destruct c as [|b [|x t]].
  - reflexivity.
  - destruct (96 =? b)%N eqn:Hb; [|reflexivity].
    apply N.eqb_eq in Hb; subst b. reflexivity.
  - rewrite (N.eqb_sym b 96). destruct (96 =? b)%N eqn:Hb; [|reflexivity].
    apply N.eqb_eq in Hb; subst b. cbn [drop_ws andb].
    destruct (isWhiteSpace x); reflexivity.
Qed.

(** C8. For a line whose payload parses and exposes its delta, with a
    content delta [c] that is a string (or absent, read as the empty
    string) and a role delta [r], the chunk callback receives the content
    delta with the white space after an opening backtick dropped, and the
    role delta itself; the same content text is appended to the content
    so far, and the text of the role delta to the role so far, which for
    a string is the string itself. A content delta that does not start
    with a backtick followed by white space is passed on unchanged. *)
Theorem C8_only_the_backtick_transform (line : jsstring) (chunk : JSON)
  (delta cv rv : option JSON) (c rtext : jsstring) (acc : jsstring * jsstring) :
  trimmedLine line <> [] ->
  trimmedLine line <> DONE ->
  JSON_parse (trimmedLine line) = Some chunk ->
  chunk_delta chunk = inr delta ->
  Get delta P_content = inr cv ->
  nullish_or cv [] = JString c ->
  Get delta P_role = inr rv ->
  ToString Number_toString (nullish_or rv []) = inr rtext ->
  process_line Number_toString (Some line) acc =
    ([EvIncomingChunk (collapse_after_backtick c) (nullish_or rv [])],
     inr (fst acc ++ collapse_after_backtick c, snd acc ++ rtext))
  /\ (forall r, nullish_or rv [] = JString r -> rtext = r)
  /\ ((forall w t, c = 96%N :: w :: t -> isWhiteSpace w = false) ->
      collapse_after_backtick c = c).
Proof.
  intros H1 H2 Hp Hd Hc Hcs Hr Hts. split; [|split].
  - unfold process_line. apply jsstring_eqb_neq in H1, H2.
    rewrite H1, H2, Hp. cbn [negb andb].
    unfold contentChunk_of, roleChunk_of.
    rewrite Hd, Hc, Hcs, Hr, Hts, String_replace_backtick_collapse.
    reflexivity.
  - intros r Hrs. rewrite Hrs in Hts. cbn [ToString] in Hts. congruence.
  - intros Hnb. unfold collapse_after_backtick.
    destruct c as [|b [|x t]]; try reflexivity.
    destruct (b =? 96)%N eqn:Hb; [|reflexivity].
    apply N.eqb_eq in Hb; subst b.
    rewrite (Hnb x t eq_refl). reflexivity.
Qed.

(** *** A line feed before the field marker *)

Lemma String_replace_data_field_after_LF (s : jsstring) :
  String_replace re_data_field 1 (LF :: s) [] = LF :: s.
Proof. rewrite String_replace_data_field. reflexivity. Qed.

Lemma drop_ws_app_unit (x : jsstring) (d : N) :
  isWhiteSpace d = false -> drop_ws (x ++ [d]) = drop_ws x ++ [d].
Proof.
  intros Hd. induction x as [|c x IH]; cbn [app drop_ws].
  - rewrite Hd. reflexivity.
  - destruct (isWhiteSpace c); [exact IH|reflexivity].
Qed.

Lemma rtrim_cons (d : N) (u : jsstring) :
  isWhiteSpace d = false ->
  rev (drop_ws (rev (d :: u))) = d :: rev (drop_ws (rev u)).
Proof.
  intros Hd. cbn [rev].
  rewrite (drop_ws_app_unit _ _ Hd), rev_app_distr. reflexivity.
Qed.

(** No JSON text starts with the letter d. *)
Lemma JSON_parse_d (t : jsstring) : JSON_parse (100%N :: t) = None.
Proof.
  unfold JSON_parse, json_fuel.
  replace (2 * List.length (100%N :: t) + 3)
    with (S (2 * List.length (100%N :: t) + 2)) by lia.
  reflexivity.
Qed.

Lemma trimmedLine_after_LF (payload : jsstring) :
  trimmedLine (LF :: lit "data:" ++ payload) =
  lit "data:" ++ rev (drop_ws (rev payload)).
Proof.
  unfold trimmedLine. rewrite String_replace_data_field_after_LF.
  unfold String_trim. cbn [drop_ws]. change (isWhiteSpace LF) with true.
  cbv iota.
  change (drop_ws (lit "data:" ++ payload)) with (lit "data:" ++ payload).
  change (lit "data:" ++ payload)
    with (100%N :: 97%N :: 116%N :: 97%N :: 58%N :: payload).
  rewrite !rtrim_cons by reflexivity. reflexivity.
Qed.

(** C7 (the code departs from it). A complete line made of a line feed,
    the [data:] marker and any payload is not stripped of its marker: the
    pattern [/(\n)?^data:\s*/] has no [m] flag, so [^] holds at index 0
    only and the optional line feed can never be consumed before it. The
    trimmed line still starts with [data:], [JSON.parse] rejects it, and
    the line throws a [SyntaxError] instead of delivering its payload. *)
Theorem C7_marker_after_line_feed_is_kept (payload : jsstring)
  (acc : jsstring * jsstring) :
  String_replace re_data_field 1 (LF :: lit "data:" ++ payload) []
  = LF :: lit "data:" ++ payload
  /\ trimmedLine (LF :: lit "data:" ++ payload)
     = lit "data:" ++ rev (drop_ws (rev payload))
  /\ process_line Number_toString (Some (LF :: lit "data:" ++ payload)) acc
     = ([], inl SyntaxError).
Proof.
  split; [apply String_replace_data_field_after_LF|].
  split; [apply trimmedLine_after_LF|].
  unfold process_line. rewrite trimmedLine_after_LF.
  change (lit "data:" ++ rev (drop_ws (rev payload)))
    with (100%N :: (lit "ata:" ++ rev (drop_ws (rev payload)))).
  rewrite JSON_parse_d. reflexivity.
Qed.

(** *** Chunk boundaries *)

(** C1 (the code departs from it). The bytes of the two chunks
    [accent_first] and [accent_second] concatenate to the wire text of
    one well-formed frame, which delivers the single letter U+00E9 as its
    content delta, followed by the terminal marker. Fed as these two
    chunks, the handler decodes each chunk with a decoder of its own, so
    each half of the letter becomes U+FFFD: the one chunk callback
    receives two replacement characters and the returned content is those
    two characters, not the content delta of the frame. *)
Theorem C1_content_delta_cut_between_chunks :
  TextDecoder_decode (accent_first ++ accent_second)
  = frames_text [accent_frame; wire "data: [DONE]"]
  /\ frame_delivers accent_frame [233%N] []
  /\ trimmedLine (wire "data: [DONE]") = DONE
  /\ callbacks
       (fst (openAiStreamingDataHandler Number_toString
               (world_of example_now
                  (streaming_response [accent_first; accent_second]))
               example_opts))
     = [EvIncomingChunk [65533%N; 65533%N] (JString []);
        EvCloseStream example_now]
  /\ snd (openAiStreamingDataHandler Number_toString
            (world_of example_now
               (streaming_response [accent_first; accent_second]))
            example_opts)
     = Returned (ChatMessage [65533%N; 65533%N] []).
Proof.
  split; [vm_compute; reflexivity|].
  split.
  { split; [reflexivity|].
    split; [vm_compute; discriminate|].
    split; [vm_compute; discriminate|].
    eexists. split; [vm_compute; reflexivity|].
    split; vm_compute; reflexivity. }
  vm_compute. repeat split; reflexivity.
Qed.

(** C2 (the code departs from it). The same bytes give different
    callbacks and a different message when they arrive as one chunk and
    when they arrive as two chunks cut inside the three bytes of a euro
    sign: one chunk yields the content U+20AC, two chunks yield three
    replacement characters. *)
Theorem C2_cut_inside_a_character_changes_the_result :
  let one := openAiStreamingDataHandler Number_toString
               (world_of example_now
                  (streaming_response [euro_first ++ euro_second]))
               example_opts in
  let two := openAiStreamingDataHandler Number_toString
               (world_of example_now
                  (streaming_response [euro_first; euro_second]))
               example_opts in
  callbacks (fst one)
  = [EvIncomingChunk [8364%N] (JString []); EvCloseStream example_now]
  /\ snd one = Returned (ChatMessage [8364%N] [])
  /\ callbacks (fst two)
     = [EvIncomingChunk [65533%N; 65533%N; 65533%N] (JString []);
        EvCloseStream example_now]
  /\ snd two = Returned (ChatMessage [65533%N; 65533%N; 65533%N] [])
  /\ callbacks (fst one) <> callbacks (fst two)
  /\ snd one <> snd two.
Proof.
  vm_compute. repeat split; try reflexivity; intros H; discriminate H.
Qed.

(** What does hold: the session depends on the chunks only through the
    concatenation of their decoded texts. *)
Theorem chunking_is_immaterial_for_equal_decoded_text
  (w1 w2 : World) (opts1 opts2 : FetchRequestOptions)
  (response1 response2 : Response) (stream1 stream2 : ReadableStream) :
  Date_now w1 = Date_now w2 ->
  fetch w1 CHAT_COMPLETIONS_URL opts1 = inr response1 ->
  fetch w2 CHAT_COMPLETIONS_URL opts2 = inr response2 ->
  ok response1 = true -> ok response2 = true ->
  response_body response1 = Some stream1 ->
  response_body response2 = Some stream2 ->
  failure stream1 = failure stream2 ->
  decoded_text (chunks stream1) = decoded_text (chunks stream2) ->
  callbacks (fst (openAiStreamingDataHandler Number_toString w1 opts1))
  = callbacks (fst (openAiStreamingDataHandler Number_toString w2 opts2))
  /\ snd (openAiStreamingDataHandler Number_toString w1 opts1)
     = snd (openAiStreamingDataHandler Number_toString w2 opts2).
Proof.
  intros Hnow Hf1 Hf2 Hok1 Hok2 Hb1 Hb2 Hfail Htext.
  destruct (handler_streaming w1 opts1 response1 stream1 Hf1 Hok1 Hb1)
    as [A1 A2].
  destruct (handler_streaming w2 opts2 response2 stream2 Hf2 Hok2 Hb2)
    as [B1 B2].
  unfold stream_lines in *. rewrite Htext, Hfail in *.
  assert (Hs : snd (openAiStreamingDataHandler Number_toString w1 opts1)
               = snd (openAiStreamingDataHandler Number_toString w2 opts2))
    by (rewrite A2, B2; reflexivity).
  split; [|exact Hs].
  rewrite A1, B1, Hs, Hnow. reflexivity.
Qed.

(** For ASCII bytes the decoder is the identity on code units, so the
    decoded text of a stream is that of the concatenated bytes and any
    two ways of cutting the same ASCII bytes give the same session. *)
Lemma utf8_decode_ascii (bs : list byte) :
  forallb is_ascii bs = true ->
  utf8_decode utf8_initial bs = map Byte.to_N bs.
Proof.
  induction bs as [|b t IH]; [reflexivity|].
  cbn [forallb]. rewrite andb_true_iff. intros [Hb Ht].
  cbn [utf8_decode map]. unfold utf8_handler. cbn [bytes_needed utf8_initial].
  cbn [N.eqb]. unfold in_range at 1. unfold is_ascii in Hb.
  apply N.ltb_lt in Hb.
  replace (0 <=? Byte.to_N b)%N with true by (symmetry; apply N.leb_le; lia).
  replace (Byte.to_N b <=? 127)%N with true by (symmetry; apply N.leb_le; lia).
  cbn [andb]. rewrite (IH Ht). reflexivity.
Qed.

Lemma TextDecoder_decode_ascii (bs : list byte) :
  forallb is_ascii bs = true ->
  TextDecoder_decode bs = map Byte.to_N bs.
Proof.
  intros H. unfold TextDecoder_decode. rewrite (utf8_decode_ascii bs H).
  assert (Hstrip : strip_BOM (map Byte.to_N bs) = map Byte.to_N bs).
  { destruct bs as [|b t]; [reflexivity|].
    cbn [map strip_BOM]. cbn [forallb] in H. apply andb_true_iff in H.
    destruct H as [Hb _]. unfold is_ascii in Hb. apply N.ltb_lt in Hb.
    replace (Byte.to_N b =? 65279)%N with false
      by (symmetry; apply N.eqb_neq; lia).
    reflexivity. }
  rewrite Hstrip. clear Hstrip.
  induction bs as [|b t IH]; [reflexivity|].
  cbn [forallb] in H. apply andb_true_iff in H. destruct H as [Hb Ht].
  cbn [map flat_map]. rewrite (IH Ht).
  unfold utf16_units. unfold is_ascii in Hb. apply N.ltb_lt in Hb.
  replace (Byte.to_N b <? 65536)%N with true
    by (symmetry; apply N.ltb_lt; lia).
  reflexivity.
Qed.

Lemma decoded_text_ascii (values : list (list byte)) :
  forallb is_ascii (concat values) = true ->
  decoded_text values = map Byte.to_N (concat values).
Proof.
  unfold decoded_text. induction values as [|v more IH]; [reflexivity|].
  cbn [concat map]. rewrite forallb_app, andb_true_iff. intros [Hv Hm].
  rewrite (TextDecoder_decode_ascii v Hv), (IH Hm), map_app. reflexivity.
Qed.

(** X17. Pure ASCII streams can be cut anywhere: two ways of cutting
    the same ASCII bytes into chunks, inside the field marker, the JSON
    text or the blank line included, give the same callbacks and the same
    outcome. *)
Theorem chunking_is_immaterial_for_ascii
  (now : Z) (opts : FetchRequestOptions) (values1 values2 : list (list byte)) :
  concat values1 = concat values2 ->
  forallb is_ascii (concat values1) = true ->
  callbacks (fst (openAiStreamingDataHandler Number_toString
                    (world_of now (streaming_response values1)) opts))
  = callbacks (fst (openAiStreamingDataHandler Number_toString
                      (world_of now (streaming_response values2)) opts))
  /\ snd (openAiStreamingDataHandler Number_toString
            (world_of now (streaming_response values1)) opts)
     = snd (openAiStreamingDataHandler Number_toString
              (world_of now (streaming_response values2)) opts).
Proof.
  intros Hcat Hascii.
  apply (chunking_is_immaterial_for_equal_decoded_text
           (world_of now (streaming_response values1))
           (world_of now (streaming_response values2)) opts opts
           (streaming_response values1) (streaming_response values2)
           {| chunks := values1; failure := None |}
           {| chunks := values2; failure := None |});
    try reflexivity.
  cbn [chunks]. rewrite (decoded_text_ascii values1 Hascii).
  rewrite Hcat in Hascii. rewrite (decoded_text_ascii values2 Hascii), Hcat.
  reflexivity.
Qed.

(** *** Well-formed frames *)

Lemma event_lines_frame (seg : jsstring) :
  forall rest cur,
    no_boundary_within seg = true ->
    event_lines (seg ++ LF :: LF :: rest) cur =
    let (ls, r) := event_lines rest [] in ((cur ++ seg) :: [LF] :: ls, r).
Proof.
  induction seg as [|c t IH]; intros rest cur Hseg.
  - cbn [app]. rewrite event_lines_cons2. rewrite N.eqb_refl. cbn [andb].
    rewrite app_nil_r. reflexivity.
  - destruct t as [|d t'].
    + cbn [no_boundary_within] in Hseg. apply negb_true_iff in Hseg.
      change ([c] ++ LF :: LF :: rest) with (c :: LF :: LF :: rest).
      rewrite event_lines_cons2, Hseg. cbn [andb].
      rewrite event_lines_cons2, N.eqb_refl. cbn [andb]. reflexivity.
    + change (no_boundary_within (c :: d :: t')) with
        (negb ((c =? LF) && (d =? LF))%N && no_boundary_within (d :: t'))
        in Hseg.
      apply andb_true_iff in Hseg. destruct Hseg as [Hcd Ht].
      apply negb_true_iff in Hcd.
      change ((c :: d :: t') ++ LF :: LF :: rest)
        with (c :: d :: (t' ++ LF :: LF :: rest)).
      rewrite event_lines_cons2, Hcd.
      change (d :: t' ++ LF :: LF :: rest)
        with ((d :: t') ++ LF :: LF :: rest).
      rewrite (IH rest (cur ++ [c]) Ht).
      destruct (event_lines rest []) as [ls r].
      rewrite <- app_assoc. reflexivity.
Qed.

Lemma event_lines_frames (segs : list jsstring) (rest : jsstring) :
  forallb no_boundary_within segs = true ->
  event_lines (frames_text segs ++ rest) [] =
  let (ls, r) := event_lines rest [] in
  (flat_map (fun seg => [seg; [LF]]) segs ++ ls, r).
Proof.
  induction segs as [|seg more IH]; intros Hsegs.
  - cbn [frames_text map concat app flat_map].
    destruct (event_lines rest []); reflexivity.
  - cbn [forallb] in Hsegs. apply andb_true_iff in Hsegs.
    destruct Hsegs as [Hseg Hmore].
    unfold frames_text. cbn [map concat flat_map]. fold (frames_text more).
    rewrite <- !app_assoc. cbn [app].
    rewrite (event_lines_frame seg _ [] Hseg), (IH Hmore).
    destruct (event_lines rest []) as [ls r]. reflexivity.
Qed.

Lemma process_frame (seg c r : jsstring) (acc : jsstring * jsstring) :
  frame_delivers seg c r ->
  process_line Number_toString (Some seg) acc =
  ([EvIncomingChunk c (JString r)], inr (fst acc ++ c, snd acc ++ r)).
Proof.
  intros [_ [H1 [H2 [chunk [Hp [Hc Hr]]]]]].
  unfold process_line. apply jsstring_eqb_neq in H1, H2.
  rewrite H1, H2, Hp, Hc, Hr. reflexivity.
Qed.

Lemma process_frames (frames : list (jsstring * (jsstring * jsstring)))
  (tail : list (option jsstring)) :
  Forall (fun f => frame_delivers (fst f) (fst (snd f)) (snd (snd f))) frames ->
  forall acc,
    process_lines Number_toString
      (map Some (flat_map (fun seg => [seg; [LF]]) (map fst frames)) ++ tail)
      acc =
    let (evs, res) :=
      process_lines Number_toString tail
        (fst acc ++ concat (map (fun f => fst (snd f)) frames),
         snd acc ++ concat (map (fun f => snd (snd f)) frames)) in
    (map frame_event frames ++ evs, res).
Proof.
  induction 1 as [|f more Hf Hmore IH]; intros acc.
  - cbn [map flat_map concat app]. rewrite !app_nil_r.
    destruct acc as [a b]. cbn [fst snd].
    match goal with
    | |- context [process_lines ?f ?l ?x] => destruct (process_lines f l x)
    end.
    reflexivity.
  - cbn [map flat_map concat app process_lines].
    rewrite (process_frame _ _ _ acc Hf).
    rewrite (process_line_skipped [LF] _ (or_introl eq_refl)).
    rewrite IH. cbn [fst snd]. rewrite <- !app_assoc.
    match goal with
    | |- context [process_lines ?f ?l ?x] => destruct (process_lines f l x)
    end.
    reflexivity.
Qed.

(** What does hold of C1: when the decoded text of the chunks is the wire
    text of K well-formed frames followed by the terminal marker, the
    chunk callback is called once per frame, in order, then the close
    callback, and the returned message concatenates the content deltas
    and the role deltas in that order. *)
Theorem wellformed_frames_are_delivered (now : Z) (opts : FetchRequestOptions)
  (values : list (list byte))
  (frames : list (jsstring * (jsstring * jsstring))) (done : jsstring) :
  Forall (fun f => frame_delivers (fst f) (fst (snd f)) (snd (snd f))) frames ->
  no_boundary_within done = true ->
  trimmedLine done = DONE ->
  decoded_text values = frames_text (map fst frames ++ [done]) ->
  let run := openAiStreamingDataHandler Number_toString
               (world_of now (streaming_response values)) opts in
  callbacks (fst run) = map frame_event frames ++ [EvCloseStream now]
  /\ snd run =
     Returned (ChatMessage (concat (map (fun f => fst (snd f)) frames))
                           (concat (map (fun f => snd (snd f)) frames))).
Proof.
  intros Hframes Hdone Hmarker Htext run.
  destruct (handler_streaming
              (world_of now (streaming_response values)) opts
              (streaming_response values)
              {| chunks := values; failure := None |}
              eq_refl eq_refl eq_refl) as [H1 H2].
  fold run in H1, H2. cbn [chunks failure] in H1, H2.
  assert (Hlines : stream_lines values =
                   flat_map (fun seg => [seg; [LF]]) (map fst frames)
                   ++ [done; [LF]]).
  { unfold stream_lines. rewrite Htext.
    unfold frames_text. rewrite map_app, concat_app.
    fold (frames_text (map fst frames)). fold (frames_text [done]).
    rewrite event_lines_frames.
    - change (frames_text [done]) with ((done ++ [LF; LF]) ++ []).
      rewrite <- app_assoc. cbn [app].
      rewrite (event_lines_frame done [] [] Hdone). reflexivity.
    - clear - Hframes. induction Hframes as [|f more Hf _ IH]; [reflexivity|].
      cbn [map forallb]. rewrite IH. destruct Hf as [Hf _]. rewrite Hf.
      reflexivity. }
  rewrite Hlines, map_app, (process_frames frames _ Hframes) in H1, H2.
  cbn [map process_lines fst snd app] in H1, H2.
  rewrite (process_line_skipped done _ (or_intror Hmarker)) in H1, H2.
  rewrite (process_line_skipped [LF] _ (or_introl eq_refl)) in H1, H2.
  cbn [fst snd app] in H1, H2. rewrite app_nil_r in H1.
  split; [|exact H2]. rewrite H1, H2. reflexivity.
Qed.

(** *** Chunks cut at character boundaries *)

Lemma utf8_decode_app (a : list byte) :
  forall st b,
    utf8_state_after st a = utf8_initial ->
    utf8_decode st (a ++ b) = utf8_decode st a ++ utf8_decode utf8_initial b.
Proof.
  induction a as [|x t IH]; intros st b Hst.
  - cbn [utf8_state_after] in Hst. subst st. reflexivity.
  - cbn [app utf8_decode utf8_state_after] in *.
    destruct (utf8_handler st (Byte.to_N x)) as [st'|cp| |].
    + apply IH, Hst.
    + cbn [app]. f_equal. apply IH, Hst.
    + cbn [app]. f_equal. apply IH, Hst.
    + cbn [app]. f_equal.
      destruct (utf8_handler utf8_initial (Byte.to_N x)) as [st'|cp| |];
        cbn [app]; try f_equal; apply IH, Hst.
Qed.

Lemma strip_BOM_app (x y : list N) :
  strip_BOM x = x -> strip_BOM y = y -> strip_BOM (x ++ y) = x ++ y.
Proof.
  destruct x as [|cp t]; [intros _ H; exact H|].
  cbn [app strip_BOM]. destruct (cp =? 65279)%N; [|reflexivity].
  intros H _. exfalso.
  apply (f_equal (@List.length N)) in H. cbn [List.length] in H. lia.
Qed.

Lemma decoded_code_points (values : list (list byte)) :
  Forall ends_at_boundary values ->
  Forall no_leading_BOM values ->
  utf8_decode utf8_initial (concat values)
  = concat (map (utf8_decode utf8_initial) values)
  /\ strip_BOM (concat (map (utf8_decode utf8_initial) values))
     = concat (map (utf8_decode utf8_initial) values).
Proof.
  induction values as [|v more IH]; intros He Hb; [split; reflexivity|].
  inversion He as [|? ? Hv Hmore]; subst.
  inversion Hb as [|? ? Bv Bmore]; subst.
  destruct (IH Hmore Bmore) as [IH1 IH2].
  cbn [concat map]. split.
  - rewrite (utf8_decode_app v utf8_initial _ Hv), IH1. reflexivity.
  - apply strip_BOM_app; assumption.
Qed.

(** When every chunk ends at a character boundary and none starts with a
    byte order mark, decoding chunk by chunk gives the text of the whole
    byte sequence. *)
Lemma decoded_text_at_boundaries (values : list (list byte)) :
  Forall ends_at_boundary values ->
  Forall no_leading_BOM values ->
  decoded_text values = TextDecoder_decode (concat values).
Proof.
  intros He Hb. unfold TextDecoder_decode.
  destruct (decoded_code_points values He Hb) as [H1 H2].
  rewrite H1, H2. clear H1 H2 He.
  unfold decoded_text.
  induction Hb as [|v more Bv _ IH]; [reflexivity|].
  cbn [map concat]. rewrite flat_map_app, IH.
  unfold TextDecoder_decode. rewrite Bv. reflexivity.
Qed.

(** X18 (C2 as far as the code goes). Two ways of cutting the same
    bytes at character boundaries give the same callbacks and the same
    outcome. *)
Theorem chunking_is_immaterial_at_character_boundaries
  (now : Z) (opts : FetchRequestOptions) (values1 values2 : list (list byte)) :
  concat values1 = concat values2 ->
  Forall ends_at_boundary values1 -> Forall no_leading_BOM values1 ->
  Forall ends_at_boundary values2 -> Forall no_leading_BOM values2 ->
  callbacks (fst (openAiStreamingDataHandler Number_toString
                    (world_of now (streaming_response values1)) opts))
  = callbacks (fst (openAiStreamingDataHandler Number_toString
                      (world_of now (streaming_response values2)) opts))
  /\ snd (openAiStreamingDataHandler Number_toString
            (world_of now (streaming_response values1)) opts)
     = snd (openAiStreamingDataHandler Number_toString
              (world_of now (streaming_response values2)) opts).
Proof.
  intros Hcat He1 Hb1 He2 Hb2.
  apply (chunking_is_immaterial_for_equal_decoded_text
           (world_of now (streaming_response values1))
           (world_of now (streaming_response values2)) opts opts
           (streaming_response values1) (streaming_response values2)
           {| chunks := values1; failure := None |}
           {| chunks := values2; failure := None |});
    try reflexivity.
  cbn [chunks].
  rewrite (decoded_text_at_boundaries values1 He1 Hb1).
  rewrite (decoded_text_at_boundaries values2 He2 Hb2), Hcat.
  reflexivity.
Qed.

(** X19 (C1 as far as the code goes). When the bytes of the chunks
    decode to the wire text of K well-formed frames followed by the
    terminal marker, every chunk ends at a character boundary and no
    chunk starts with a byte order mark, the frames are delivered in
    order and the message assembles their deltas. Both conditions on the
    chunks are needed: each chunk is decoded on its own, and a decoder
    drops a byte order mark at the start of what it is given. *)
Theorem wellformed_frames_cut_at_character_boundaries (now : Z)
  (opts : FetchRequestOptions) (values : list (list byte))
  (frames : list (jsstring * (jsstring * jsstring))) (done : jsstring) :
  Forall (fun f => frame_delivers (fst f) (fst (snd f)) (snd (snd f))) frames ->
  no_boundary_within done = true ->
  trimmedLine done = DONE ->
  TextDecoder_decode (concat values) = frames_text (map fst frames ++ [done]) ->
  Forall ends_at_boundary values -> Forall no_leading_BOM values ->
  let run := openAiStreamingDataHandler Number_toString
               (world_of now (streaming_response values)) opts in
  callbacks (fst run) = map frame_event frames ++ [EvCloseStream now]
  /\ snd run =
     Returned (ChatMessage (concat (map (fun f => fst (snd f)) frames))
                           (concat (map (fun f => snd (snd f)) frames))).
Proof.
  intros Hframes Hdone Hmarker Htext He Hb.
  apply wellformed_frames_are_delivered with (done := done); try assumption.
  rewrite (decoded_text_at_boundaries values He Hb). exact Htext.
Qed.

End DecoderProperties.

(* ================================================================== *)
(** ** The request shaper *)
(* ================================================================== *)



Lemma obj_get_None_keys (m : list (jsstring * JSON)) (k : jsstring) :
  obj_get m k = None <-> ~ In k (keys m).
Proof.
  induction m as [|[k' v'] t IH]; cbn [obj_get keys map In fst].
  - tauto.
  - destruct (jsstring_eqb k' k) eqn:H.
    + apply jsstring_eqb_eq in H. split; [discriminate|tauto].
    + apply jsstring_eqb_neq in H. fold (keys t). rewrite IH. tauto.
Qed.

Lemma keys_obj_set (m : list (jsstring * JSON)) (k k' : jsstring) (v : JSON) :
  In k' (keys (obj_set m k v)) <-> k' = k \/ In k' (keys m).
Proof.
  induction m as [|[k0 v0] t IH]; cbn [obj_set keys map In fst].
  - split; [intros [H|[]]; left; congruence|intros [H|[]]; left; congruence].
  - destruct (jsstring_eqb k0 k) eqn:H; cbn [keys map In fst].
    + apply jsstring_eqb_eq in H. subst k0. fold (keys t).
      intuition congruence.
    + fold (keys t) (keys (obj_set t k v)). rewrite IH. tauto.
Qed.


Lemma obj_spread_cons (m t : list (jsstring * JSON)) (k : jsstring) (v : JSON) :
  obj_spread m ((k, v) :: t) = obj_spread (obj_set m k v) t.
Proof. reflexivity. Qed.


Lemma keys_obj_spread (o m : list (jsstring * JSON)) (k : jsstring) :
  In k (keys (obj_spread m o)) <-> In k (keys m) \/ In k (keys o).
Proof.
  revert m. induction o as [|[k0 v0] t IH]; intros m.
  - cbn [obj_spread fold_left keys map In]. tauto.
  - rewrite obj_spread_cons, IH, keys_obj_set. cbn [keys map In fst]. fold (keys t).
    split; intros H; intuition congruence.
Qed.



Lemma restOfApiParams_excludes (p : OpenAIStreamingParams) (k : jsstring) :
  k = lit "apiKey" \/ k = lit "model" ->
  obj_get (restOfApiParams p) k = None.
Proof.
  intros Hk. apply obj_get_None_keys. unfold restOfApiParams.
  rewrite keys_obj_spread. intros [[]|Hin].
  unfold keys in Hin. apply in_map_iff in Hin.
  destruct Hin as [[k' v'] [Hfst Hin]]. cbn [fst] in Hfst. subst k'.
  apply filter_In in Hin. destruct Hin as [_ Hf]. cbn [fst] in Hf.
  apply negb_true_iff, orb_false_iff in Hf. destruct Hf as [H1 H2].
  apply jsstring_eqb_neq in H1, H2. tauto.
Qed.

Section RequestShaperProperties.

Variable JSON_stringify : JSON -> jsstring.



Lemma request_body_keys (p : OpenAIStreamingParams) (messages : list JSON)
  (k : jsstring) :
  In k (keys (request_body p messages)) <->
  k = lit "model" \/ k = lit "messages" \/ k = lit "stream"
  \/ In k (keys (restOfApiParams p)).
Proof.
  unfold request_body.
  rewrite !keys_obj_set, keys_obj_spread, keys_obj_set.
  cbn [keys map In]. tauto.
Qed.


End RequestShaperProperties.


(* ================================================================== *)
(** ** [JSON.parse] never runs out of fuel *)
(* ================================================================== *)

Lemma skip_json_ws_length (s : jsstring) :
  List.length (skip_json_ws s) <= List.length s.
Proof.
  induction s as [|c t IH]; cbn [skip_json_ws]; [lia|].
  destruct (is_json_ws c); cbn [List.length]; lia.
Qed.

Lemma skip_json_ws_cons (s t : jsstring) (c : N) :
  skip_json_ws s = c :: t -> List.length t < List.length s.
Proof.
  intros H. pose proof (skip_json_ws_length s) as Hl.
  rewrite H in Hl. cbn [List.length] in Hl. lia.
Qed.

Lemma map_parsed_inv (A B : Type) (f : A -> B) (r : parse_result A)
  (b : B) (t : jsstring) :
  map_parsed f r = Parsed b t -> exists a, r = Parsed a t /\ b = f a.
Proof.
  destruct r as [a t'| |]; cbn [map_parsed]; try discriminate.
  intros H; injection H as <- <-. exists a. split; reflexivity.
Qed.

Lemma map_parsed_fuel (A B : Type) (f : A -> B) (r : parse_result A) :
  r <> OutOfFuel -> map_parsed f r <> OutOfFuel.
Proof. destruct r; cbn [map_parsed]; congruence. Qed.

Lemma parse_string_chars_spec (s : jsstring) :
  parse_string_chars s <> OutOfFuel
  /\ forall a r, parse_string_chars s = Parsed a r ->
                 List.length r < List.length s.
Proof.
  remember (List.length s) as n eqn:Hn.
  revert s Hn. induction n as [n IH] using lt_wf_ind. intros s Hn.
  subst n.
  destruct s as [|c t]; cbn [parse_string_chars].
  - split; [discriminate|intros a r H; discriminate H].
  - destruct (c =? 34)%N.
    { split; [discriminate|].
      intros a r H; injection H as <- <-. cbn [List.length]. lia. }
    destruct (c =? 92)%N.
    + destruct t as [|e t1]; [split; [discriminate|intros a r H; discriminate H]|].
      destruct (e =? 117)%N.
      * destruct t1 as [|h1 [|h2 [|h3 [|h4 t2]]]];
          try (split; [discriminate|intros a r H; discriminate H]).
        destruct (hex4 h1 h2 h3 h4);
          [|split; [discriminate|intros a r H; discriminate H]].
        destruct (IH (List.length t2)) with (s := t2) as [F L];
          [cbn [List.length]; lia|reflexivity|].
        split; [apply map_parsed_fuel, F|].
        intros a r H. apply map_parsed_inv in H. destruct H as [a' [H _]].
        apply L in H. cbn [List.length]. lia.
      * destruct (simple_escape e);
          [|split; [discriminate|intros a r H; discriminate H]].
        destruct (IH (List.length t1)) with (s := t1) as [F L];
          [cbn [List.length]; lia|reflexivity|].
        split; [apply map_parsed_fuel, F|].
        intros a r H. apply map_parsed_inv in H. destruct H as [a' [H _]].
        apply L in H. cbn [List.length]. lia.
    + destruct (c <? 32)%N;
        [split; [discriminate|intros a r H; discriminate H]|].
      destruct (IH (List.length t)) with (s := t) as [F L];
        [cbn [List.length]; lia|reflexivity|].
      split; [apply map_parsed_fuel, F|].
      intros a r H. apply map_parsed_inv in H. destruct H as [a' [H _]].
      apply L in H. cbn [List.length]. lia.
Qed.

Lemma take_digits_length (s : jsstring) :
  List.length (snd (take_digits s)) <= List.length s.
Proof.
  induction s as [|c t IH]; cbn [take_digits]; [cbn; lia|].
  destruct (is_digit c); [|cbn; lia].
  destruct (take_digits t) as [d r]. cbn [snd List.length] in *. lia.
Qed.

Lemma parse_digits1_length (s d r : jsstring) :
  parse_digits1 s = Some (d, r) -> List.length r <= List.length s.
Proof.
  unfold parse_digits1. pose proof (take_digits_length s) as H.
  destruct (take_digits s) as [[|x d'] r']; [discriminate|].
  intros E; injection E as <- <-. exact H.
Qed.

Lemma parse_int_part_length (s i r : jsstring) :
  parse_int_part s = Some (i, r) -> List.length r < List.length s.
Proof.
  unfold parse_int_part.
  assert (Hgen : forall sign s1,
             List.length s1 <= List.length s ->
             match s1 with
             | [] => None
             | c :: t =>
                 if (c =? 48)%N then Some (sign ++ [c], t)
                 else if is_digit c
                      then let (d, r0) := take_digits t in Some (sign ++ c :: d, r0)
                      else None
             end = Some (i, r) -> List.length r < List.length s).
  { intros sign s1 Hle. destruct s1 as [|c t]; [discriminate|].
    cbn [List.length] in Hle.
    destruct (c =? 48)%N; [intros E; injection E as <- <-; lia|].
    destruct (is_digit c); [|discriminate].
    pose proof (take_digits_length t) as Ht.
    destruct (take_digits t) as [d r0]. cbn [snd] in Ht.
    intros E; injection E as <- <-. lia. }
  destruct s as [|c t].
  - discriminate.
  - destruct (c =? 45)%N; cbv beta iota.
    + apply (Hgen [c] t). cbn [List.length]. lia.
    + apply (Hgen [] (c :: t)). lia.
Qed.

Lemma parse_frac_part_length (s f r : jsstring) :
  parse_frac_part s = Some (f, r) -> List.length r <= List.length s.
Proof.
  unfold parse_frac_part. destruct s as [|c t].
  - intros E; injection E as <- <-. lia.
  - destruct (c =? 46)%N.
    + destruct (parse_digits1 t) as [[d r0]|] eqn:Hd; [|discriminate].
      apply parse_digits1_length in Hd.
      intros E; injection E as <- <-. cbn [List.length]. lia.
    + intros E; injection E as <- <-. lia.
Qed.

Lemma parse_exp_part_length (s e r : jsstring) :
  parse_exp_part s = Some (e, r) -> List.length r <= List.length s.
Proof.
  unfold parse_exp_part. destruct s as [|c t].
  - intros E; injection E as <- <-. lia.
  - destruct ((c =? 101) || (c =? 69))%N.
    + assert (Hgen : forall sign t1,
                 List.length t1 <= List.length t ->
                 match parse_digits1 t1 with
                 | Some (d, r0) => Some (c :: sign ++ d, r0)
                 | None => None
                 end = Some (e, r) -> List.length r <= List.length (c :: t)).
      { intros sign t1 Hle.
        destruct (parse_digits1 t1) as [[d r0]|] eqn:Hd; [|discriminate].
        apply parse_digits1_length in Hd.
        intros E; injection E as <- <-. cbn [List.length]. lia. }
      destruct t as [|g t'].
      * apply (Hgen [] []). lia.
      * destruct ((g =? 43) || (g =? 45))%N; cbv beta iota.
        -- apply (Hgen [g] t'). cbn [List.length]. lia.
        -- apply (Hgen [] (g :: t')). lia.
    + intros E; injection E as <- <-. lia.
Qed.

Lemma parse_number_spec (s : jsstring) :
  parse_number s <> OutOfFuel
  /\ forall v r, parse_number s = Parsed v r -> List.length r < List.length s.
Proof.
  unfold parse_number.
  destruct (parse_int_part s) as [[i s1]|] eqn:Hi;
    [|split; [discriminate|intros v r H; discriminate H]].
  apply parse_int_part_length in Hi.
  destruct (parse_frac_part s1) as [[f s2]|] eqn:Hf;
    [|split; [discriminate|intros v r H; discriminate H]].
  apply parse_frac_part_length in Hf.
  destruct (parse_exp_part s2) as [[e s3]|] eqn:He;
    [|split; [discriminate|intros v r H; discriminate H]].
  apply parse_exp_part_length in He.
  split; [discriminate|]. intros v r H; injection H as <- <-. lia.
Qed.

Lemma strip_prefix_length (p s t : jsstring) :
  strip_prefix p s = Some t -> List.length t + List.length p = List.length s.
Proof.
  revert s. induction p as [|x p IH]; intros s; cbn [strip_prefix].
  - intros E; injection E as <-. cbn; lia.
  - destruct s as [|y s']; [discriminate|].
    destruct (x =? y)%N; [|discriminate].
    intros E. apply IH in E. cbn [List.length]. lia.
Qed.

Lemma parse_keyword_spec (kw : string) (v : JSON) (s : jsstring) :
  0 < List.length (lit kw) ->
  parse_keyword kw v s <> OutOfFuel
  /\ forall v' r, parse_keyword kw v s = Parsed v' r ->
                  List.length r < List.length s.
Proof.
  intros Hkw. unfold parse_keyword.
  destruct (strip_prefix (lit kw) s) as [t|] eqn:H;
    [|split; [discriminate|intros v' r E; discriminate E]].
  apply strip_prefix_length in H.
  split; [discriminate|]. intros v' r E; injection E as <- <-. lia.
Qed.

Lemma parse_length (fuel : nat) :
  (forall s v r, parse_value fuel s = Parsed v r ->
                 List.length r < List.length s)
  /\ (forall s acc v r, parse_elements fuel s acc = Parsed v r ->
                        List.length r < List.length s)
  /\ (forall s acc v r, parse_members fuel s acc = Parsed v r ->
                        List.length r < List.length s).
Proof.
  induction fuel as [|f [IHv [IHe IHm]]];
    [split; [|split]; intros; discriminate|].
  split; [|split].
  - intros s v r. cbn [parse_value].
    pose proof (skip_json_ws_length s) as Hs.
    destruct (skip_json_ws s) as [|c t]; [discriminate|].
    cbn [List.length] in Hs.
    destruct (c =? 123)%N.
    { destruct (skip_json_ws t) as [|d t'] eqn:Ht; [discriminate|].
      apply skip_json_ws_cons in Ht.
      destruct (d =? 125)%N; [intros H; injection H as <- <-; lia|].
      intros H. apply IHm in H. lia. }
    destruct (c =? 91)%N.
    { destruct (skip_json_ws t) as [|d t'] eqn:Ht; [discriminate|].
      apply skip_json_ws_cons in Ht.
      destruct (d =? 93)%N; [intros H; injection H as <- <-; lia|].
      intros H. apply IHe in H. lia. }
    destruct (c =? 34)%N.
    { intros H. apply map_parsed_inv in H. destruct H as [a [H _]].
      apply parse_string_chars_spec in H. lia. }
    destruct (c =? 116)%N.
    { intros H. apply parse_keyword_spec in H; [|cbn; lia].
      cbn [List.length] in H. lia. }
    destruct (c =? 102)%N.
    { intros H. apply parse_keyword_spec in H; [|cbn; lia].
      cbn [List.length] in H. lia. }
    destruct (c =? 110)%N.
    { intros H. apply parse_keyword_spec in H; [|cbn; lia].
      cbn [List.length] in H. lia. }
    intros H. apply parse_number_spec in H. cbn [List.length] in H. lia.
  - intros s acc v r. cbn [parse_elements].
    destruct (parse_value f s) as [v0 r0| |] eqn:Hv; try discriminate.
    apply IHv in Hv.
    destruct (skip_json_ws r0) as [|c t] eqn:Hr; [discriminate|].
    apply skip_json_ws_cons in Hr.
    destruct (c =? 44)%N; [intros H; apply IHe in H; lia|].
    destruct (c =? 93)%N; [intros H; injection H as <- <-; lia|discriminate].
  - intros s acc v r. cbn [parse_members].
    destruct (skip_json_ws s) as [|q t] eqn:Hs; [discriminate|].
    apply skip_json_ws_cons in Hs.
    destruct (q =? 34)%N; [|discriminate].
    destruct (parse_string_chars t) as [key r0| |] eqn:Hk; try discriminate.
    apply parse_string_chars_spec in Hk.
    destruct (skip_json_ws r0) as [|c t1] eqn:Hr; [discriminate|].
    apply skip_json_ws_cons in Hr.
    destruct (c =? 58)%N; [|discriminate].
    destruct (parse_value f t1) as [v0 r1| |] eqn:Hv; try discriminate.
    apply IHv in Hv.
    destruct (skip_json_ws r1) as [|d t2] eqn:Hr1; [discriminate|].
    apply skip_json_ws_cons in Hr1.
    destruct (d =? 44)%N; [intros H; apply IHm in H; lia|].
    destruct (d =? 125)%N; [intros H; injection H as <- <-; lia|discriminate].
Qed.

Lemma parse_fuel (fuel : nat) :
  (forall s, 2 * List.length s + 2 <= fuel ->
             parse_value fuel s <> OutOfFuel)
  /\ (forall s acc, 2 * List.length s + 3 <= fuel ->
                    parse_elements fuel s acc <> OutOfFuel)
  /\ (forall s acc, 2 * List.length s + 3 <= fuel ->
                    parse_members fuel s acc <> OutOfFuel).
Proof.
  induction fuel as [|f [IHv [IHe IHm]]];
    [split; [|split]; intros; lia|].
  destruct (parse_length f) as [Lv [Le Lm]].
  split; [|split].
  - intros s Hf. cbn [parse_value].
    pose proof (skip_json_ws_length s) as Hs.
    destruct (skip_json_ws s) as [|c t]; [discriminate|].
    cbn [List.length] in Hs.
    destruct (c =? 123)%N.
    { destruct (skip_json_ws t) as [|d t'] eqn:Ht; [discriminate|].
      destruct (d =? 125)%N; [discriminate|]. apply IHm. lia. }
    destruct (c =? 91)%N.
    { destruct (skip_json_ws t) as [|d t'] eqn:Ht; [discriminate|].
      destruct (d =? 93)%N; [discriminate|]. apply IHe. lia. }
    destruct (c =? 34)%N.
    { apply map_parsed_fuel, parse_string_chars_spec. }
    destruct (c =? 116)%N; [apply parse_keyword_spec; cbn; lia|].
    destruct (c =? 102)%N; [apply parse_keyword_spec; cbn; lia|].
    destruct (c =? 110)%N; [apply parse_keyword_spec; cbn; lia|].
    apply parse_number_spec.
  - intros s acc Hf. cbn [parse_elements].
    pose proof (IHv s) as Hv. pose proof (Lv s) as Hl.
    destruct (parse_value f s) as [v0 r0| |]; [|discriminate|apply Hv; lia].
    specialize (Hl v0 r0 eq_refl).
    destruct (skip_json_ws r0) as [|c t] eqn:Hr; [discriminate|].
    apply skip_json_ws_cons in Hr.
    destruct (c =? 44)%N; [apply IHe; lia|].
    destruct (c =? 93)%N; discriminate.
  - intros s acc Hf. cbn [parse_members].
    destruct (skip_json_ws s) as [|q t] eqn:Hs; [discriminate|].
    apply skip_json_ws_cons in Hs.
    destruct (q =? 34)%N; [|discriminate].
    destruct (parse_string_chars t) as [key r0| |] eqn:Hk; try discriminate.
    apply parse_string_chars_spec in Hk.
    destruct (skip_json_ws r0) as [|c t1] eqn:Hr; [discriminate|].
    apply skip_json_ws_cons in Hr.
    destruct (c =? 58)%N; [|discriminate].
    pose proof (IHv t1) as Hv. pose proof (Lv t1) as Hl.
    destruct (parse_value f t1) as [v0 r1| |]; [|discriminate|apply Hv; lia].
    specialize (Hl v0 r1 eq_refl).
    destruct (skip_json_ws r1) as [|d t2] eqn:Hr1; [discriminate|].
    apply skip_json_ws_cons in Hr1.
    destruct (d =? 44)%N; [apply IHm; lia|].
    destruct (d =? 125)%N; discriminate.
Qed.

(** The fuel [JSON_parse] supplies is enough for every text, so that its
    [None] always stands for a [SyntaxError]: the text is not a JSON
    value, or something other than white space follows the value. *)
Theorem JSON_parse_fuel_suffices (text : jsstring) :
  parse_value (json_fuel text) text <> OutOfFuel.
Proof. apply parse_fuel. unfold json_fuel. lia. Qed.

(* ================================================================== *)
(** ** Payload shapes without a delta *)
(* ================================================================== *)

(** The three shapes named by C9: [choices] absent, [choices] empty, and
    a first choice without [delta]. *)
Lemma payload_shapes_without_delta (m : list (jsstring * JSON)) :
  (obj_get m (lit "choices") = None -> exposes_delta (JObject m) = false)
  /\ (obj_get m (lit "choices") = Some (JArray []) ->
      exposes_delta (JObject m) = false)
  /\ (forall first others,
        obj_get m (lit "choices") = Some (JArray (JObject first :: others)) ->
        obj_get first (lit "delta") = None ->
        exposes_delta (JObject m) = false).
Proof.
  unfold exposes_delta, chunk_delta. cbn [Get prop_key].
  split; [|split].
  - intros ->. reflexivity.
  - intros ->. reflexivity.
  - intros first others -> H. cbn [Get prop_key]. rewrite H. reflexivity.
Qed.

(** A delta that is present but is a string, a number or a boolean is
    exposed: its [content] and [role] read as [undefined], and the frame
    delivers two empty deltas. *)
Lemma primitive_delta_reads_as_empty (m first : list (jsstring * JSON))
  (others : list JSON) (d : JSON) :
  obj_get m (lit "choices") = Some (JArray (JObject first :: others)) ->
  obj_get first (lit "delta") = Some d ->
  (exists s, d = JString s) \/ (exists l, d = JNumber l)
  \/ (exists b, d = JBool b) ->
  exposes_delta (JObject m) = true
  /\ contentChunk_of (JObject m) = inr []
  /\ roleChunk_of (JObject m) = inr (JString []).
Proof.
  intros Hc Hd Hprim.
  assert (Hdelta : chunk_delta (JObject m) = inr (Some d)).
  { unfold chunk_delta. cbn [Get prop_key]. rewrite Hc. cbn [Get prop_key].
    rewrite Hd. reflexivity. }
  unfold exposes_delta, contentChunk_of, roleChunk_of. rewrite Hdelta.
  destruct Hprim as [[x ->]|[[x ->]|[x ->]]]; repeat split; reflexivity.
Qed.

(* ================================================================== *)
(** ** The claims at concrete sessions *)
(* ================================================================== *)

(** The example session of the specification. *)
Example spec_example_session :
  let run := openAiStreamingDataHandler literal_toString
               (world_of example_now (streaming_response spec_example_stream))
               example_opts in
  callbacks (fst run)
  = [EvIncomingChunk [] (JString (lit "assistant"));
     EvIncomingChunk (lit "Hi") (JString []);
     EvCloseStream example_now]
  /\ snd run = Returned (ChatMessage (lit "Hi") (lit "assistant")).
Proof. vm_compute. split; reflexivity. Qed.

(** C7 at a session: with three line feeds between two frames the second
    frame starts with a line feed, and the session throws. *)
Example three_line_feeds_session :
  let run := openAiStreamingDataHandler literal_toString
               (world_of example_now
                  (streaming_response three_line_feeds_stream))
               example_opts in
  callbacks (fst run) = [EvIncomingChunk [] (JString (lit "assistant"))]
  /\ snd run = Threw SyntaxError.
Proof. vm_compute. split; reflexivity. Qed.

Lemma C3_witness :
  JSON_parse (trimmedLine (wire "data: {oops")) = None
  /\ snd (openAiStreamingDataHandler literal_toString
            (world_of example_now (streaming_response malformed_stream))
            example_opts) = Threw SyntaxError
  /\ callbacks
       (fst (openAiStreamingDataHandler literal_toString
               (world_of example_now (streaming_response malformed_stream))
               example_opts))
     = [EvIncomingChunk (lit "Hi") (JString [])].
Proof.
  split; [reflexivity|].
  assert (H1 : trimmedLine (wire "data: {oops") <> [])
    by (vm_compute; discriminate).
  assert (H2 : trimmedLine (wire "data: {oops") <> DONE)
    by (vm_compute; discriminate).
  destruct (C3_malformed_payload_fails_session literal_toString
              (world_of example_now (streaming_response malformed_stream))
              example_opts (streaming_response malformed_stream)
              {| chunks := malformed_stream; failure := None |}
              [hi_frame; [LF]] [[LF]; wire "data: [DONE]"; [LF]]
              (wire "data: {oops")
              eq_refl eq_refl eq_refl eq_refl H1 H2 eq_refl) as [A [B _]].
  split; [exact A|exact B].
Defined.

Lemma C9_witness :
  exposes_delta (JObject [(lit "choices", JArray [])]) = false
  /\ snd (openAiStreamingDataHandler literal_toString
            (world_of example_now (streaming_response no_delta_stream))
            example_opts) = Threw TypeError
  /\ callbacks
       (fst (openAiStreamingDataHandler literal_toString
               (world_of example_now (streaming_response no_delta_stream))
               example_opts))
     = [EvIncomingChunk (lit "Hi") (JString [])].
Proof.
  split; [reflexivity|].
  assert (H1 : trimmedLine (wire "data: {'choices':[]}") <> [])
    by (vm_compute; discriminate).
  assert (H2 : trimmedLine (wire "data: {'choices':[]}") <> DONE)
    by (vm_compute; discriminate).
  destruct (C9_payload_without_delta_fails_session literal_toString
              (world_of example_now (streaming_response no_delta_stream))
              example_opts (streaming_response no_delta_stream)
              {| chunks := no_delta_stream; failure := None |}
              [hi_frame; [LF]] [[LF]; wire "data: [DONE]"; [LF]]
              (wire "data: {'choices':[]}")
              (JObject [(lit "choices", JArray [])])
              eq_refl eq_refl eq_refl eq_refl H1 H2 eq_refl eq_refl)
    as [_ [A [B _]]].
  split; [exact A|exact B].
Defined.

Lemma C4_witness :
  trimmedLine (wire "data: [DONE]") = DONE
  /\ (forall acc,
        process_line literal_toString (Some (wire "data: [DONE]")) acc
        = ([], inr acc))
  /\ stream_lines done_first_stream
     = [] ++ wire "data: [DONE]" :: [[LF]; hi_frame; [LF]]
  /\ callbacks
       (fst (openAiStreamingDataHandler literal_toString
               (world_of example_now (streaming_response done_first_stream))
               example_opts))
     = [EvIncomingChunk (lit "Hi") (JString []); EvCloseStream example_now]
  /\ snd (openAiStreamingDataHandler literal_toString
            (world_of example_now (streaming_response done_first_stream))
            example_opts)
     = Returned (ChatMessage (lit "Hi") [])
  /\ filter is_read
       (fst (openAiStreamingDataHandler literal_toString
               (world_of example_now (streaming_response done_first_stream))
               example_opts))
     = map (fun v => EvRead (Some v)) done_first_stream ++ [EvRead None].
Proof.
  assert (Hlines : stream_lines done_first_stream
                   = [] ++ wire "data: [DONE]" :: [[LF]; hi_frame; [LF]])
    by (vm_compute; reflexivity).
  split; [reflexivity|].
  destruct (C4_terminal_marker_is_skipped literal_toString
              (wire "data: [DONE]") eq_refl) as [A [_ C]].
  split; [exact A|]. split; [exact Hlines|].
  destruct (C (world_of example_now (streaming_response done_first_stream))
              example_opts (streaming_response done_first_stream)
              {| chunks := done_first_stream; failure := None |}
              [] [[LF]; hi_frame; [LF]] eq_refl eq_refl eq_refl Hlines)
    as [H1 [_ H3]].
  destruct (H3 (lit "Hi") [] eq_refl eq_refl) as [R [Hreads _]].
  rewrite R in H1.
  split; [exact H1|]. split; [exact R|exact Hreads].
Defined.

Lemma C5_witness :
  snd (openAiStreamingDataHandler literal_toString
         (world_of example_now (streaming_response spec_example_stream))
         example_opts)
  = Returned (ChatMessage (lit "Hi") (lit "assistant"))
  /\ filter is_close
       (fst (openAiStreamingDataHandler literal_toString
               (world_of example_now (streaming_response spec_example_stream))
               example_opts))
     = [EvCloseStream example_now]
  /\ filter is_read
       (fst (openAiStreamingDataHandler literal_toString
               (world_of example_now (streaming_response spec_example_stream))
               example_opts))
     = map (fun v => EvRead (Some v)) spec_example_stream ++ [EvRead None].
Proof.
  assert (Hwhole : snd (process_lines literal_toString
                          (map Some (stream_lines spec_example_stream))
                          ([], []))
                   = inr (lit "Hi", lit "assistant"))
    by (vm_compute; reflexivity).
  destruct (C5_close_once_after_exhaustion literal_toString
              (world_of example_now (streaming_response spec_example_stream))
              example_opts) as [_ [B _]].
  exact (B (streaming_response spec_example_stream)
           {| chunks := spec_example_stream; failure := None |}
           (lit "Hi") (lit "assistant") eq_refl eq_refl eq_refl eq_refl
           Hwhole).
Defined.

Lemma C6_witness :
  (299 < status response_500)%N
  /\ openAiStreamingDataHandler literal_toString
       (world_of example_now response_500) example_opts
     = ([EvDateNow example_now; EvFetch CHAT_COMPLETIONS_URL example_opts],
        Threw (Error (lit "Network response was not ok: 500 - Internal Server Error")))
  /\ openAiStreamingDataHandler literal_toString
       (world_of example_now response_without_body) example_opts
     = ([EvDateNow example_now; EvFetch CHAT_COMPLETIONS_URL example_opts],
        Threw (Error (lit "No body included in POST response object"))).
Proof.
  split; [reflexivity|]. split.
  - exact (proj1 (C6_rejected_response_is_never_read literal_toString
                    (world_of example_now response_500) example_opts
                    response_500 eq_refl)
             (or_intror eq_refl)).
  - apply (proj2 (C6_rejected_response_is_never_read literal_toString
                    (world_of example_now response_without_body) example_opts
                    response_without_body eq_refl)).
    + split; intros H; discriminate H.
    + reflexivity.
Defined.

Lemma C8_witness :
  JSON_parse (trimmedLine backtick_line) = Some backtick_chunk
  /\ process_line literal_toString (Some backtick_line) (lit "a", lit "b")
     = ([EvIncomingChunk (wire "`js") (JString (lit "assistant"))],
        inr (wire "a`js", lit "bassistant")).
Proof.
  split; [reflexivity|].
  assert (H1 : trimmedLine backtick_line <> []) by (vm_compute; discriminate).
  assert (H2 : trimmedLine backtick_line <> DONE) by (vm_compute; discriminate).
  exact (proj1 (C8_only_the_backtick_transform literal_toString
                  backtick_line backtick_chunk (Some backtick_delta)
                  (Some (JString (wire "`  js")))
                  (Some (JString (lit "assistant")))
                  (wire "`  js") (lit "assistant") (lit "a", lit "b")
                  H1 H2 eq_refl eq_refl eq_refl eq_refl eq_refl eq_refl)).
Defined.


(* ================================================================== *)
(** * Further properties of the stream decoder *)
(* ================================================================== *)

Section DecoderFurtherProperties.

Variable Number_toString : jsstring -> jsstring.

(** ** White space, the field marker and lines that are not JSON *)

Lemma drop_ws_all_white (w : jsstring) :
  forallb isWhiteSpace w = true -> drop_ws w = [].
Proof.
  induction w as [|c t IH]; [reflexivity|].
  cbn [forallb drop_ws]. intros H. apply andb_true_iff in H.
  destruct H as [Hc Ht]. rewrite Hc. exact (IH Ht).
Qed.

Lemma drop_ws_white_prefix (w s : jsstring) :
  forallb isWhiteSpace w = true -> drop_ws (w ++ s) = drop_ws s.
Proof.
  induction w as [|c t IH]; [reflexivity|].
  cbn [forallb app drop_ws]. intros H. apply andb_true_iff in H.
  destruct H as [Hc Ht]. rewrite Hc. exact (IH Ht).
Qed.

Lemma drop_ws_idempotent (s : jsstring) : drop_ws (drop_ws s) = drop_ws s.
Proof.
  induction s as [|c t IH]; [reflexivity|].
  cbn [drop_ws]. destruct (isWhiteSpace c) eqn:Hc; [exact IH|].
  cbn [drop_ws]. rewrite Hc. reflexivity.
Qed.

Lemma drop_ws_head (s t : jsstring) (c : N) :
  drop_ws s = c :: t -> isWhiteSpace c = false.
Proof.
  induction s as [|x s IH]; cbn [drop_ws]; [discriminate|].
  destruct (isWhiteSpace x) eqn:Hx; [exact IH|].
  intros H; injection H as <- _. exact Hx.
Qed.

Lemma drop_ws_app_white (p w : jsstring) :
  forallb isWhiteSpace w = true ->
  drop_ws (rev (p ++ w)) = drop_ws (rev p).
Proof.
  intros Hw. rewrite rev_app_distr. apply drop_ws_white_prefix.
  rewrite forallb_forall in *. intros x Hx. apply Hw, in_rev, Hx.
Qed.

Lemma drop_ws_app_some (p s : jsstring) :
  drop_ws p <> [] -> drop_ws (p ++ s) = drop_ws p ++ s.
Proof.
  induction p as [|c t IH]; cbn [drop_ws app]; [congruence|].
  destruct (isWhiteSpace c); [exact IH|reflexivity].
Qed.

Lemma String_trim_white_around (w1 p w2 : jsstring) :
  forallb isWhiteSpace w1 = true ->
  forallb isWhiteSpace w2 = true ->
  String_trim (w1 ++ p ++ w2) = String_trim p.
Proof.
  intros H1 H2. unfold String_trim. rewrite (drop_ws_white_prefix _ _ H1).
  destruct (drop_ws p) as [|c t] eqn:Hp.
  - assert (Hall : drop_ws (p ++ w2) = []).
    { clear - Hp H2. induction p as [|x p IH]; cbn [app drop_ws] in *.
      - apply drop_ws_all_white, H2.
      - destruct (isWhiteSpace x); [apply IH, Hp|discriminate]. }
    rewrite Hall. reflexivity.
  - rewrite drop_ws_app_some by congruence. rewrite Hp.
    rewrite (drop_ws_app_white (c :: t) w2 H2). reflexivity.
Qed.

Lemma strip_prefix_app (p s : jsstring) : strip_prefix p (p ++ s) = Some s.
Proof.
  induction p as [|c t IH]; [reflexivity|].
  cbn [app strip_prefix]. rewrite N.eqb_refl. exact IH.
Qed.

Lemma trimmedLine_marked (s : jsstring) :
  trimmedLine (lit "data:" ++ s) = String_trim s.
Proof.
  unfold trimmedLine. rewrite String_replace_data_field, strip_prefix_app.
  unfold String_trim. rewrite drop_ws_idempotent. reflexivity.
Qed.

Lemma trimmedLine_unmarked (s : jsstring) :
  strip_prefix (lit "data:") s = None -> trimmedLine s = String_trim s.
Proof.
  intros H. unfold trimmedLine. rewrite String_replace_data_field, H.
  reflexivity.
Qed.

Lemma process_line_by_trimmedLine (l1 l2 : jsstring) (acc : jsstring * jsstring) :
  trimmedLine l1 = trimmedLine l2 ->
  process_line Number_toString (Some l1) acc
  = process_line Number_toString (Some l2) acc.
Proof. intros H. unfold process_line. rewrite H. reflexivity. Qed.

(** X1. The [data:] marker is optional: a complete line that carries its
    payload without the marker is processed exactly like the same payload
    with the marker in front. *)
Theorem marker_is_optional (payload : jsstring) (acc : jsstring * jsstring) :
  strip_prefix (lit "data:") payload = None ->
  process_line Number_toString (Some (lit "data:" ++ payload)) acc
  = process_line Number_toString (Some payload) acc.
Proof.
  intros H. apply process_line_by_trimmedLine.
  rewrite trimmedLine_marked, (trimmedLine_unmarked _ H). reflexivity.
Qed.

(** X2. White space after the marker and at the end of the line, a
    carriage return for instance, does not matter: the line is processed
    like the one with the bare payload. *)
Theorem white_space_around_payload_is_immaterial
  (w1 payload w2 : jsstring) (acc : jsstring * jsstring) :
  forallb isWhiteSpace w1 = true ->
  forallb isWhiteSpace w2 = true ->
  process_line Number_toString (Some (lit "data:" ++ w1 ++ payload ++ w2)) acc
  = process_line Number_toString (Some (lit "data:" ++ payload)) acc.
Proof.
  intros H1 H2. apply process_line_by_trimmedLine.
  rewrite !trimmedLine_marked. apply String_trim_white_around; assumption.
Qed.

Lemma white_has_no_marker (w : jsstring) :
  forallb isWhiteSpace w = true -> strip_prefix (lit "data:") w = None.
Proof.
  destruct w as [|c t]; [reflexivity|].
  cbn [forallb]. intros H. apply andb_true_iff in H. destruct H as [Hc _].
  change (strip_prefix (lit "data:") (c :: t))
    with (if (100 =? c)%N then strip_prefix (lit "ata:") t else None).
  destruct (100 =? c)%N eqn:E; [|reflexivity].
  apply N.eqb_eq in E. subst c. discriminate Hc.
Qed.

Lemma String_trim_all_white (w : jsstring) :
  forallb isWhiteSpace w = true -> String_trim w = [].
Proof.
  intros H. unfold String_trim. rewrite (drop_ws_all_white _ H). reflexivity.
Qed.

(** X3. Keep-alive lines are skipped: a complete line that is blank, or
    only white space, or the marker followed by nothing but white space,
    causes no callback and no error, and the lines around it are
    processed as if it were absent. *)
Theorem blank_lines_are_skipped (line w : jsstring)
  (pre post : list (option jsstring)) (acc : jsstring * jsstring) :
  forallb isWhiteSpace w = true ->
  line = w \/ line = lit "data:" ++ w ->
  process_line Number_toString (Some line) acc = ([], inr acc)
  /\ process_lines Number_toString (pre ++ Some line :: post) acc
     = process_lines Number_toString (pre ++ post) acc.
Proof.
  intros Hw Hline.
  assert (Ht : trimmedLine line = []).
  { destruct Hline as [-> | ->].
    - rewrite (trimmedLine_unmarked _ (white_has_no_marker _ Hw)).
      apply String_trim_all_white, Hw.
    - rewrite trimmedLine_marked. apply String_trim_all_white, Hw. }
  split.
  - apply process_line_skipped. left; exact Ht.
  - apply process_lines_skipped. left; exact Ht.
Qed.

Lemma json_ws_is_white (c : N) : is_json_ws c = true -> isWhiteSpace c = true.
Proof.
  unfold is_json_ws. rewrite !orb_true_iff, !N.eqb_eq.
  intros [[[-> | ->] | ->] | ->]; reflexivity.
Qed.

(** [JSON.parse] rejects every text whose first code unit is neither
    JSON white space nor the start of a JSON value. *)
Lemma JSON_parse_bad_start (c : N) (t : jsstring) :
  isWhiteSpace c = false -> json_value_start c = false ->
  JSON_parse (c :: t) = None.
Proof.
  intros Hw Hs.
  assert (Hj : is_json_ws c = false).
  { destruct (is_json_ws c) eqn:E; [|reflexivity].
    apply json_ws_is_white in E. congruence. }
  unfold json_value_start in Hs. rewrite !orb_false_iff in Hs.
  destruct Hs as [[[[[[[H1 H2] H3] H4] H5] H6] H7] H8].
  unfold JSON_parse, json_fuel.
  replace (2 * List.length (c :: t) + 3)
    with (S (2 * List.length (c :: t) + 2)) by lia.
  cbn [parse_value skip_json_ws]. rewrite Hj, H1, H2, H3, H4, H5, H6.
  unfold parse_number, parse_int_part. rewrite H7.
  assert (H48 : (c =? 48)%N = false).
  { destruct (c =? 48)%N eqn:E; [|reflexivity].
    apply N.eqb_eq in E. subst c. discriminate H8. }
  rewrite H48, H8. reflexivity.
Qed.

Lemma String_trim_white_then_unit (w t : jsstring) (c : N) :
  forallb isWhiteSpace w = true -> isWhiteSpace c = false ->
  String_trim (w ++ c :: t) = c :: rev (drop_ws (rev t)).
Proof.
  intros Hw Hc. unfold String_trim. rewrite (drop_ws_white_prefix _ _ Hw).
  cbn [drop_ws]. rewrite Hc. apply rtrim_cons, Hc.
Qed.

(** X4. A complete line without the marker at its very start whose first
    visible character cannot start a JSON value (an SSE comment
    [: ping], an [event:] or [id:] field, or a [data:] marker pushed to
    the right by a space) makes the line throw a [SyntaxError], and with
    it the session: the callbacks are those of the lines before it and no
    close callback is made. *)
Theorem line_that_is_not_json_fails_session (w t : jsstring) (c : N)
  (wd : World) (opts : FetchRequestOptions) (response : Response)
  (stream : ReadableStream) (pre post : list jsstring) :
  forallb isWhiteSpace w = true ->
  isWhiteSpace c = false ->
  json_value_start c = false ->
  strip_prefix (lit "data:") (w ++ c :: t) = None ->
  fetch wd CHAT_COMPLETIONS_URL opts = inr response ->
  ok response = true ->
  response_body response = Some stream ->
  stream_lines (chunks stream) = pre ++ (w ++ c :: t) :: post ->
  let before := process_lines Number_toString (map Some pre) ([], []) in
  let run := openAiStreamingDataHandler Number_toString wd opts in
  (forall acc, process_line Number_toString (Some (w ++ c :: t)) acc
               = ([], inl SyntaxError))
  /\ snd run = Threw (match snd before with inl e => e | inr _ => SyntaxError end)
  /\ callbacks (fst run) = fst before
  /\ filter is_close (fst run) = [].
Proof.
  intros Hw Hc Hs Hm Hfetch Hok Hbody Hlines before run.
  assert (Ht : trimmedLine (w ++ c :: t) = c :: rev (drop_ws (rev t))).
  { rewrite (trimmedLine_unmarked _ Hm).
    apply String_trim_white_then_unit; assumption. }
  assert (Hline : forall acc,
             process_line Number_toString (Some (w ++ c :: t)) acc
             = ([], inl SyntaxError)).
  { apply process_line_malformed.
    - rewrite Ht. discriminate.
    - rewrite Ht. unfold DONE. intros E. injection E as E _. subst c.
      discriminate Hs.
    - rewrite Ht. apply JSON_parse_bad_start; assumption. }
  split; [exact Hline|].
  exact (session_fails_at Number_toString wd opts response stream pre post
           (w ++ c :: t) SyntaxError Hfetch Hok Hbody Hlines Hline).
Qed.

(** ** Deltas *)

(** X5. A frame whose delta object has neither content nor role, or has
    them [null], still makes one call of the chunk callback, with two
    empty strings, and leaves the message so far as it was. *)
Theorem empty_deltas_still_call_back (line : jsstring) (chunk : JSON)
  (m : list (jsstring * JSON)) (acc : jsstring * jsstring) :
  trimmedLine line <> [] ->
  trimmedLine line <> DONE ->
  JSON_parse (trimmedLine line) = Some chunk ->
  chunk_delta chunk = inr (Some (JObject m)) ->
  obj_get m (lit "content") = None \/ obj_get m (lit "content") = Some JNull ->
  obj_get m (lit "role") = None \/ obj_get m (lit "role") = Some JNull ->
  process_line Number_toString (Some line) acc
  = ([EvIncomingChunk [] (JString [])], inr acc).
Proof.
  intros H1 H2 Hp Hd Hc Hr. unfold process_line.
  apply jsstring_eqb_neq in H1, H2. rewrite H1, H2, Hp. cbn [negb andb].
  unfold contentChunk_of, roleChunk_of. rewrite Hd. cbn [Get prop_key].
  destruct acc as [a b]. cbn [fst snd].
  destruct Hc as [-> | ->], Hr as [-> | ->]; cbn [nullish_or ToString];
    rewrite !app_nil_r; reflexivity.
Qed.

(** X6. A content delta that is present and is not a string (a number, a
    boolean, an array or an object) has no [replace] method: the line
    throws a [TypeError] and makes no callback. *)
Theorem content_that_is_not_a_string_throws (line : jsstring) (chunk v : JSON)
  (delta : option JSON) (acc : jsstring * jsstring) :
  trimmedLine line <> [] ->
  trimmedLine line <> DONE ->
  JSON_parse (trimmedLine line) = Some chunk ->
  chunk_delta chunk = inr delta ->
  Get delta P_content = inr (Some v) ->
  v <> JNull ->
  (forall s, v <> JString s) ->
  process_line Number_toString (Some line) acc = ([], inl TypeError).
Proof.
  intros H1 H2 Hp Hd Hc Hn Hs. unfold process_line.
  apply jsstring_eqb_neq in H1, H2. rewrite H1, H2, Hp. cbn [negb andb].
  unfold contentChunk_of. rewrite Hd, Hc.
  destruct v; cbn [nullish_or]; try reflexivity.
  - congruence.
  - exfalso. exact (Hs s eq_refl).
Qed.

(** X7. After the transform a content delta never has white space right
    after an opening backtick, and applying the transform again changes
    nothing. *)
Theorem backtick_transform_is_idempotent (c : jsstring) :
  let c' := String_replace re_backtick 0 c (lit "`") in
  String_replace re_backtick 0 c' (lit "`") = c'
  /\ (forall w t, c' = 96%N :: w :: t -> isWhiteSpace w = false)
  /\ List.length c' <= List.length c.
Proof.
  cbv zeta. rewrite !String_replace_backtick.
  destruct c as [|b t]; [repeat split; [intros w t H; discriminate H|lia]|].
  destruct (96 =? b)%N eqn:Hb.
  - apply N.eqb_eq in Hb. subst b. cbn [N.eqb Pos.eqb].
    rewrite drop_ws_idempotent. repeat split.
    + intros w t' H. injection H as H.
      exact (drop_ws_head _ _ _ H).
    + cbn [List.length]. pose proof (drop_ws_length t). lia.
  - rewrite Hb. repeat split.
    + intros w t' H. injection H as H _. subst b. discriminate Hb.
    + lia.
Qed.

(** ** What lies after the last blank line, and empty chunks *)

Lemma event_lines_no_blank_line (s : jsstring) :
  forall cur, no_blank_line s = true -> event_lines s cur = ([], cur ++ s).
Proof.
  induction s as [|c t IH]; intros cur H.
  - cbn [event_lines]. rewrite app_nil_r. reflexivity.
  - destruct t as [|d t'].
    + reflexivity.
    + change (no_blank_line (c :: d :: t'))
        with (negb ((c =? LF) && (d =? LF))%N && no_blank_line (d :: t')) in H.
      apply andb_true_iff in H. destruct H as [Hcd Ht].
      apply negb_true_iff in Hcd.
      rewrite event_lines_cons2, Hcd, (IH (cur ++ [c]) Ht), <- app_assoc.
      reflexivity.
Qed.

Lemma sessions_with_equal_lines (now : Z) (opts : FetchRequestOptions)
  (values1 values2 : list (list byte)) :
  stream_lines values1 = stream_lines values2 ->
  callbacks (fst (openAiStreamingDataHandler Number_toString
                    (world_of now (streaming_response values1)) opts))
  = callbacks (fst (openAiStreamingDataHandler Number_toString
                      (world_of now (streaming_response values2)) opts))
  /\ snd (openAiStreamingDataHandler Number_toString
            (world_of now (streaming_response values1)) opts)
     = snd (openAiStreamingDataHandler Number_toString
              (world_of now (streaming_response values2)) opts).
Proof.
  intros Hlines.
  destruct (handler_streaming Number_toString
              (world_of now (streaming_response values1)) opts
              (streaming_response values1)
              {| chunks := values1; failure := None |}
              eq_refl eq_refl eq_refl) as [A1 A2].
  destruct (handler_streaming Number_toString
              (world_of now (streaming_response values2)) opts
              (streaming_response values2)
              {| chunks := values2; failure := None |}
              eq_refl eq_refl eq_refl) as [B1 B2].
  cbn [chunks failure Date_now world_of] in *. rewrite Hlines in *.
  assert (Hs : snd (openAiStreamingDataHandler Number_toString
                      (world_of now (streaming_response values1)) opts)
               = snd (openAiStreamingDataHandler Number_toString
                        (world_of now (streaming_response values2)) opts))
    by (rewrite A2, B2; reflexivity).
  split; [|exact Hs]. rewrite A1, B1, Hs. reflexivity.
Qed.

(** X8. Text after the last blank line is never parsed. When the decoded
    text of one stream is that of complete frames and the text of another
    is the same followed by a tail without a blank line, whatever the
    tail holds, the two sessions make the same callbacks and end the same
    way. *)
Theorem unterminated_tail_is_dropped (now : Z) (opts : FetchRequestOptions)
  (values1 values2 : list (list byte)) (segs : list jsstring) (tail : jsstring) :
  forallb no_boundary_within segs = true ->
  no_blank_line tail = true ->
  decoded_text values1 = frames_text segs ->
  decoded_text values2 = frames_text segs ++ tail ->
  callbacks (fst (openAiStreamingDataHandler Number_toString
                    (world_of now (streaming_response values1)) opts))
  = callbacks (fst (openAiStreamingDataHandler Number_toString
                      (world_of now (streaming_response values2)) opts))
  /\ snd (openAiStreamingDataHandler Number_toString
            (world_of now (streaming_response values1)) opts)
     = snd (openAiStreamingDataHandler Number_toString
              (world_of now (streaming_response values2)) opts).
Proof.
  intros Hsegs Htail H1 H2. apply sessions_with_equal_lines.
  unfold stream_lines. rewrite H1, H2.
  rewrite <- (app_nil_r (frames_text segs)) at 1.
  rewrite !(event_lines_frames segs _ Hsegs).
  rewrite (event_lines_no_blank_line tail [] Htail). reflexivity.
Qed.

Lemma decoded_text_app (a b : list (list byte)) :
  decoded_text (a ++ b) = decoded_text a ++ decoded_text b.
Proof. unfold decoded_text. rewrite map_app, concat_app. reflexivity. Qed.

(** X9. An empty chunk changes nothing: a stream with an empty chunk
    inserted anywhere makes the same callbacks and ends the same way. *)
Theorem empty_chunk_is_immaterial (now : Z) (opts : FetchRequestOptions)
  (values1 values2 : list (list byte)) :
  callbacks (fst (openAiStreamingDataHandler Number_toString
                    (world_of now (streaming_response (values1 ++ [] :: values2)))
                    opts))
  = callbacks (fst (openAiStreamingDataHandler Number_toString
                      (world_of now (streaming_response (values1 ++ values2)))
                      opts))
  /\ snd (openAiStreamingDataHandler Number_toString
            (world_of now (streaming_response (values1 ++ [] :: values2))) opts)
     = snd (openAiStreamingDataHandler Number_toString
              (world_of now (streaming_response (values1 ++ values2))) opts).
Proof.
  apply sessions_with_equal_lines. unfold stream_lines.
  rewrite !decoded_text_app. reflexivity.
Qed.

(** ** The message and the callbacks *)

Lemma process_line_delivers (line : option jsstring)
  (acc acc' : jsstring * jsstring) (evs : list event) :
  process_line Number_toString line acc = (evs, inr acc') ->
  acc' = (fst acc ++ delivered_content evs,
          snd acc ++ delivered_role Number_toString evs).
Proof.
  unfold process_line. destruct acc as [a b]. cbn [fst snd].
  destruct line as [l|]; [|discriminate].
  destruct (negb (jsstring_eqb (trimmedLine l) [])
            && negb (jsstring_eqb (trimmedLine l) DONE)).
  - destruct (JSON_parse (trimmedLine l)) as [chunk|]; [|discriminate].
    destruct (contentChunk_of chunk) as [|c]; [discriminate|].
    destruct (roleChunk_of chunk) as [|r]; [discriminate|].
    destruct (ToString Number_toString r) as [|t] eqn:Ht; [discriminate|].
    intros H; injection H as <- <-.
    unfold delivered_content, delivered_role. cbn [flat_map].
    rewrite Ht, !app_nil_r. reflexivity.
  - intros H; injection H as <- <-.
    unfold delivered_content, delivered_role. cbn [flat_map].
    rewrite !app_nil_r. reflexivity.
Qed.

Lemma process_lines_delivers (lines : list (option jsstring)) :
  forall acc acc' evs,
    process_lines Number_toString lines acc = (evs, inr acc') ->
    acc' = (fst acc ++ delivered_content evs,
            snd acc ++ delivered_role Number_toString evs).
Proof.
  induction lines as [|line more IH]; intros acc acc' evs.
  - cbn [process_lines]. intros H; injection H as <- <-.
    destruct acc. cbn. rewrite !app_nil_r. reflexivity.
  - cbn [process_lines].
    destruct (process_line Number_toString line acc) as [e1 [x|a1]] eqn:H1;
      [discriminate|].
    destruct (process_lines Number_toString more a1) as [e2 r2] eqn:H2.
    intros H; injection H as <- ->.
    apply process_line_delivers in H1. apply IH in H2. subst a1 acc'.
    cbn [fst snd]. unfold delivered_content, delivered_role.
    rewrite !flat_map_app, !app_assoc. reflexivity.
Qed.

Lemma delivered_content_callbacks (log : list event) :
  delivered_content (callbacks log) = delivered_content log.
Proof.
  induction log as [|e t IH]; [reflexivity|].
  destruct e; cbn [callbacks filter is_callback delivered_content flat_map];
    fold (callbacks t); fold (delivered_content t);
    fold (delivered_content (callbacks t)); rewrite ?IH; reflexivity.
Qed.

Lemma delivered_role_callbacks (log : list event) :
  delivered_role Number_toString (callbacks log)
  = delivered_role Number_toString log.
Proof.
  induction log as [|e t IH]; [reflexivity|].
  destruct e; cbn [callbacks filter is_callback delivered_role flat_map];
    fold (callbacks t); fold (delivered_role Number_toString t);
    fold (delivered_role Number_toString (callbacks t));
    rewrite ?IH; reflexivity.
Qed.

Lemma returned_session (w : World) (opts : FetchRequestOptions)
  (m : OpenAIChatMessage) :
  snd (openAiStreamingDataHandler Number_toString w opts) = Returned m ->
  exists response stream,
    fetch w CHAT_COMPLETIONS_URL opts = inr response
    /\ ok response = true
    /\ response_body response = Some stream.
Proof.
  unfold openAiStreamingDataHandler.
  destruct (fetch w CHAT_COMPLETIONS_URL opts) as [e|response];
    [intros H; discriminate H|].
  destruct (ok response) eqn:Hok; cbn [negb]; [|intros H; discriminate H].
  destruct (response_body response) as [stream|] eqn:Hbody;
    [|intros H; discriminate H].
  intros _. exists response, stream.
  split; [reflexivity|split; [exact Hok|exact Hbody]].
Qed.

(** X10. In every session that returns, the content of the returned
    message is exactly the concatenation, in order, of the content
    chunks the chunk callback received, and its role is the
    concatenation of the texts of the role chunks it received. *)
Theorem returned_message_is_what_was_delivered (w : World)
  (opts : FetchRequestOptions) (m : OpenAIChatMessage) :
  snd (openAiStreamingDataHandler Number_toString w opts) = Returned m ->
  message_content m
  = delivered_content (fst (openAiStreamingDataHandler Number_toString w opts))
  /\ message_role m
     = delivered_role Number_toString
         (fst (openAiStreamingDataHandler Number_toString w opts)).
Proof.
  intros Hret.
  destruct (returned_session w opts m Hret)
    as [response [stream [Hfetch [Hok Hbody]]]].
  destruct (handler_streaming Number_toString w opts response stream
              Hfetch Hok Hbody) as [H1 H2].
  rewrite <- delivered_content_callbacks, <- delivered_role_callbacks, H1.
  rewrite Hret in H2 |- *.
  destruct (process_lines Number_toString
              (map Some (stream_lines (chunks stream))) ([], []))
    as [evs [e|[c r]]] eqn:Hw; cbn [fst snd] in *; [discriminate H2|].
  destruct (failure stream); [discriminate H2|].
  injection H2 as ->. cbn [message_content message_role].
  apply process_lines_delivers in Hw. injection Hw as -> ->.
  unfold delivered_content, delivered_role.
  rewrite !flat_map_app. cbn [flat_map app]. rewrite !app_nil_r.
  split; reflexivity.
Qed.

Lemma process_line_count (l : jsstring) (acc acc' : jsstring * jsstring)
  (evs : list event) :
  process_line Number_toString (Some l) acc = (evs, inr acc') ->
  List.length evs = if payload_bearing l then 1 else 0.
Proof.
  unfold process_line, payload_bearing.
  destruct (negb (jsstring_eqb (trimmedLine l) [])
            && negb (jsstring_eqb (trimmedLine l) DONE)).
  - destruct (JSON_parse (trimmedLine l)) as [chunk|]; [|discriminate].
    destruct (contentChunk_of chunk) as [|c]; [discriminate|].
    destruct (roleChunk_of chunk) as [|r]; [discriminate|].
    destruct (ToString Number_toString r) as [|t]; [discriminate|].
    intros H; injection H as <- _. reflexivity.
  - intros H; injection H as <- _. reflexivity.
Qed.

Lemma process_lines_count (ls : list jsstring) :
  forall acc acc' evs,
    process_lines Number_toString (map Some ls) acc = (evs, inr acc') ->
    List.length evs = List.length (filter payload_bearing ls).
Proof.
  induction ls as [|l more IH]; intros acc acc' evs.
  - cbn [map process_lines]. intros H; injection H as <- _. reflexivity.
  - cbn [map process_lines].
    destruct (process_line Number_toString (Some l) acc) as [e1 [x|a1]] eqn:H1;
      [discriminate|].
    destruct (process_lines Number_toString (map Some more) a1)
      as [e2 r2] eqn:H2.
    intros H; injection H as <- ->.
    apply process_line_count in H1. apply IH in H2.
    rewrite length_app, H1, H2. cbn [filter].
    destruct (payload_bearing l); reflexivity.
Qed.

Lemma process_line_incoming (line : option jsstring) (acc : jsstring * jsstring) :
  filter is_incoming (fst (process_line Number_toString line acc))
  = fst (process_line Number_toString line acc).
Proof.
  unfold process_line. destruct line as [l|]; [|reflexivity].
  destruct (negb (jsstring_eqb (trimmedLine l) [])
            && negb (jsstring_eqb (trimmedLine l) DONE)); [|reflexivity].
  destruct (JSON_parse (trimmedLine l)) as [chunk|]; [|reflexivity].
  destruct (contentChunk_of chunk); [reflexivity|].
  destruct (roleChunk_of chunk) as [|rc]; [reflexivity|].
  destruct (ToString Number_toString rc); reflexivity.
Qed.

Lemma process_lines_incoming (lines : list (option jsstring)) :
  forall acc,
    filter is_incoming (fst (process_lines Number_toString lines acc))
    = fst (process_lines Number_toString lines acc).
Proof.
  induction lines as [|line more IH]; intros acc; [reflexivity|].
  cbn [process_lines].
  pose proof (process_line_incoming line acc) as H.
  destruct (process_line Number_toString line acc) as [evs [e|acc']];
    cbn [fst] in *; [exact H|].
  specialize (IH acc').
  destruct (process_lines Number_toString more acc') as [evs' r].
  cbn [fst] in *. rewrite filter_app, H, IH. reflexivity.
Qed.

Lemma incoming_of_callbacks (log : list event) :
  filter is_incoming (callbacks log) = filter is_incoming log.
Proof.
  induction log as [|e t IH]; [reflexivity|].
  destruct e; cbn [callbacks filter is_callback is_incoming];
    fold (callbacks t); rewrite ?IH; reflexivity.
Qed.

(** X11. In a session that returns, the chunk callback has been called
    exactly once for every complete line of the stream that carries a
    payload (a trimmed text that is neither empty nor the terminal
    marker), no more and no less. *)
Theorem one_callback_per_payload_line (w : World) (opts : FetchRequestOptions)
  (response : Response) (stream : ReadableStream) (m : OpenAIChatMessage) :
  fetch w CHAT_COMPLETIONS_URL opts = inr response ->
  response_body response = Some stream ->
  snd (openAiStreamingDataHandler Number_toString w opts) = Returned m ->
  List.length
    (filter is_incoming
       (fst (openAiStreamingDataHandler Number_toString w opts)))
  = List.length (filter payload_bearing (stream_lines (chunks stream))).
Proof.
  intros Hfetch Hbody Hret.
  destruct (returned_session w opts m Hret)
    as [response' [stream' [Hfetch' [Hok Hbody']]]].
  rewrite Hfetch in Hfetch'. injection Hfetch' as <-.
  rewrite Hbody in Hbody'. injection Hbody' as <-.
  destruct (handler_streaming Number_toString w opts response stream
              Hfetch Hok Hbody) as [H1 H2].
  rewrite <- incoming_of_callbacks, H1, Hret, filter_app.
  cbn [filter is_incoming]. rewrite app_nil_r, process_lines_incoming.
  rewrite Hret in H2.
  destruct (process_lines Number_toString
              (map Some (stream_lines (chunks stream))) ([], []))
    as [evs [e|acc']] eqn:Hw; cbn [fst snd] in *; [discriminate H2|].
  exact (process_lines_count _ _ _ _ Hw).
Qed.

(** ** Delivery as the chunks arrive *)

Lemma read_loop_app (values more : list (list byte)) (ending : option JSError) :
  forall st evs st',
    read_loop Number_toString values None st = (evs, inr st') ->
    exists pre,
      evs = pre ++ [EvRead None]
      /\ read_loop Number_toString (values ++ more) ending st
         = (pre ++ fst (read_loop Number_toString more ending st'),
            snd (read_loop Number_toString more ending st')).
Proof.
  induction values as [|value vs IH]; intros st evs st'.
  - cbn [read_loop app]. intros H; injection H as <- <-.
    exists []. split; [reflexivity|].
    destruct (read_loop Number_toString more ending st); reflexivity.
  - cbn [read_loop app].
    destruct (process_lines Number_toString _ (content st, role st))
      as [e1 [x|[c r]]]; [discriminate|].
    destruct (read_loop Number_toString vs None _) as [e2 r2] eqn:H2.
    intros H; injection H as <- ->.
    destruct (IH _ _ _ H2) as [pre [-> Happ]].
    exists (EvRead (Some value) :: e1 ++ pre). split.
    + cbn [app]. rewrite app_assoc. reflexivity.
    + rewrite Happ. cbn [fst snd app]. rewrite app_assoc. reflexivity.
Qed.

Lemma read_loop_fail_app (values more : list (list byte))
  (ending : option JSError) :
  forall st evs e,
    read_loop Number_toString values None st = (evs, inl e) ->
    read_loop Number_toString (values ++ more) ending st = (evs, inl e).
Proof.
  induction values as [|value vs IH]; intros st evs e.
  - cbn [read_loop]. discriminate.
  - cbn [read_loop app].
    destruct (process_lines Number_toString _ (content st, role st))
      as [e1 [x|[c r]]]; [intros H; exact H|].
    destruct (read_loop Number_toString vs None _) as [e2 r2] eqn:H2.
    intros H; injection H as <- ->.
    rewrite (IH _ _ _ H2). reflexivity.
Qed.

(** X12. Delivery is incremental. When a session over some chunks
    returns, a session over the same chunks followed by more (however
    that longer stream ends) has the same effects in the same order up to
    the point where the first one saw the source exhausted: every
    callback for what has arrived is made before the next chunk is read,
    and none depends on what arrives later. *)
Theorem effects_do_not_depend_on_later_chunks (now : Z)
  (opts : FetchRequestOptions) (values more : list (list byte))
  (ending : option JSError) (m : OpenAIChatMessage) :
  snd (openAiStreamingDataHandler Number_toString
         (world_of now (streaming_response values)) opts) = Returned m ->
  exists pre rest,
    fst (openAiStreamingDataHandler Number_toString
           (world_of now (streaming_response values)) opts)
    = pre ++ [EvRead None; EvCloseStream now]
    /\ fst (openAiStreamingDataHandler Number_toString
              (world_of now (streaming_response_ending (values ++ more) ending))
              opts)
       = pre ++ rest.
Proof.
  unfold openAiStreamingDataHandler.
  cbn [world_of fetch Date_now streaming_response streaming_response_ending
       ok status response_body chunks failure N.leb N.compare Pos.compare
       Pos.compare_cont andb negb].
  destruct (read_loop Number_toString values None (Locals [] [] (Some [])))
    as [evs [e|st]] eqn:H1; cbn [fst snd]; [intros H; discriminate H|].
  intros _.
  destruct (read_loop_app values more ending _ _ _ H1) as [pre [-> Happ]].
  rewrite Happ.
  destruct (read_loop Number_toString more ending st) as [e2 [x|st2]];
    cbn [fst snd].
  - exists ([EvDateNow now; EvFetch CHAT_COMPLETIONS_URL opts] ++ pre), e2.
    split; rewrite <- !app_assoc; reflexivity.
  - exists ([EvDateNow now; EvFetch CHAT_COMPLETIONS_URL opts] ++ pre),
      (e2 ++ [EvCloseStream now]).
    split; rewrite <- !app_assoc; reflexivity.
Qed.

(** X13. After a line has thrown nothing more is read: when a session
    over some chunks throws, a session over the same chunks followed by
    any others has exactly the same effects and throws the same
    error. *)
Theorem nothing_is_read_after_a_failure (now : Z) (opts : FetchRequestOptions)
  (values more : list (list byte)) (ending : option JSError) (e : JSError) :
  snd (openAiStreamingDataHandler Number_toString
         (world_of now (streaming_response values)) opts) = Threw e ->
  openAiStreamingDataHandler Number_toString
    (world_of now (streaming_response_ending (values ++ more) ending)) opts
  = openAiStreamingDataHandler Number_toString
      (world_of now (streaming_response values)) opts.
Proof.
  unfold openAiStreamingDataHandler.
  cbn [world_of fetch Date_now streaming_response streaming_response_ending
       ok status response_body chunks failure N.leb N.compare Pos.compare
       Pos.compare_cont andb negb].
  destruct (read_loop Number_toString values None (Locals [] [] (Some [])))
    as [evs [x|st]] eqn:H1; cbn [fst snd]; [|intros H; discriminate H].
  intros _. rewrite (read_loop_fail_app values more ending _ _ _ H1).
  reflexivity.
Qed.

(** X14. When a read is rejected after the chunks of the stream (the
    request was aborted, the connection broke), the chunks that arrived
    have been processed and their callbacks made, and the handler throws:
    the error of the rejected read, unless a line threw first. No close
    callback is made and no message is returned. *)
Theorem rejected_read_ends_the_session (w : World) (opts : FetchRequestOptions)
  (response : Response) (stream : ReadableStream) (e : JSError) :
  fetch w CHAT_COMPLETIONS_URL opts = inr response ->
  ok response = true ->
  response_body response = Some stream ->
  failure stream = Some e ->
  let whole := process_lines Number_toString
                 (map Some (stream_lines (chunks stream))) ([], []) in
  let run := openAiStreamingDataHandler Number_toString w opts in
  snd run = Threw (match snd whole with inl e' => e' | inr _ => e end)
  /\ callbacks (fst run) = fst whole
  /\ filter is_close (fst run) = [].
Proof.
  intros Hfetch Hok Hbody Hfail whole run.
  destruct (handler_streaming Number_toString w opts response stream
              Hfetch Hok Hbody) as [H1 H2].
  fold whole in H1, H2. fold run in H1, H2. rewrite Hfail in H2.
  assert (Hs : snd run
               = Threw (match snd whole with inl e' => e' | inr _ => e end)).
  { rewrite H2. destruct (snd whole) as [e'|[c r]]; reflexivity. }
  split; [exact Hs|]. rewrite Hs in H1. rewrite app_nil_r in H1.
  split; [exact H1|].
  exact (handler_throw_no_close Number_toString w opts _ Hs).
Qed.

Lemma read_loop_reads_and_chunks (values : list (list byte))
  (ending : option JSError) :
  forall st,
    filter (fun ev => is_fetch ev || is_clock ev)
      (fst (read_loop Number_toString values ending st)) = [].
Proof.
  induction values as [|value more IH]; intros st.
  - cbn [read_loop]. destruct ending; reflexivity.
  - cbn [read_loop].
    pose proof (process_lines_incoming
                  (firstn (List.length (String_split re_event_boundary 1
                      (append_chunk (decodedData st) (TextDecoder_decode value))) - 1)
                     (String_split re_event_boundary 1
                      (append_chunk (decodedData st) (TextDecoder_decode value))))
                  (content st, role st)) as Hin.
    destruct (process_lines Number_toString _ (content st, role st))
      as [evs [e|[c r]]]; cbn [fst snd] in *.
    + cbn [filter is_fetch is_clock orb]. rewrite <- Hin.
      clear. induction evs as [|x evs IHe]; [reflexivity|].
      destruct x; cbn [filter is_incoming is_fetch is_clock orb]; exact IHe.
    + specialize (IH (Locals c r (last_line (String_split re_event_boundary 1
                      (append_chunk (decodedData st) (TextDecoder_decode value)))))).
      destruct (read_loop Number_toString more ending _) as [evs' res'].
      cbn [fst snd] in *. cbn [filter is_fetch is_clock orb].
      rewrite filter_app, IH, app_nil_r, <- Hin.
      clear. induction evs as [|x evs IHe]; [reflexivity|].
      destruct x; cbn [filter is_incoming is_fetch is_clock orb]; exact IHe.
Qed.

(** X15. Every session reads the clock once and issues one request, to
    the chat completions address with the options it was given: there is
    no retry and no second request, whatever the response or the stream. *)
Theorem one_request_per_session (w : World) (opts : FetchRequestOptions) :
  filter (fun ev => is_fetch ev || is_clock ev)
    (fst (openAiStreamingDataHandler Number_toString w opts))
  = [EvDateNow (Date_now w); EvFetch CHAT_COMPLETIONS_URL opts].
Proof.
  unfold openAiStreamingDataHandler.
  destruct (fetch w CHAT_COMPLETIONS_URL opts) as [e|response];
    [reflexivity|].
  destruct (ok response); cbn [negb]; [|reflexivity].
  destruct (response_body response) as [stream|]; [|reflexivity].
  pose proof (read_loop_reads_and_chunks (chunks stream) (failure stream)
                (Locals [] [] (Some []))) as H.
  destruct (read_loop Number_toString (chunks stream) (failure stream)
              (Locals [] [] (Some []))) as [evs [e|st]]; cbn [fst snd] in *.
  - cbn [app filter is_fetch is_clock orb]. rewrite H. reflexivity.
  - cbn [app filter is_fetch is_clock orb]. rewrite filter_app, H.
    reflexivity.
Qed.

End DecoderFurtherProperties.

(* ================================================================== *)
(** * Further properties of the request shaper *)
(* ================================================================== *)

(** X16. The API key never reaches the body: the object that is encoded
    has no [apiKey] property, even when the options list one among their
    other properties; the key travels in the Authorization header only. *)
Theorem api_key_is_not_in_the_body (p : OpenAIStreamingParams)
  (messages : list JSON) :
  obj_get (request_body p messages) (lit "apiKey") = None
  /\ ~ In (lit "apiKey") (keys (request_body p messages)).
Proof.
  assert (H : ~ In (lit "apiKey") (keys (request_body p messages))).
  { rewrite request_body_keys. intros [H|[H|[H|H]]]; try discriminate H.
    revert H. apply obj_get_None_keys, restOfApiParams_excludes.
    left; reflexivity. }
  split; [apply obj_get_None_keys, H|exact H].
Qed.

(* ================================================================== *)
(** * The further properties at concrete sessions *)
(* ================================================================== *)

Lemma marker_is_optional_witness :
  strip_prefix (lit "data:") hi_payload = None
  /\ process_line literal_toString (Some (lit "data:" ++ hi_payload)) ([], [])
     = process_line literal_toString (Some hi_payload) ([], []).
Proof.
  split; [reflexivity|].
  exact (marker_is_optional literal_toString hi_payload ([], []) eq_refl).
Defined.

Lemma white_space_around_payload_is_immaterial_witness :
  forallb isWhiteSpace [32%N; 9%N] = true
  /\ forallb isWhiteSpace [13%N] = true
  /\ process_line literal_toString
       (Some (lit "data:" ++ [32%N; 9%N] ++ hi_payload ++ [13%N])) ([], [])
     = process_line literal_toString (Some (lit "data:" ++ hi_payload)) ([], []).
Proof.
  split; [reflexivity|]. split; [reflexivity|].
  exact (white_space_around_payload_is_immaterial literal_toString
           [32%N; 9%N] hi_payload [13%N] ([], []) eq_refl eq_refl).
Defined.

Lemma blank_lines_are_skipped_witness :
  forallb isWhiteSpace [32%N; 13%N] = true
  /\ process_line literal_toString (Some (lit "data:" ++ [32%N; 13%N]))
       (lit "Hi", [])
     = ([], inr (lit "Hi", []))
  /\ process_lines literal_toString
       ([Some hi_frame] ++ Some (lit "data:" ++ [32%N; 13%N])
          :: [Some there_frame]) ([], [])
     = process_lines literal_toString ([Some hi_frame] ++ [Some there_frame])
         ([], []).
Proof.
  split; [reflexivity|].
  split.
  - exact (proj1 (blank_lines_are_skipped literal_toString
                    (lit "data:" ++ [32%N; 13%N]) [32%N; 13%N]
                    [] [] (lit "Hi", []) eq_refl (or_intror eq_refl))).
  - exact (proj2 (blank_lines_are_skipped literal_toString
                    (lit "data:" ++ [32%N; 13%N]) [32%N; 13%N]
                    [Some hi_frame] [Some there_frame] ([], [])
                    eq_refl (or_intror eq_refl))).
Defined.

Lemma line_that_is_not_json_fails_session_witness :
  stream_lines comment_stream
  = [hi_frame; [LF]] ++ ([] ++ 58%N :: wire " ping")
      :: [[LF]; wire "data: [DONE]"; [LF]]
  /\ snd (openAiStreamingDataHandler literal_toString
            (world_of example_now (streaming_response comment_stream))
            example_opts) = Threw SyntaxError
  /\ callbacks
       (fst (openAiStreamingDataHandler literal_toString
               (world_of example_now (streaming_response comment_stream))
               example_opts))
     = [EvIncomingChunk (lit "Hi") (JString [])].
Proof.
  assert (Hlines : stream_lines comment_stream
                   = [hi_frame; [LF]] ++ ([] ++ 58%N :: wire " ping")
                       :: [[LF]; wire "data: [DONE]"; [LF]])
    by (vm_compute; reflexivity).
  split; [exact Hlines|].
  destruct (line_that_is_not_json_fails_session literal_toString
              [] (wire " ping") 58%N
              (world_of example_now (streaming_response comment_stream))
              example_opts (streaming_response comment_stream)
              {| chunks := comment_stream; failure := None |}
              [hi_frame; [LF]] [[LF]; wire "data: [DONE]"; [LF]]
              eq_refl eq_refl eq_refl eq_refl eq_refl eq_refl eq_refl Hlines)
    as [_ [A [B _]]].
  split; [exact A|exact B].
Defined.

Lemma empty_deltas_still_call_back_witness :
  JSON_parse (trimmedLine finish_line) = Some finish_chunk
  /\ process_line literal_toString (Some finish_line) (lit "Hi", lit "assistant")
     = ([EvIncomingChunk [] (JString [])], inr (lit "Hi", lit "assistant")).
Proof.
  assert (H1 : trimmedLine finish_line <> []) by (vm_compute; discriminate).
  assert (H2 : trimmedLine finish_line <> DONE) by (vm_compute; discriminate).
  assert (Hp : JSON_parse (trimmedLine finish_line) = Some finish_chunk)
    by (vm_compute; reflexivity).
  split; [exact Hp|].
  exact (empty_deltas_still_call_back literal_toString finish_line finish_chunk
           [] (lit "Hi", lit "assistant") H1 H2 Hp eq_refl
           (or_introl eq_refl) (or_introl eq_refl)).
Defined.

Lemma content_that_is_not_a_string_throws_witness :
  JSON_parse (trimmedLine numeric_content_line) = Some numeric_content_chunk
  /\ chunk_delta numeric_content_chunk = inr (Some numeric_content_delta)
  /\ process_line literal_toString (Some numeric_content_line) (lit "Hi", [])
     = ([], inl TypeError).
Proof.
  assert (H1 : trimmedLine numeric_content_line <> [])
    by (vm_compute; discriminate).
  assert (H2 : trimmedLine numeric_content_line <> DONE)
    by (vm_compute; discriminate).
  assert (Hp : JSON_parse (trimmedLine numeric_content_line)
               = Some numeric_content_chunk) by (vm_compute; reflexivity).
  split; [exact Hp|]. split; [reflexivity|].
  apply (content_that_is_not_a_string_throws literal_toString
           numeric_content_line numeric_content_chunk (JNumber (lit "5"))
           (Some numeric_content_delta) (lit "Hi", []) H1 H2 Hp eq_refl eq_refl).
  - intros E; discriminate E.
  - intros s E; discriminate E.
Defined.

Lemma unterminated_tail_is_dropped_witness :
  decoded_text hi_stream_with_tail = frames_text [hi_frame] ++ there_frame
  /\ callbacks (fst (openAiStreamingDataHandler literal_toString
                       (world_of example_now (streaming_response hi_stream))
                       example_opts))
     = callbacks (fst (openAiStreamingDataHandler literal_toString
                         (world_of example_now
                            (streaming_response hi_stream_with_tail))
                         example_opts))
  /\ snd (openAiStreamingDataHandler literal_toString
            (world_of example_now (streaming_response hi_stream)) example_opts)
     = snd (openAiStreamingDataHandler literal_toString
              (world_of example_now (streaming_response hi_stream_with_tail))
              example_opts).
Proof.
  assert (H1 : decoded_text hi_stream = frames_text [hi_frame])
    by (vm_compute; reflexivity).
  assert (H2 : decoded_text hi_stream_with_tail
               = frames_text [hi_frame] ++ there_frame)
    by (vm_compute; reflexivity).
  split; [exact H2|].
  exact (unterminated_tail_is_dropped literal_toString example_now example_opts
           hi_stream hi_stream_with_tail [hi_frame] there_frame
           eq_refl eq_refl H1 H2).
Defined.

Lemma returned_message_is_what_was_delivered_witness :
  snd (openAiStreamingDataHandler literal_toString
         (world_of example_now (streaming_response spec_example_stream))
         example_opts)
  = Returned (ChatMessage (lit "Hi") (lit "assistant"))
  /\ lit "Hi"
     = delivered_content
         (fst (openAiStreamingDataHandler literal_toString
                 (world_of example_now (streaming_response spec_example_stream))
                 example_opts))
  /\ lit "assistant"
     = delivered_role literal_toString
         (fst (openAiStreamingDataHandler literal_toString
                 (world_of example_now (streaming_response spec_example_stream))
                 example_opts)).
Proof.
  assert (H : snd (openAiStreamingDataHandler literal_toString
                     (world_of example_now
                        (streaming_response spec_example_stream))
                     example_opts)
              = Returned (ChatMessage (lit "Hi") (lit "assistant")))
    by (vm_compute; reflexivity).
  split; [exact H|].
  exact (returned_message_is_what_was_delivered literal_toString
           (world_of example_now (streaming_response spec_example_stream))
           example_opts (ChatMessage (lit "Hi") (lit "assistant")) H).
Defined.

Lemma one_callback_per_payload_line_witness :
  List.length (filter payload_bearing (stream_lines spec_example_stream)) = 2
  /\ List.length
       (filter is_incoming
          (fst (openAiStreamingDataHandler literal_toString
                  (world_of example_now (streaming_response spec_example_stream))
                  example_opts)))
     = List.length (filter payload_bearing (stream_lines spec_example_stream)).
Proof.
  split; [vm_compute; reflexivity|].
  assert (H : snd (openAiStreamingDataHandler literal_toString
                     (world_of example_now
                        (streaming_response spec_example_stream))
                     example_opts)
              = Returned (ChatMessage (lit "Hi") (lit "assistant")))
    by (vm_compute; reflexivity).
  exact (one_callback_per_payload_line literal_toString
           (world_of example_now (streaming_response spec_example_stream))
           example_opts (streaming_response spec_example_stream)
           {| chunks := spec_example_stream; failure := None |}
           (ChatMessage (lit "Hi") (lit "assistant")) eq_refl eq_refl H).
Defined.

Lemma effects_do_not_depend_on_later_chunks_witness :
  snd (openAiStreamingDataHandler literal_toString
         (world_of example_now (streaming_response hi_stream)) example_opts)
  = Returned (ChatMessage (lit "Hi") [])
  /\ exists pre rest,
       fst (openAiStreamingDataHandler literal_toString
              (world_of example_now (streaming_response hi_stream))
              example_opts)
       = pre ++ [EvRead None; EvCloseStream example_now]
       /\ fst (openAiStreamingDataHandler literal_toString
                 (world_of example_now
                    (streaming_response_ending (hi_stream ++ there_stream)
                       (Some aborted)))
                 example_opts)
          = pre ++ rest.
Proof.
  assert (H : snd (openAiStreamingDataHandler literal_toString
                     (world_of example_now (streaming_response hi_stream))
                     example_opts)
              = Returned (ChatMessage (lit "Hi") []))
    by (vm_compute; reflexivity).
  split; [exact H|].
  exact (effects_do_not_depend_on_later_chunks literal_toString example_now
           example_opts hi_stream there_stream (Some aborted)
           (ChatMessage (lit "Hi") []) H).
Defined.

Lemma nothing_is_read_after_a_failure_witness :
  snd (openAiStreamingDataHandler literal_toString
         (world_of example_now (streaming_response malformed_stream))
         example_opts) = Threw SyntaxError
  /\ openAiStreamingDataHandler literal_toString
       (world_of example_now
          (streaming_response_ending (malformed_stream ++ there_stream) None))
       example_opts
     = openAiStreamingDataHandler literal_toString
         (world_of example_now (streaming_response malformed_stream))
         example_opts.
Proof.
  assert (H : snd (openAiStreamingDataHandler literal_toString
                     (world_of example_now
                        (streaming_response malformed_stream))
                     example_opts) = Threw SyntaxError)
    by (vm_compute; reflexivity).
  split; [exact H|].
  exact (nothing_is_read_after_a_failure literal_toString example_now
           example_opts malformed_stream there_stream None SyntaxError H).
Defined.

Lemma rejected_read_ends_the_session_witness :
  snd (openAiStreamingDataHandler literal_toString
         (world_of example_now
            (streaming_response_ending hi_stream (Some aborted)))
         example_opts) = Threw aborted
  /\ callbacks
       (fst (openAiStreamingDataHandler literal_toString
               (world_of example_now
                  (streaming_response_ending hi_stream (Some aborted)))
               example_opts))
     = [EvIncomingChunk (lit "Hi") (JString [])]
  /\ filter is_close
       (fst (openAiStreamingDataHandler literal_toString
               (world_of example_now
                  (streaming_response_ending hi_stream (Some aborted)))
               example_opts))
     = [].
Proof.
  exact (rejected_read_ends_the_session literal_toString
           (world_of example_now
              (streaming_response_ending hi_stream (Some aborted)))
           example_opts (streaming_response_ending hi_stream (Some aborted))
           {| chunks := hi_stream; failure := Some aborted |} aborted
           eq_refl eq_refl eq_refl eq_refl).
Defined.

Lemma chunking_is_immaterial_for_ascii_witness :
  concat hi_done_whole = concat hi_done_cut
  /\ forallb is_ascii (concat hi_done_whole) = true
  /\ callbacks (fst (openAiStreamingDataHandler literal_toString
                       (world_of example_now (streaming_response hi_done_whole))
                       example_opts))
     = callbacks (fst (openAiStreamingDataHandler literal_toString
                         (world_of example_now (streaming_response hi_done_cut))
                         example_opts))
  /\ snd (openAiStreamingDataHandler literal_toString
            (world_of example_now (streaming_response hi_done_whole))
            example_opts)
     = snd (openAiStreamingDataHandler literal_toString
              (world_of example_now (streaming_response hi_done_cut))
              example_opts).
Proof.
  assert (H1 : concat hi_done_whole = concat hi_done_cut)
    by (vm_compute; reflexivity).
  assert (H2 : forallb is_ascii (concat hi_done_whole) = true)
    by (vm_compute; reflexivity).
  split; [exact H1|]. split; [exact H2|].
  exact (chunking_is_immaterial_for_ascii literal_toString example_now
           example_opts hi_done_whole hi_done_cut H1 H2).
Defined.

Lemma chunking_is_immaterial_at_character_boundaries_witness :
  concat accent_whole = concat accent_cut_before_letter
  /\ callbacks (fst (openAiStreamingDataHandler literal_toString
                       (world_of example_now (streaming_response accent_whole))
                       example_opts))
     = callbacks (fst (openAiStreamingDataHandler literal_toString
                         (world_of example_now
                            (streaming_response accent_cut_before_letter))
                         example_opts))
  /\ snd (openAiStreamingDataHandler literal_toString
            (world_of example_now (streaming_response accent_whole))
            example_opts)
     = snd (openAiStreamingDataHandler literal_toString
              (world_of example_now
                 (streaming_response accent_cut_before_letter))
              example_opts).
Proof.
  assert (H : concat accent_whole = concat accent_cut_before_letter)
    by (vm_compute; reflexivity).
  split; [exact H|].
  apply (chunking_is_immaterial_at_character_boundaries literal_toString
           example_now example_opts accent_whole accent_cut_before_letter H).
  - repeat (constructor; [vm_compute; reflexivity|]). constructor.
  - repeat (constructor; [vm_compute; reflexivity|]). constructor.
  - repeat (constructor; [vm_compute; reflexivity|]). constructor.
  - repeat (constructor; [vm_compute; reflexivity|]). constructor.
Defined.

Lemma wellformed_frames_cut_at_character_boundaries_witness :
  TextDecoder_decode (concat accent_cut_before_letter)
  = frames_text (map fst [(accent_frame, ([233%N], @nil N))]
                 ++ [wire "data: [DONE]"])
  /\ callbacks
       (fst (openAiStreamingDataHandler literal_toString
               (world_of example_now
                  (streaming_response accent_cut_before_letter))
               example_opts))
     = [EvIncomingChunk [233%N] (JString []); EvCloseStream example_now]
  /\ snd (openAiStreamingDataHandler literal_toString
            (world_of example_now
               (streaming_response accent_cut_before_letter))
            example_opts)
     = Returned (ChatMessage [233%N] []).
Proof.
  assert (Ht : TextDecoder_decode (concat accent_cut_before_letter)
               = frames_text (map fst [(accent_frame, ([233%N], @nil N))]
                              ++ [wire "data: [DONE]"]))
    by (vm_compute; reflexivity).
  split; [exact Ht|].
  apply (wellformed_frames_cut_at_character_boundaries literal_toString
           example_now example_opts accent_cut_before_letter
           [(accent_frame, ([233%N], @nil N))] (wire "data: [DONE]")).
  - constructor; [|constructor].
    split; [reflexivity|].
    split; [vm_compute; discriminate|].
    split; [vm_compute; discriminate|].
    eexists. split; [vm_compute; reflexivity|].
    split; vm_compute; reflexivity.
  - reflexivity.
  - reflexivity.
  - exact Ht.
  - repeat (constructor; [vm_compute; reflexivity|]). constructor.
  - repeat (constructor; [vm_compute; reflexivity|]). constructor.
Defined.
